(** * PyBank: a simulated trading account (PyAlgosim)

    Shallow embedding of [src/PyBank.py] (a Python 2 module) and the
    properties of its account state machine.

    Modelling conventions.
    - A Python number is an [int] or a [float].  Integers are modelled
      exactly as [Z] (Python 2 promotes [int] to [long], so they do not
      wrap).  A float is an IEEE 754 binary64 number: every operation
      with a float operand converts an int operand to a float and rounds
      its exact result to the nearest binary64 value, ties to even, with
      gradual underflow ([round64]).  Results beyond the binary64 range
      (where Python gives [inf] or raises [OverflowError]) and the values
      [inf] and [nan] are outside this embedding.  Comparisons are exact,
      also between an int and a float.  Python 2's [/] is floor division
      on two ints and true division otherwise.
    - A Python [dict] is a [gmap]; [d.items()] (a list snapshot in
      Python 2) is [map_to_list].
    - The ["options"] dict of a holding only ever has the key
      ["trailing_stop"], so it is an [option order].
    - A method either returns normally, prints a diagnostic and calls
      [quit()], or lets an exception escape to its caller.  The three
      outcomes carry the account as it is at that moment. *)

From stdpp Require Import gmap strings list fin_maps.
From Stdlib Require Import QArith Qround Qpower Qfield Lqa Lia ZArith.

Open Scope Q_scope.

#[local] Set Warnings "-clear-no-such-hyp".

(** ** Python numbers *)

Module Num.

(** [2 ^ e] *)
Definition pow2 (e : Z) : Q := 2 ^ e.

(** The binary exponent of a positive rational: [2 ^ flog2 x <= x <
    2 ^ (flog2 x + 1)]. *)
Definition flog2 (x : Q) : Z :=
  if Qle_bool 1 x then Z.log2 (Qfloor x) else (- Z.log2_up (Qceiling (/ x)))%Z.

(** The nearest integer, ties to the even one. *)
Definition rne (x : Q) : Z :=
  let f := Qfloor x in
  match Qcompare (x - inject_Z f) (1 # 2) with
  | Lt => f
  | Gt => (f + 1)%Z
  | Eq => if Z.even f then f else (f + 1)%Z
  end.

(** The exponent of the last place of the binary64 numbers around a
    positive [x]: 53 significant bits, and no exponent below that of the
    subnormal numbers. *)
Definition cexp (x : Q) : Z := Z.max (flog2 x - 52) (-1074).

(** The binary64 number nearest to a positive [x]. *)
Definition roundp (x : Q) : Q :=
  inject_Z (rne (x / pow2 (cexp x))) * pow2 (cexp x).

(** The binary64 number nearest to [x], in lowest terms. *)
Definition round64 (x : Q) : Q :=
  match Qcompare x 0 with
  | Eq => 0
  | Gt => Qred (roundp x)
  | Lt => Qred (- roundp (- x))
  end.

(** A Python number.  [Flt q] is the float nearest to [q]: the literal
    [6.99] is [Flt (699 # 100)], and the floats that the operations
    below produce carry the rounded value itself. *)
Inductive num : Type :=
| Int (z : Z)
| Flt (q : Q).

(** The numeric value of a Python number. *)
Definition toQ (x : num) : Q :=
  match x with
  | Int z => inject_Z z
  | Flt q => round64 q
  end.

(** The numeric value of [float(x)], the operand that float arithmetic
    works on. *)
Definition fval (x : num) : Q :=
  match x with
  | Int z => round64 (inject_Z z)
  | Flt q => round64 q
  end.

(** [x + y], [x - y], [x * y]: an int, computed exactly, if both
    operands are ints; otherwise the float nearest to the result on the
    operands converted to floats. *)
Definition add (x y : num) : num :=
  match x, y with
  | Int a, Int b => Int (a + b)
  | _, _ => Flt (round64 (fval x + fval y))
  end.

Definition sub (x y : num) : num :=
  match x, y with
  | Int a, Int b => Int (a - b)
  | _, _ => Flt (round64 (fval x - fval y))
  end.

Definition mul (x y : num) : num :=
  match x, y with
  | Int a, Int b => Int (a * b)
  | _, _ => Flt (round64 (fval x * fval y))
  end.

(** [x / y] in Python 2: floor division on two ints, float division when
    either operand is a float; [None] is [ZeroDivisionError]. *)
Definition div (x y : num) : option num :=
  match x, y with
  | Int a, Int b => if (b =? 0)%Z then None else Some (Int (a / b))
  | _, _ =>
      if Qeq_bool (fval y) 0 then None
      else Some (Flt (round64 (fval x / fval y)))
  end.

(** [float(x)] *)
Definition float (x : num) : num :=
  match x with
  | Int z => Flt (round64 (inject_Z z))
  | Flt _ => x
  end.

(** Comparisons are numeric across int and float. *)
Definition leb (x y : num) : bool := Qle_bool (toQ x) (toQ y).
Definition ltb (x y : num) : bool := negb (Qle_bool (toQ y) (toQ x)).
Definition geb (x y : num) : bool := leb y x.
Definition gtb (x y : num) : bool := ltb y x.
Definition eqb (x y : num) : bool := Qeq_bool (toQ x) (toQ y).

(** The literal [0]. *)
Definition zero : num := Int 0.

(** The literal [100.0]. *)
Definition hundred : num := Flt 100.

End Num.

Import Num.

Declare Scope num_scope.
Delimit Scope num_scope with num.
Bind Scope num_scope with num.
Infix "+" := add : num_scope.
Infix "-" := sub : num_scope.
Infix "*" := mul : num_scope.
Infix "<=?" := leb : num_scope.
Infix "<?" := ltb : num_scope.
Infix ">=?" := geb : num_scope.
Infix ">?" := gtb : num_scope.
Infix "=?" := eqb : num_scope.

(** ** Data model *)

(** [stocks_owned[t]["options"]["trailing_stop"]] *)
Record order : Type := Order {
  percentage : bool;
  points : num;
  highest : num;
  oquantity : num
}.

(** [stocks_owned[t]] *)
Record holding : Type := Holding {
  quantity : num;
  bought_p : num;
  current_p : num;
  options : option order
}.

Record account : Type := Account {
  funds : num;
  initial_funds : num;
  transactions : Z;
  TRANSACTION_FEE : num;
  latest_prices : gmap string num;
  original_prices : gmap string num;
  stocks_owned : gmap string holding
}.

(** [Account.__init__(funds, transaction_fee)] *)
Definition init (f fee : num) : account :=
  {| funds := f; initial_funds := f; transactions := 0;
     TRANSACTION_FEE := fee;
     latest_prices := ∅; original_prices := ∅; stocks_owned := ∅ |}.

(** [Account()] with the default arguments [100000] and [6.99]. *)
Definition init_default : account := init (Int 100000) (Flt (699 # 100)).

(** Field updates. *)
Definition set_funds (f : num) (a : account) : account :=
  {| funds := f; initial_funds := initial_funds a;
     transactions := transactions a; TRANSACTION_FEE := TRANSACTION_FEE a;
     latest_prices := latest_prices a; original_prices := original_prices a;
     stocks_owned := stocks_owned a |}.

Definition set_transactions (n : Z) (a : account) : account :=
  {| funds := funds a; initial_funds := initial_funds a;
     transactions := n; TRANSACTION_FEE := TRANSACTION_FEE a;
     latest_prices := latest_prices a; original_prices := original_prices a;
     stocks_owned := stocks_owned a |}.

Definition set_latest (m : gmap string num) (a : account) : account :=
  {| funds := funds a; initial_funds := initial_funds a;
     transactions := transactions a; TRANSACTION_FEE := TRANSACTION_FEE a;
     latest_prices := m; original_prices := original_prices a;
     stocks_owned := stocks_owned a |}.

Definition set_original (m : gmap string num) (a : account) : account :=
  {| funds := funds a; initial_funds := initial_funds a;
     transactions := transactions a; TRANSACTION_FEE := TRANSACTION_FEE a;
     latest_prices := latest_prices a; original_prices := m;
     stocks_owned := stocks_owned a |}.

Definition set_stocks (m : gmap string holding) (a : account) : account :=
  {| funds := funds a; initial_funds := initial_funds a;
     transactions := transactions a; TRANSACTION_FEE := TRANSACTION_FEE a;
     latest_prices := latest_prices a; original_prices := original_prices a;
     stocks_owned := m |}.

Definition set_quantity (q : num) (h : holding) : holding :=
  {| quantity := q; bought_p := bought_p h; current_p := current_p h;
     options := options h |}.

Definition set_bought_p (p : num) (h : holding) : holding :=
  {| quantity := quantity h; bought_p := p; current_p := current_p h;
     options := options h |}.

Definition set_current_p (p : num) (h : holding) : holding :=
  {| quantity := quantity h; bought_p := bought_p h; current_p := p;
     options := options h |}.

Definition set_options (o : option order) (h : holding) : holding :=
  {| quantity := quantity h; bought_p := bought_p h; current_p := current_p h;
     options := o |}.

Definition set_highest (p : num) (o : order) : order :=
  {| percentage := percentage o; points := points o; highest := p;
     oquantity := oquantity o |}.

(** ** Outcomes *)

(** The diagnostics after which the source calls [quit()]. *)
Inductive error : Type :=
| InsufficientFunds     (* buy: ValueError; trailing_stop: IndexError *)
| UnknownTicker         (* buy: the bare [except:] *)
| NotOwned              (* sell: KeyError *)
| OversellAttempt       (* sell: ValueError *)
| OrderExceedsHoldings. (* trailing_stop: ValueError *)

(** Exceptions that no handler of the module catches. *)
Inductive exn : Type :=
| KeyError
| ZeroDivisionError.

Inductive outcome : Type :=
| Ok (a : account)
| Quit (e : error) (a : account)
| Raise (x : exn) (a : account).

Definition state_of (r : outcome) : account :=
  match r with
  | Ok a | Quit _ a | Raise _ a => a
  end.

Definition bind (r : outcome) (k : account -> outcome) : outcome :=
  match r with
  | Ok a => k a
  | _ => r
  end.

Notation "r >>= k" := (bind r k) (at level 58, left associativity).

(** The [quantity] argument of [sell_stock]: a number or the string
    ["all"]. *)
Inductive sell_qty : Type :=
| Qty (q : num)
| All.

(** ** Operations *)

(** [Account.sell_stock(ticker, quantity)] *)
Definition sell_stock (a : account) (ticker : string) (q : sell_qty) : outcome :=
  match stocks_owned a !! ticker with
  | None => Quit NotOwned a
  | Some h =>
      let quantity' := match q with All => quantity h | Qty n => n end in
      let current_price := current_p h in
      if (quantity h - quantity' >=? zero)%num then
        let a1 :=
          set_funds (funds a + (quantity' * current_price - TRANSACTION_FEE a))%num a in
        let h1 := set_quantity (quantity h - quantity')%num h in
        let a2 :=
          if (quantity h1 =? zero)%num
          then set_stocks (delete ticker (stocks_owned a1)) a1
          else set_stocks (<[ticker := h1]> (stocks_owned a1)) a1 in
        Ok (set_transactions (transactions a2 + 1)%Z a2)
      else Quit OversellAttempt a
  end.

(** [if ticker in account.stocks_owned:
       del account.stocks_owned[ticker]["options"]["trailing_stop"]] *)
Definition drop_trailing_stop (ticker : string) (a : account) : account :=
  match stocks_owned a !! ticker with
  | Some h => set_stocks (<[ticker := set_options None h]> (stocks_owned a)) a
  | None => a
  end.

(** [update_trailing_stop(account, ticker)], the helper called by
    [update] for a held ticker with a trailing-stop order. *)
Definition update_trailing_stop (a : account) (ticker : string) : outcome :=
  match stocks_owned a !! ticker with
  | None => Raise KeyError a
  | Some h =>
      match options h with
      | None => Raise KeyError a
      | Some o =>
          let current_price := current_p h in
          if (highest o >? current_price)%num then
            let bottom_limit :=
              if percentage o
              then (highest o - highest o * points o)%num
              else (highest o - points o)%num in
            if (current_price <=? bottom_limit)%num then
              sell_stock a ticker (Qty (oquantity o)) >>= fun a1 =>
              Ok (drop_trailing_stop ticker a1)
            else Ok a
          else
            Ok (set_stocks
                  (<[ticker := set_options (Some (set_highest current_price o)) h]>
                     (stocks_owned a)) a)
      end
  end.

(** One iteration of the loop of [update] over [stocks_owned.items()]. *)
Definition update_one (ticker : string) (a : account) : outcome :=
  match latest_prices a !! ticker with
  | None => Ok a
  | Some p =>
      match stocks_owned a !! ticker with
      | None => Raise KeyError a
      | Some h =>
          let h1 := set_current_p p h in
          let a1 := set_stocks (<[ticker := h1]> (stocks_owned a)) a in
          match options h1 with
          | Some _ => update_trailing_stop a1 ticker
          | None => Ok a1
          end
      end
  end.

(** A [for] loop over a list snapshot; a [quit()] or an escaping
    exception ends it. *)
Fixpoint for_each {A : Type} (body : A -> account -> outcome)
    (l : list A) (a : account) : outcome :=
  match l with
  | [] => Ok a
  | x :: l' => body x a >>= for_each body l'
  end.

(** [Account.update(latest_prices, ticker)] *)
Definition update (a : account) (prices : gmap string num) (ticker : string)
  : outcome :=
  let r :=
    match original_prices a !! ticker with
    | Some _ => Ok a
    | None =>
        match prices !! ticker with
        | None => Raise KeyError a
        | Some p => Ok (set_original (<[ticker := p]> (original_prices a)) a)
        end
    end in
  r >>= fun a1 =>
  let a2 := set_latest prices a1 in
  for_each (fun kv => update_one kv.1) (map_to_list (stocks_owned a2)) a2.

(** [Account.buy_stock(ticker, quantity)] *)
Definition buy_stock (a : account) (ticker : string) (q : num) : outcome :=
  match latest_prices a !! ticker with
  | None => Quit UnknownTicker a
  | Some price =>
      if (funds a - (q * price + TRANSACTION_FEE a) >=? zero)%num then
        let a1 := set_funds (funds a - (q * price + TRANSACTION_FEE a))%num a in
        let a2 := set_transactions (transactions a1 + 1)%Z a1 in
        match stocks_owned a2 !! ticker with
        | None =>
            Ok (set_stocks
                  (<[ticker := {| quantity := q; bought_p := price;
                                  current_p := price; options := None |}]>
                     (stocks_owned a2)) a2)
        | Some h =>
            let old_amount := (quantity h * bought_p h)%num in
            let new_amount := (q * price)%num in
            match div (old_amount + new_amount)%num (quantity h + q)%num with
            | None => Quit UnknownTicker a2
            | Some avg =>
                let average_bought_p := float avg in
                let h1 := set_quantity (quantity h + q)%num h in
                let h2 := set_bought_p average_bought_p h1 in
                Ok (set_stocks (<[ticker := h2]> (stocks_owned a2)) a2)
            end
        end
      else Quit InsufficientFunds a
  end.

(** [Account.trailing_stop(ticker, quantity, points, percentage)] *)
Definition trailing_stop (a : account) (ticker : string) (q pts : num)
    (pct : bool) : outcome :=
  if (funds a - TRANSACTION_FEE a >=? zero)%num then
    match stocks_owned a !! ticker with
    | None => Raise KeyError a
    | Some h =>
        let o1 :=
          match options h with
          | None =>
              {| percentage := pct; points := pts; highest := current_p h;
                 oquantity := q |}
          | Some o =>
              {| percentage := percentage o; points := pts;
                 highest := highest o; oquantity := (oquantity o + q)%num |}
          end in
        let a1 :=
          set_stocks (<[ticker := set_options (Some o1) h]> (stocks_owned a)) a in
        if (oquantity o1 >? quantity h)%num then Quit OrderExceedsHoldings a1
        else if pct then
          match div pts hundred with
          | None => Raise ZeroDivisionError a1
          | Some points' =>
              let o2 :=
                {| percentage := percentage o1; points := points';
                   highest := highest o1; oquantity := oquantity o1 |} in
              Ok (set_stocks (<[ticker := set_options (Some o2) h]> (stocks_owned a))
                    a)
          end
        else Ok a1
    end
  else Quit InsufficientFunds a.

(** One iteration of the loop of [sell_all]. *)
Definition sell_all_one (ticker : string) (a : account) : outcome :=
  match stocks_owned a !! ticker with
  | None => Raise KeyError a
  | Some h =>
      let a1 :=
        set_funds (funds a + (quantity h * current_p h - TRANSACTION_FEE a))%num a in
      let a2 := set_transactions (transactions a1 + 1)%Z a1 in
      Ok (set_stocks (delete ticker (stocks_owned a2)) a2)
  end.

(** [Account.sell_all()] *)
Definition sell_all (a : account) : outcome :=
  for_each (fun kv => sell_all_one kv.1) (map_to_list (stocks_owned a)) a.

(** [Account.value()] *)
Definition value (a : account) : num :=
  foldl (fun total_value kv =>
           (total_value + quantity kv.2 * current_p kv.2)%num)
        zero (map_to_list (stocks_owned a)).

(** The figures that [Account.report(verbose)] formats into its string
    (the [str.format] layout itself is not modelled). *)
Record figures : Type := Figures {
  account_worth : num;
  profit : num;
  profit_percentage : num;
  market_return : num;
  stocks_held : list (string * num * num * num);
  number_of_transactions : Z
}.

Inductive report_result : Type :=
| Report (f : figures)
| ReportRaise (x : exn).

(** The loop of [report] over [original_prices.items()]. *)
Fixpoint market_totals (latest : gmap string num) (l : list (string * num))
    (total_price total_return : num) : option (num * num) :=
  match l with
  | [] => Some (total_price, total_return)
  | (stock, price) :: l' =>
      match latest !! stock with
      | None => None
      | Some p =>
          market_totals latest l' (total_price + price)%num
            (total_return + (p - price))%num
      end
  end.

(** The loop of [report] over [stocks_owned.items()] when [verbose]. *)
Fixpoint held_lines (l : list (string * holding))
  : option (list (string * num * num * num)) :=
  match l with
  | [] => Some []
  | (stock, info) :: l' =>
      match div (current_p info - bought_p info)%num (bought_p info) with
      | None => None
      | Some r =>
          match held_lines l' with
          | None => None
          | Some ls => Some ((stock, quantity info, bought_p info, float r) :: ls)
          end
      end
  end.

(** [Account.report(verbose)]; the account is returned as the method
    leaves it. *)
Definition report (a : account) (verbose : bool) : report_result * account :=
  let account_worth := (funds a + value a)%num in
  let profit := (account_worth - initial_funds a)%num in
  match div profit (initial_funds a) with
  | None => (ReportRaise ZeroDivisionError, a)
  | Some pp =>
      let profit_percentage := float pp in
      match market_totals (latest_prices a) (map_to_list (original_prices a))
              zero zero with
      | None => (ReportRaise KeyError, a)
      | Some (total_price, total_return) =>
          match div total_return total_price with
          | None => (ReportRaise ZeroDivisionError, a)
          | Some mr =>
              match (if verbose then held_lines (map_to_list (stocks_owned a))
                     else Some []) with
              | None => (ReportRaise ZeroDivisionError, a)
              | Some ls =>
                  (Report {| account_worth := account_worth;
                             profit := profit;
                             profit_percentage := profit_percentage;
                             market_return := float mr;
                             stocks_held := ls;
                             number_of_transactions := transactions a |}, a)
              end
          end
      end
  end.

(** ** The driver's view: sequences of calls *)

Inductive op : Type :=
| Update (prices : gmap string num) (ticker : string)
| Buy (ticker : string) (q : num)
| Sell (ticker : string) (q : sell_qty)
| TrailingStop (ticker : string) (q pts : num) (pct : bool)
| SellAll.

Definition run (o : op) (a : account) : outcome :=
  match o with
  | Update prices ticker => update a prices ticker
  | Buy ticker q => buy_stock a ticker q
  | Sell ticker q => sell_stock a ticker q
  | TrailingStop ticker q pts pct => trailing_stop a ticker q pts pct
  | SellAll => sell_all a
  end.

(** A sequence of calls; the first [quit()] or escaping exception ends
    it. *)
Definition run_all (l : list op) (a : account) : outcome := for_each run l a.

(** The accounts a driver can observe: the fresh account, and the
    account left by any call made on an observable account.  [P]
    restricts the calls the driver makes. *)
Inductive reachable_by (P : op -> Prop) (f fee : num) : account -> Prop :=
| reach_init : reachable_by P f fee (init f fee)
| reach_step a o :
    reachable_by P f fee a -> P o ->
    reachable_by P f fee (state_of (run o a)).

Definition reachable : num -> num -> account -> Prop :=
  reachable_by (fun _ => True).

(** ** Vocabulary of the properties *)

(** [x] is below [y]: two ints are compared as ints, and any other pair
    after an int operand is converted to a float, as the subtraction
    [x - y] converts it. *)
Definition below (x y : num) : Prop :=
  match x, y with
  | Int a, Int b => (a < b)%Z
  | _, _ => fval x < fval y
  end.

(** A number that converts to a float without rounding: any float, and
    an int that is a binary64 number (every int up to [2 ^ 53] in
    magnitude is). *)
Definition exact (x : num) : Prop := fval x == toQ x.

(** An int. *)
Definition whole (x : num) : Prop :=
  match x with
  | Int _ => True
  | Flt _ => False
  end.

(** The funds once [sell_all] has credited the holdings of a list, one
    after the other: each credit [quantity * current_p - fee] is added
    to the funds so far. *)
Definition credited (fee : num) (f : num) (l : list (string * holding)) : num :=
  foldl (fun f kv => (f + (quantity kv.2 * current_p kv.2 - fee))%num) f l.

(** The sum of the credits [quantity * current_p - fee] of a list of
    holdings. *)
Fixpoint proceeds (fee : num) (l : list (string * holding)) : Q :=
  match l with
  | [] => 0
  | (_, h) :: l' =>
      (toQ (quantity h) * toQ (current_p h) - toQ fee) + proceeds fee l'
  end.

(** The account left by a successful sale of [n] shares of a holding
    [h] of [ticker]. *)
Definition sold (a : account) (ticker : string) (h : holding) (n : num)
  : account :=
  let f := (funds a + (n * current_p h - TRANSACTION_FEE a))%num in
  let left_over := (quantity h - n)%num in
  {| funds := f; initial_funds := initial_funds a;
     transactions := transactions a + 1; TRANSACTION_FEE := TRANSACTION_FEE a;
     latest_prices := latest_prices a; original_prices := original_prices a;
     stocks_owned :=
       if (left_over =? zero)%num then delete ticker (stocks_owned a)
       else <[ticker := set_quantity left_over h]> (stocks_owned a) |}.

(** The stop threshold of an order. *)
Definition threshold (o : order) : num :=
  if percentage o then (highest o - highest o * points o)%num
  else (highest o - points o)%num.

(** The account after a triggered order of [ticker] has sold
    [oquantity o] shares of the holding [h]: the sale, then the order
    removed from what is left of the holding. *)
Definition triggered (a : account) (ticker : string) (h : holding) (o : order)
  : account :=
  drop_trailing_stop ticker (sold a ticker h (oquantity o)).

(** The account with the watermark of the order of [ticker] set to the
    current price. *)
Definition raised (a : account) (ticker : string) (h : holding) (o : order)
  : account :=
  set_stocks
    (<[ticker := set_options (Some (set_highest (current_p h) o)) h]>
       (stocks_owned a)) a.

(** Every order of [m'] was already an order of [m], with a watermark
    that is not higher. *)
Definition watermarks_le (m m' : gmap string holding) : Prop :=
  forall t h' o',
    m' !! t = Some h' -> options h' = Some o' ->
    exists h o, m !! t = Some h /\ options h = Some o
                /\ toQ (highest o) <= toQ (highest o').

(** A step under which no watermark decreases and no order appears. *)
Definition rising (a a' : account) : Prop :=
  watermarks_le (stocks_owned a) (stocks_owned a').

(** A sequence of [update] calls. *)
Definition run_updates (l : list (gmap string num * string)) : account -> outcome :=
  run_all (map (fun pt => Update pt.1 pt.2) l).

(** What a buy debits: [quantity * price + fee]. *)
Definition cost (a : account) (q price : num) : num :=
  (q * price + TRANSACTION_FEE a)%num.

(** The account once the funds are debited and the transaction counted,
    before the holding is touched. *)
Definition debited (a : account) (q price : num) : account :=
  set_transactions (transactions a + 1)%Z
    (set_funds (funds a - cost a q price)%num a).

(** Every holding has a strictly positive quantity. *)
Definition all_positive (m : gmap string holding) : Prop :=
  forall t h, m !! t = Some h -> 0 < toQ (quantity h).

(** A step that keeps the holdings positive. *)
Definition keeps_positive (a a' : account) : Prop :=
  all_positive (stocks_owned a) -> all_positive (stocks_owned a').

(** The driver only buys strictly positive quantities. *)
Definition positive_buys (o : op) : Prop :=
  match o with
  | Buy _ q => 0 < toQ q
  | _ => True
  end.

(** The quantity a [sell_stock] call asks for. *)
Definition asked (q : sell_qty) (h : holding) : num :=
  match q with
  | All => quantity h
  | Qty n => n
  end.

(** A step that does not touch [original_prices]. *)
Definition same_original (a a' : account) : Prop :=
  original_prices a' = original_prices a.

(** The ticker an [update] call names, if the call is one. *)
Definition names (o : op) (t : string) : option (gmap string num) :=
  match o with
  | Update prices t' => if decide (t' = t) then Some prices else None
  | _ => None
  end.

(** The sum of [quantity * current_p] over a list of holdings. *)
Fixpoint holdings_value (l : list (string * holding)) : Q :=
  match l with
  | [] => 0
  | (_, h) :: l' => toQ (quantity h) * toQ (current_p h) + holdings_value l'
  end.

(** ** Scenarios *)

(** A snapshot quoting the single ticker A. *)
Definition quote (p : num) : gmap string num := {[ "A"%string := p ]}.

(** The absolute example of the specification: an order for 10 of 20
    shares with distance 2, on the prices 100, 110, 107. *)
Definition absolute_example : outcome :=
  run_all [Update (quote (Int 100)) "A"; Buy "A" (Int 20);
           TrailingStop "A" (Int 10) (Int 2) false;
           Update (quote (Int 110)) "A"; Update (quote (Int 107)) "A"]
    (init (Int 100000) (Int 7)).

(** The percentage example of the specification: distance 10 percent,
    on the prices 50, 60, 53. *)
Definition percentage_example : outcome :=
  run_all [Update (quote (Int 50)) "A"; Buy "A" (Int 20);
           TrailingStop "A" (Int 10) (Int 10) true;
           Update (quote (Int 60)) "A"; Update (quote (Int 53)) "A"]
    (init (Int 100000) (Int 7)).

(** A percentage order of 55 percent placed at the price 100, and a
    quote of 45. *)
Definition percentage_rounding : outcome :=
  run_all [Update (quote (Int 100)) "A"; Buy "A" (Int 20);
           TrailingStop "A" (Int 10) (Int 55) true;
           Update (quote (Int 45)) "A"]
    (init (Int 100000) (Int 7)).

(** An order with distance 0, placed at the price 100. *)
Definition at_watermark : account :=
  state_of
    (run_all [Update (quote (Int 100)) "A"; Buy "A" (Int 10);
              TrailingStop "A" (Int 10) (Int 0) false]
       (init (Int 10000) (Int 7))).

(** The holding of [at_watermark]. *)
Definition at_watermark_holding : holding :=
  {| quantity := Int 10; bought_p := Int 100; current_p := Int 100;
     options := Some {| percentage := false; points := Int 0;
                        highest := Int 100; oquantity := Int 10 |} |}.

(** An order for 10 shares with absolute distance 2 and watermark
    110. *)
Definition falling_order : order :=
  {| percentage := false; points := Int 2; highest := Int 110;
     oquantity := Int 10 |}.

(** A holding of 20 under [falling_order], whose price has fallen to
    107. *)
Definition falling_holding : holding :=
  {| quantity := Int 20; bought_p := Int 100; current_p := Int 107;
     options := Some falling_order |}.

(** An account with [falling_holding]. *)
Definition falling : account :=
  set_stocks {[ "A"%string := falling_holding ]} (init (Int 100000) (Int 7)).

(** A holding whose order (distance 5) has the watermark 100. *)
Definition tracked : account :=
  set_stocks
    {[ "A"%string :=
         {| quantity := Int 20; bought_p := Int 100; current_p := Int 100;
            options := Some {| percentage := false; points := Int 5;
                               highest := Int 100; oquantity := Int 10 |} |} ]}
    (init (Int 100000) (Int 7)).

(** The default account after a first quote of AAPL at 110.56. *)
Definition quoted : account :=
  state_of (update init_default {[ "AAPL"%string := Flt (11056 # 100) ]} "AAPL").

(** An account holding 5 shares of A, quoted at 10. *)
Definition holding_five : account :=
  state_of (run_all [Update (quote (Int 10)) "A"; Buy "A" (Int 5)]
              (init (Int 1000) (Int 1))).

(** An account that bought minus 5 shares of A, quoted at 10. *)
Definition short_five : account :=
  state_of (run_all [Update (quote (Int 10)) "A"; Buy "A" (Int (-5))]
              (init (Int 1000) (Int 1))).

(** An account with the given funds and fee, quoted A at 0.1. *)
Definition penny_account (f fee : num) : account :=
  set_latest (quote (Flt (1 # 10))) (init f fee).

(** An account holding [2 ^ 53 + 3] shares of A. *)
Definition wide_holding : account :=
  set_stocks
    {[ "A"%string :=
         {| quantity := Int 9007199254740995; bought_p := Int 1;
            current_p := Int 1; options := None |} ]}
    (init (Int 1000) (Int 1)).

(** Two buys of one share at the integer prices 10 and 11. *)
Definition two_fills : outcome :=
  run_all [Update (quote (Int 10)) "A"; Buy "A" (Int 1);
           Update (quote (Int 11)) "A"; Buy "A" (Int 1)]
    (init (Int 1000) (Int 0)).

(** A snapshot quoting two tickers. *)
Definition two_quotes : gmap string num :=
  {[ "A"%string := Int 1; "B"%string := Int 2 ]}.

(** An account opened with 1000 and no fee that bought 10 shares at 10,
    now quoted at 15. *)
Definition gained : outcome :=
  run_all [Update (quote (Int 10)) "A"; Buy "A" (Int 10);
           Update (quote (Int 15)) "A"]
    (init (Int 1000) (Int 0)).

(** ** Vocabulary of the further properties *)

(** The holding left when [n] shares of [h] are sold and some remain. *)
Definition remaining (h : holding) (n : num) : holding :=
  {| quantity := (quantity h - n)%num; bought_p := bought_p h;
     current_p := current_p h; options := options h |}.

(** [self.funds + self.value()], the [account_worth] of [report]. *)
Definition net_worth (a : account) : num := (funds a + value a)%num.

(** The order [trailing_stop] writes before its checks: a new order at
    the current price, or the existing one with the quantity added and
    the points replaced. *)
Definition requested (h : holding) (q pts : num) (pct : bool) : order :=
  match options h with
  | None =>
      {| percentage := pct; points := pts; highest := current_p h;
         oquantity := q |}
  | Some o =>
      {| percentage := percentage o; points := pts; highest := highest o;
         oquantity := (oquantity o + q)%num |}
  end.

(** [points / 100.0]: the float nearest to the quotient of the points,
    converted to a float, by 100. *)
Definition percent (pts : num) : num :=
  Flt (round64 (fval pts / fval hundred)).

(** The order a successful [trailing_stop] leaves: the points of a
    percentage call are divided by [100.0]. *)
Definition placed (h : holding) (q pts : num) (pct : bool) : order :=
  let o := requested h q pts pct in
  {| percentage := percentage o;
     points := if pct then percent pts else pts;
     highest := highest o; oquantity := oquantity o |}.

(** A holding with its current price taken from a snapshot that quotes
    the ticker, and unchanged otherwise. *)
Definition refreshed (prices : gmap string num) (t : string) (h : holding)
  : holding :=
  match prices !! t with
  | Some p => set_current_p p h
  | None => h
  end.

(** Every holding whose ticker has a latest price is priced at it. *)
Definition in_sync (a : account) : Prop :=
  forall t h p,
    stocks_owned a !! t = Some h -> latest_prices a !! t = Some p ->
    current_p h = p.

(** A step that touches no holding but that of [k], keeps the latest
    prices, and keeps the current price of what it leaves of [k]. *)
Definition only_at (k : string) (a a' : account) : Prop :=
  latest_prices a' = latest_prices a
  /\ (forall t, t <> k -> stocks_owned a' !! t = stocks_owned a !! t)
  /\ (forall h', stocks_owned a' !! k = Some h' ->
                 exists h, stocks_owned a !! k = Some h
                           /\ current_p h' = current_p h).

(** An account in whole numbers: the funds, the fee, the latest prices
    and the quantity and current price of every holding are ints. *)
Definition whole_account (a : account) : Prop :=
  whole (funds a) /\ whole (TRANSACTION_FEE a)
  /\ (forall t p, latest_prices a !! t = Some p -> whole p)
  /\ (forall t h, stocks_owned a !! t = Some h ->
                  whole (quantity h) /\ whole (current_p h)).

(** A call that trades an int quantity. *)
Definition whole_op (o : op) : Prop :=
  match o with
  | Buy _ q => whole q
  | Sell _ (Qty q) => whole q
  | _ => True
  end.

(** A step that keeps the initial funds and the fee. *)
Definition same_terms (a a' : account) : Prop :=
  initial_funds a' = initial_funds a
  /\ TRANSACTION_FEE a' = TRANSACTION_FEE a.

(** A call that is not a price update. *)
Definition trades (o : op) : Prop :=
  match o with
  | Update _ _ => False
  | _ => True
  end.



(** An account that was updated for A and then, with a snapshot that
    quotes B only, for B. *)
Definition desynced : account :=
  state_of
    (run_all [Update (quote (Int 10)) "A";
              Update {[ "B"%string := Int 20 ]} "B"]
       (init (Int 1000) (Int 1))).

(** The default account after a first buy of 100 AAPL at 110.56. *)
Definition first_fill : account :=
  state_of (buy_stock quoted "AAPL" (Int 100)).

(** The account of [first_fill] once AAPL is quoted at 132. *)
Definition requoted : account :=
  state_of (update first_fill {[ "AAPL"%string := Flt 132 ]} "AAPL").

(** A holding on which an evaluation at the quoted price changes
    nothing: it is priced at the quote, and its order, if any, has its
    watermark at the quote, or above it with the quote still above the
    threshold. *)
Definition settled (prices : gmap string num) (t : string) (h : holding)
  : Prop :=
  match prices !! t with
  | None => True
  | Some p =>
      current_p h = p
      /\ match options h with
         | None => True
         | Some o =>
             highest o = p
             \/ ((highest o >? p)%num = true
                 /\ (p <=? threshold o)%num = false)
         end
  end.

(** An order that the quote [p] triggers although it asks for more than
    its holding has. *)
Definition oversized (p : num) (h : holding) : Prop :=
  match options h with
  | None => False
  | Some o =>
      toQ p < toQ (highest o) /\ toQ p <= toQ (threshold o)
      /\ below (quantity h) (oquantity o)
  end.

(** The holding of [t] is quoted and its order is [oversized] at the
    quote. *)
Definition overdrawn (prices : gmap string num) (t : string) (h : holding)
  : Prop :=
  match prices !! t with
  | None => False
  | Some p => oversized p h
  end.

(** An account whose order for 10 shares outlived a sale of 5 of its 10
    shares. *)
Definition oversold_order : account :=
  state_of
    (run_all [Update (quote (Int 100)) "A"; Buy "A" (Int 10);
              TrailingStop "A" (Int 10) (Int 2) false;
              Sell "A" (Qty (Int 5))]
       (init (Int 10000) (Int 7))).

(** An account whose order of 55 percent for 10 shares outlived a sale
    of 5 of its 10 shares. *)
Definition oversold_percentage : account :=
  state_of
    (run_all [Update (quote (Int 100)) "A"; Buy "A" (Int 10);
              TrailingStop "A" (Int 10) (Int 55) true;
              Sell "A" (Qty (Int 5))]
       (init (Int 10000) (Int 7))).

(** Every holding of [m'] was a holding of [m] with the same average
    bought price. *)
Definition same_basis (m m' : gmap string holding) : Prop :=
  forall t h', m' !! t = Some h' ->
               exists h, m !! t = Some h /\ bought_p h' = bought_p h.

(** A step that keeps the average bought price of the holdings it
    leaves. *)
Definition keeps_basis (a a' : account) : Prop :=
  same_basis (stocks_owned a) (stocks_owned a').

(** A call that is not a buy. *)
Definition not_a_buy (o : op) : Prop :=
  match o with
  | Buy _ _ => False
  | _ => True
  end.

(** ** Rounding to binary64 *)

Lemma pow2_pos e : 0 < pow2 e.
Proof. apply Qpower_0_lt. reflexivity. Qed.

Lemma pow2_plus a b : pow2 (a + b) == pow2 a * pow2 b.
Proof. apply Qpower_plus. discriminate. Qed.

Lemma pow2_le a b : (a <= b)%Z -> pow2 a <= pow2 b.
Proof. intros H. apply Qpower_le_compat_l; [exact H | discriminate]. Qed.

Lemma pow2_lt a b : (a < b)%Z -> pow2 a < pow2 b.
Proof. intros H. apply Qpower_lt_compat_l; [exact H | reflexivity]. Qed.

Lemma pow2_lt_inv a b : pow2 a < pow2 b -> (a < b)%Z.
Proof. intros H. apply (Qpower_lt_compat_l_inv 2); [exact H | reflexivity]. Qed.

Lemma pow2_Z k : (0 <= k)%Z -> pow2 k == inject_Z (2 ^ k).
Proof. intros H. unfold pow2. now rewrite Zpower_Qpower. Qed.

Lemma pow2_opp k : pow2 (- k) == / pow2 k.
Proof. apply Qpower_opp. Qed.

Lemma injZ_le a b : (a <= b)%Z -> inject_Z a <= inject_Z b.
Proof. intros H. now rewrite <- Zle_Qle. Qed.

Lemma injZ_lt a b : (a < b)%Z -> inject_Z a < inject_Z b.
Proof. intros H. now rewrite <- Zlt_Qlt. Qed.

Lemma injZ_lt_inv a b : inject_Z a < inject_Z b -> (a < b)%Z.
Proof. intros H. now rewrite Zlt_Qlt. Qed.

Lemma injZ_le_inv a b : inject_Z a <= inject_Z b -> (a <= b)%Z.
Proof. intros H. now rewrite Zle_Qle. Qed.

(** [flog2 x] is the binary exponent of a positive [x]. *)
Lemma flog2_spec x : 0 < x -> pow2 (flog2 x) <= x /\ x < pow2 (flog2 x + 1).
Proof.
  intros Hx. unfold flog2. destruct (Qle_bool 1 x) eqn:E.
  - apply Qle_bool_iff in E.
    assert (Hf : (0 < Qfloor x)%Z).
    { apply Z.lt_le_trans with (Qfloor 1); [reflexivity | now apply Qfloor_resp_le]. }
    destruct (Z.log2_spec _ Hf) as [H1 H2].
    pose proof (Z.log2_nonneg (Qfloor x)) as Hn.
    split.
    + rewrite pow2_Z by exact Hn.
      apply Qle_trans with (inject_Z (Qfloor x)); [now apply injZ_le | apply Qfloor_le].
    + rewrite pow2_Z by lia.
      apply Qlt_le_trans with (inject_Z (Qfloor x + 1)); [apply Qlt_floor|].
      apply injZ_le. replace (Z.log2 (Qfloor x) + 1)%Z with (Z.succ (Z.log2 (Qfloor x))) by lia. lia.
  - assert (Hlt : x < 1).
    { apply Qnot_le_lt. intros H. apply Qle_bool_iff in H. congruence. }
    assert (Hi : 1 < / x).
    { assert (H1 : 0 < 1) by lra.
      exact (proj1 (Qinv_lt_contravar x 1 Hx H1) Hlt). }
    assert (Hc : (1 < Qceiling (/ x))%Z).
    { apply injZ_lt_inv. apply Qlt_le_trans with (/ x); [exact Hi | apply Qle_ceiling]. }
    destruct (Z.log2_up_spec _ Hc) as [H1 H2].
    assert (Hk : (0 < Z.log2_up (Qceiling (/ x)))%Z) by (apply Z.log2_up_pos; exact Hc).
    set (k := Z.log2_up (Qceiling (/ x))) in *.
    assert (Hix : 0 < / x) by now apply Qinv_lt_0_compat.
    split.
    + rewrite pow2_opp.
      assert (Hle : / x <= pow2 k).
      { rewrite pow2_Z by lia.
        apply Qle_trans with (inject_Z (Qceiling (/ x))); [apply Qle_ceiling | now apply injZ_le]. }
      destruct (Qlt_le_dec x (/ pow2 k)) as [Hc'|Hc']; [|exact Hc'].
      exfalso. apply (Qinv_lt_contravar x (/ pow2 k)) in Hc'.
      * rewrite Qinv_involutive in Hc'. exact (Qlt_not_le _ _ Hc' Hle).
      * exact Hx.
      * apply Qinv_lt_0_compat, pow2_pos.
    + replace (- k + 1)%Z with (- (k - 1))%Z by lia. rewrite pow2_opp.
      assert (Hlt' : pow2 (k - 1) < / x).
      { rewrite pow2_Z by lia.
        apply Qle_lt_trans with (inject_Z (Qceiling (/ x) - 1)); [|apply Qceiling_lt].
        apply injZ_le. replace (k - 1)%Z with (Z.pred k) by lia. lia. }
      apply (Qinv_lt_contravar (pow2 (k - 1)) (/ x)) in Hlt'.
      * rewrite Qinv_involutive in Hlt'. exact Hlt'.
      * apply pow2_pos.
      * exact Hix.
Qed.

Lemma flog2_ge x k : 0 < x -> pow2 k <= x -> (k <= flog2 x)%Z.
Proof.
  intros Hx Hk. destruct (flog2_spec x Hx) as [_ H].
  assert (pow2 k < pow2 (flog2 x + 1)) by lra.
  apply pow2_lt_inv in H0. lia.
Qed.

Lemma flog2_lt x k : 0 < x -> x < pow2 k -> (flog2 x < k)%Z.
Proof.
  intros Hx Hk. destruct (flog2_spec x Hx) as [H _].
  apply pow2_lt_inv. lra.
Qed.

Lemma flog2_mono x y : 0 < x -> x <= y -> (flog2 x <= flog2 y)%Z.
Proof.
  intros Hx Hxy. apply flog2_ge; [lra|].
  destruct (flog2_spec x Hx) as [H _]. lra.
Qed.

#[global] Instance flog2_comp : Proper (Qeq ==> eq) flog2.
Proof.
  intros x y E. unfold flog2.
  assert (Qle_bool 1 x = Qle_bool 1 y) as ->.
  { destruct (Qle_bool 1 y) eqn:Ey.
    - apply Qle_bool_iff. apply Qle_bool_iff in Ey. now rewrite E.
    - destruct (Qle_bool 1 x) eqn:Ex; [|reflexivity].
      apply Qle_bool_iff in Ex. rewrite E in Ex. apply Qle_bool_iff in Ex. congruence. }
  rewrite (Qfloor_comp x y E).
  assert (Qceiling (/ x) = Qceiling (/ y)) as ->; [|reflexivity].
  apply Qceiling_comp. now rewrite E.
Qed.

#[global] Instance cexp_comp : Proper (Qeq ==> eq) cexp.
Proof. intros x y E. unfold cexp. now rewrite (flog2_comp x y E). Qed.

#[global] Instance rne_comp : Proper (Qeq ==> eq) rne.
Proof.
  intros x y E. unfold rne. rewrite (Qfloor_comp x y E).
  assert (Qcompare (x - inject_Z (Qfloor y)) (1 # 2)
          = Qcompare (y - inject_Z (Qfloor y)) (1 # 2)) as ->; [|reflexivity].
  apply Qcompare_comp; [now rewrite E | reflexivity].
Qed.

Lemma rne_near x : x - (1 # 2) <= inject_Z (rne x) /\ inject_Z (rne x) <= x + (1 # 2).
Proof.
  unfold rne. pose proof (Qfloor_le x) as H1. pose proof (Qlt_floor x) as H2.
  rewrite inject_Z_plus in H2. change (inject_Z 1) with 1 in H2.
  destruct (Qcompare_spec (x - inject_Z (Qfloor x)) (1 # 2)) as [E|E|E].
  - destruct (Z.even (Qfloor x));
      [|rewrite inject_Z_plus; change (inject_Z 1) with 1]; split; lra.
  - split; lra.
  - rewrite inject_Z_plus. change (inject_Z 1) with 1. split; lra.
Qed.

Lemma rne_Z z : rne (inject_Z z) = z.
Proof.
  unfold rne. rewrite Qfloor_Z.
  destruct (Qcompare_spec (inject_Z z - inject_Z z) (1 # 2)) as [E|E|E]; try lra.
  reflexivity.
Qed.

Lemma rne_mono x y : x <= y -> (rne x <= rne y)%Z.
Proof.
  intros Hxy. destruct (Z_le_gt_dec (rne x) (rne y)) as [H|H]; [exact H|].
  exfalso.
  destruct (rne_near x) as [_ Hx]. destruct (rne_near y) as [Hy _].
  assert (Hz : inject_Z (rne y) + 1 <= inject_Z (rne x)).
  { change 1 with (inject_Z 1). rewrite <- inject_Z_plus.
    apply injZ_le. lia. }
  assert (E : x == y) by lra.
  rewrite E in H. lia.
Qed.

Lemma scaled_cexp x e : e = cexp x -> 0 < x ->
  x / pow2 e < pow2 53 /\ ((-1074 < e)%Z -> pow2 52 <= x / pow2 e).
Proof.
  intros -> Hx. pose proof (pow2_pos (cexp x)) as Hp.
  destruct (flog2_spec x Hx) as [H1 H2]. split.
  - apply Qlt_shift_div_r; [exact Hp|]. rewrite <- pow2_plus.
    apply Qlt_le_trans with (1 := H2). apply pow2_le. unfold cexp. lia.
  - intros He. apply Qle_shift_div_l; [exact Hp|]. rewrite <- pow2_plus.
    apply Qle_trans with (2 := H1). apply pow2_le. unfold cexp in *. lia.
Qed.

Lemma rne_cexp x : 0 < x ->
  (0 <= rne (x / pow2 (cexp x)) <= 2 ^ 53)%Z /\
  ((-1074 < cexp x)%Z -> (2 ^ 52 <= rne (x / pow2 (cexp x)))%Z).
Proof.
  intros Hx. destruct (scaled_cexp x _ eq_refl Hx) as [H1 H2]. split; [split|].
  - rewrite <- (rne_Z 0). apply rne_mono. apply Qle_shift_div_l; [apply pow2_pos|].
    change (inject_Z 0) with 0. lra.
  - rewrite <- (rne_Z (2 ^ 53)). apply rne_mono.
    rewrite <- pow2_Z by lia. lra.
  - intros He. rewrite <- (rne_Z (2 ^ 52)). apply rne_mono.
    rewrite <- pow2_Z by lia. auto.
Qed.

#[global] Instance roundp_comp : Proper (Qeq ==> Qeq) roundp.
Proof.
  intros x y E. unfold roundp. rewrite (cexp_comp x y E).
  rewrite (rne_comp (x / pow2 (cexp y)) (y / pow2 (cexp y))); [reflexivity|].
  unfold Qdiv. apply Qmult_comp; [exact E | reflexivity].
Qed.

Lemma roundp_nonneg x : 0 < x -> 0 <= roundp x.
Proof.
  intros Hx. unfold roundp. destruct (rne_cexp x Hx) as [[H _] _].
  apply Qmult_le_0_compat; [now apply (injZ_le 0) | apply Qlt_le_weak, pow2_pos].
Qed.

Lemma roundp_mono x y : 0 < x -> x <= y -> roundp x <= roundp y.
Proof.
  intros Hx Hxy. assert (Hy : 0 < y) by lra.
  assert (He : (cexp x <= cexp y)%Z).
  { unfold cexp. pose proof (flog2_mono x y Hx Hxy). lia. }
  unfold roundp.
  destruct (Z.eq_dec (cexp x) (cexp y)) as [E|E].
  - rewrite E. apply Qmult_le_compat_r; [|apply Qlt_le_weak, pow2_pos].
    apply injZ_le, rne_mono.
    apply Qmult_le_compat_r; [exact Hxy|].
    apply Qlt_le_weak, Qinv_lt_0_compat, pow2_pos.
  - destruct (rne_cexp x Hx) as [[_ Hu] _].
    destruct (rne_cexp y Hy) as [_ Hl].
    assert (Hn : (-1074 < cexp y)%Z) by (unfold cexp in *; lia).
    specialize (Hl Hn).
    apply Qle_trans with (pow2 53 * pow2 (cexp x)).
    + apply Qmult_le_compat_r; [|apply Qlt_le_weak, pow2_pos].
      rewrite (pow2_Z 53) by lia. now apply injZ_le.
    + apply Qle_trans with (pow2 52 * pow2 (cexp y)).
      * rewrite <- !pow2_plus. apply pow2_le. lia.
      * apply Qmult_le_compat_r; [|apply Qlt_le_weak, pow2_pos].
        rewrite (pow2_Z 52) by lia. now apply injZ_le.
Qed.

Lemma roundp_idem x : 0 < x -> 0 < roundp x -> roundp (roundp x) == roundp x.
Proof.
  intros Hx Hr. destruct (rne_cexp x Hx) as [[Hm0 Hm1] Hm2].
  set (e := cexp x) in *. set (m := rne (x / pow2 e)) in *.
  assert (Er : roundp x == inject_Z m * pow2 e) by reflexivity.
  pose proof (pow2_pos e) as Hp.
  assert (He : (-1074 <= e)%Z) by (unfold e, cexp; lia).
  destruct (Z.eq_dec m (2 ^ 53)) as [E|E].
  - assert (Er' : roundp x == pow2 (e + 53)).
    { rewrite Er, E, <- pow2_Z by lia. rewrite pow2_plus. ring. }
    rewrite Er'.
    assert (El : flog2 (pow2 (e + 53)) = (e + 53)%Z).
    { pose proof (pow2_pos (e + 53)).
      apply Z.le_antisymm.
      - apply Z.lt_succ_r. apply flog2_lt; [assumption|]. apply pow2_lt. lia.
      - apply flog2_ge; [assumption | lra]. }
    unfold roundp at 1. unfold cexp. rewrite El.
    replace (Z.max (e + 53 - 52) (-1074)) with (e + 1)%Z by lia.
    setoid_replace (pow2 (e + 53) / pow2 (e + 1)) with (inject_Z (2 ^ 52))
      using relation Qeq.
    + rewrite rne_Z. rewrite <- pow2_Z by lia. rewrite <- pow2_plus.
      replace (52 + (e + 1))%Z with (e + 53)%Z by lia. reflexivity.
    + rewrite <- pow2_Z by lia.
      replace (e + 53)%Z with (52 + (e + 1))%Z by lia.
      rewrite pow2_plus. field. pose proof (pow2_pos (e + 1)). lra.
  - assert (Hlt : (m < 2 ^ 53)%Z) by lia.
    assert (Hc : cexp (roundp x) = e).
    { unfold cexp.
      assert (H1 : (flog2 (roundp x) < e + 53)%Z).
      { apply flog2_lt; [exact Hr|]. rewrite Er.
        rewrite (Z.add_comm e 53), pow2_plus.
        apply Qmult_lt_compat_r; [exact Hp|].
        rewrite pow2_Z by lia. now apply injZ_lt. }
      destruct (Z.eq_dec e (-1074)) as [E1|E1]; [lia|].
      assert (H2 : (e + 52 <= flog2 (roundp x))%Z).
      { apply flog2_ge; [exact Hr|]. rewrite Er.
        rewrite (Z.add_comm e 52), pow2_plus.
        apply Qmult_le_compat_r; [|lra].
        rewrite pow2_Z by lia. apply injZ_le. apply Hm2. lia. }
      lia. }
    unfold roundp at 1. rewrite Hc.
    setoid_replace (roundp x / pow2 e) with (inject_Z m) using relation Qeq.
    + rewrite rne_Z. symmetry. exact Er.
    + rewrite Er. field. lra.
Qed.

(** Every rounded value is a whole multiple of the least subnormal. *)
Lemma roundp_grid x : exists k : Z, roundp x == inject_Z k * pow2 (-1074).
Proof.
  unfold roundp. set (e := cexp x). set (m := rne _).
  assert (He : (-1074 <= e)%Z) by (unfold e, cexp; lia).
  exists (m * 2 ^ (e + 1074))%Z.
  rewrite inject_Z_mult, <- pow2_Z by lia.
  replace e with ((e + 1074) + (-1074))%Z at 1 by lia.
  rewrite pow2_plus. ring.
Qed.

#[global] Instance round64_comp : Proper (Qeq ==> eq) round64.
Proof.
  intros x y E. unfold round64.
  rewrite (Qcompare_comp x y E 0 0 (Qeq_refl 0)).
  destruct (Qcompare y 0); [reflexivity| |]; apply Qred_complete; now rewrite E.
Qed.

#[global] Instance round64_compQ : Proper (Qeq ==> Qeq) round64.
Proof. intros x y E. now rewrite (round64_comp x y E). Qed.

Lemma round64_red x : Qred (round64 x) = round64 x.
Proof.
  unfold round64.
  destruct (Qcompare x 0); [reflexivity| |]; apply Qred_complete, Qred_correct.
Qed.

Lemma round64_0 : round64 0 = 0.
Proof. reflexivity. Qed.

Lemma round64_opp x : round64 (- x) == - round64 x.
Proof.
  unfold round64.
  destruct (Qcompare_spec x 0) as [E|E|E];
  destruct (Qcompare_spec (- x) 0) as [E'|E'|E']; try lra.
  - rewrite !Qred_correct. ring.
  - rewrite !Qred_correct. rewrite (roundp_comp (- - x) x) by ring. reflexivity.
Qed.

Lemma round64_pos x : 0 < x -> round64 x == roundp x.
Proof.
  intros H. unfold round64. destruct (Qcompare_spec x 0) as [E|E|E]; try lra.
  apply Qred_correct.
Qed.

Lemma round64_nonneg x : 0 <= x -> 0 <= round64 x.
Proof.
  intros H. destruct (Qlt_le_dec 0 x) as [H'|H'].
  - rewrite round64_pos by exact H'. now apply roundp_nonneg.
  - assert (E : x == 0) by lra. rewrite E. apply Qle_refl.
Qed.

Lemma round64_nonpos x : x <= 0 -> round64 x <= 0.
Proof.
  intros H. assert (H' : 0 <= - x) by lra. apply round64_nonneg in H'.
  rewrite round64_opp in H'. lra.
Qed.

Lemma round64_mono x y : x <= y -> round64 x <= round64 y.
Proof.
  intros H. destruct (Qlt_le_dec 0 x) as [Hx|Hx].
  - rewrite !round64_pos by lra. now apply roundp_mono.
  - destruct (Qlt_le_dec y 0) as [Hy|Hy].
    + assert (H' : round64 (- y) <= round64 (- x)).
      { rewrite !round64_pos by lra. apply roundp_mono; lra. }
      rewrite !round64_opp in H'. lra.
    + apply Qle_trans with 0; [now apply round64_nonpos | now apply round64_nonneg].
Qed.

Lemma round64_idem x : round64 (round64 x) = round64 x.
Proof.
  assert (P : forall x, 0 < x -> round64 (round64 x) == round64 x).
  { intros y Hy. rewrite (round64_pos y Hy).
    pose proof (roundp_nonneg y Hy) as H0.
    destruct (Qlt_le_dec 0 (roundp y)) as [H|H].
    - rewrite round64_pos by exact H. now apply roundp_idem.
    - assert (E : roundp y == 0) by lra. rewrite E. reflexivity. }
  assert (Q : round64 (round64 x) == round64 x).
  { destruct (Qlt_le_dec 0 x) as [Hx|Hx]; [now apply P|].
    destruct (Qlt_le_dec x 0) as [Hx'|Hx'].
    - assert (H : round64 (round64 (- x)) == round64 (- x)) by (apply P; lra).
      rewrite !round64_opp in H. lra.
    - assert (E : x == 0) by lra. rewrite E. reflexivity. }
  rewrite <- (round64_red (round64 x)), <- (round64_red x).
  apply Qred_complete. rewrite (round64_red x). exact Q.
Qed.

(** Rounded values lie on the grid of the least subnormal, so two of them
    that differ are at least one subnormal apart and the rounded
    difference keeps its sign. *)
Lemma round64_grid x : exists k : Z, round64 x == inject_Z k * pow2 (-1074).
Proof.
  unfold round64. destruct (Qcompare x 0).
  - exists 0%Z. ring.
  - destruct (roundp_grid (- x)) as [k Hk]. exists (- k)%Z.
    rewrite (Qred_correct (- roundp (- x))), Hk, inject_Z_opp. ring.
  - destruct (roundp_grid x) as [k Hk]. exists k.
    rewrite (Qred_correct (roundp x)). exact Hk.
Qed.

Lemma round64_tiny : round64 (pow2 (-1074)) == pow2 (-1074).
Proof. vm_compute. reflexivity. Qed.

Lemma round64_sub_pos a b :
  a < b -> 0 < round64 (round64 b - round64 a) \/ round64 a == round64 b.
Proof.
  intros Hab. pose proof (round64_mono a b (Qlt_le_weak _ _ Hab)) as Hm.
  destruct (round64_grid a) as [ka Ha]. destruct (round64_grid b) as [kb Hb].
  pose proof (pow2_pos (-1074)) as Hp.
  destruct (Z.eq_dec ka kb) as [E|E].
  - right. rewrite Ha, Hb, E. reflexivity.
  - left. assert (Hk : (ka + 1 <= kb)%Z).
    { assert (H : (ka <= kb)%Z); [|lia].
      apply injZ_le_inv. rewrite Ha, Hb in Hm.
      apply Qmult_le_r in Hm; assumption. }
    apply Qlt_le_trans with (round64 (pow2 (-1074))).
    + rewrite round64_tiny. exact Hp.
    + apply round64_mono. rewrite Ha, Hb.
      apply injZ_le in Hk. rewrite inject_Z_plus in Hk.
      change (inject_Z 1) with 1 in Hk.
      setoid_replace (inject_Z kb * pow2 (-1074) - inject_Z ka * pow2 (-1074))
        with ((inject_Z kb - inject_Z ka) * pow2 (-1074))
        using relation Qeq by ring.
      rewrite <- (Qmult_1_l (pow2 (-1074))) at 1.
      apply Qmult_le_compat_r; lra.
Qed.

Lemma round64_one : round64 1 == 1.
Proof. vm_compute. reflexivity. Qed.

(** No int but 0 converts to the float 0. *)
Lemma round64_Z_pos z : (0 < z)%Z -> 0 < round64 (inject_Z z).
Proof.
  intros Hz. apply Qlt_le_trans with (round64 1).
  - rewrite round64_one. reflexivity.
  - apply round64_mono. apply (injZ_le 1). lia.
Qed.

(** The sign of a rounded difference of two binary64 numbers is the
    sign of the difference. *)
Lemma round64_sub_nonneg a b :
  0 <= round64 (round64 a - round64 b) <-> round64 b <= round64 a.
Proof.
  split.
  - intros H. destruct (Qlt_le_dec (round64 a) (round64 b)) as [Hlt|Hle]; [|exact Hle].
    exfalso. destruct (round64_sub_pos _ _ Hlt) as [Hpos|E].
    + rewrite !round64_idem in Hpos.
      assert (H' : round64 (- (round64 b - round64 a)) == - round64 (round64 b - round64 a))
        by apply round64_opp.
      rewrite (round64_comp (- (round64 b - round64 a)) (round64 a - round64 b)) in H'
        by ring.
      lra.
    + rewrite !round64_idem in E. lra.
  - intros H. apply round64_nonneg. lra.
Qed.

Lemma round64_sub_zero a b :
  round64 (round64 a - round64 b) == 0 <-> round64 a == round64 b.
Proof.
  split.
  - intros E. apply Qle_antisym; apply round64_sub_nonneg.
    + assert (H' : round64 (- (round64 a - round64 b)) == - round64 (round64 a - round64 b))
        by apply round64_opp.
      rewrite (round64_comp (- (round64 a - round64 b)) (round64 b - round64 a)) in H'
        by ring.
      lra.
    + lra.
  - intros E. rewrite (round64_comp (round64 a - round64 b) 0) by lra. reflexivity.
Qed.

(** An int of at most 53 bits is a binary64 number. *)
Lemma round64_small_Z z : (Z.abs z <= 2 ^ 53)%Z -> round64 (inject_Z z) == inject_Z z.
Proof.
  assert (P : forall z, (0 < z <= 2 ^ 53)%Z -> round64 (inject_Z z) == inject_Z z).
  { clear z. intros z [Hz Hle].
    destruct (Z.eq_dec z (2 ^ 53)) as [->|Hne]; [vm_compute; reflexivity|].
    assert (Hq : 0 < inject_Z z) by (apply (injZ_lt 0); exact Hz).
    rewrite (round64_pos _ Hq). unfold roundp.
    assert (He : (-1074 <= cexp (inject_Z z) <= 0)%Z).
    { unfold cexp. assert (flog2 (inject_Z z) < 53)%Z; [|lia].
      apply flog2_lt; [exact Hq|]. rewrite (pow2_Z 53) by lia.
      apply injZ_lt. lia. }
    set (e := cexp (inject_Z z)) in *.
    assert (Hs : inject_Z z / pow2 e == inject_Z (z * 2 ^ (- e))).
    { rewrite inject_Z_mult, <- pow2_Z by lia. rewrite pow2_opp.
      unfold Qdiv. reflexivity. }
    rewrite (rne_comp _ _ Hs), rne_Z, inject_Z_mult, <- pow2_Z by lia.
    rewrite <- Qmult_assoc, <- pow2_plus.
    replace (- e + e)%Z with 0%Z by lia. change (pow2 0) with 1. ring. }
  intros Hz. destruct (Z.lt_trichotomy z 0) as [Hn|[->|Hp]].
  - assert (H : round64 (inject_Z (- z)) == inject_Z (- z)) by (apply P; lia).
    rewrite inject_Z_opp, round64_opp in H. lra.
  - reflexivity.
  - apply P. lia.
Qed.

(** ** Numbers: basic facts *)

Lemma toQ_zero : toQ zero == 0.
Proof. reflexivity. Qed.

Lemma fval_toQ x : fval x = round64 (toQ x).
Proof. destruct x; cbn [fval toQ]; [reflexivity | symmetry; apply round64_idem]. Qed.

Lemma fval_idem x : round64 (fval x) = fval x.
Proof. destruct x; apply round64_idem. Qed.

Lemma fval_mono x y : toQ x <= toQ y -> fval x <= fval y.
Proof. rewrite !fval_toQ. apply round64_mono. Qed.

Lemma fval_lt x y : fval x < fval y -> toQ x < toQ y.
Proof.
  intros H. destruct (Qlt_le_dec (toQ x) (toQ y)) as [Hlt|Hle]; [exact Hlt|].
  apply fval_mono in Hle. lra.
Qed.

Lemma fval_pos x : 0 < toQ x -> 0 < fval x.
Proof.
  destruct x as [z|q]; cbn [fval toQ]; [|done].
  intros H. apply round64_Z_pos. by apply (injZ_lt_inv 0).
Qed.

Lemma fval_neg x : toQ x < 0 -> fval x < 0.
Proof.
  destruct x as [z|q]; cbn [fval toQ]; [|done].
  intros H. assert (Hz : (0 < - z)%Z).
  { apply (injZ_lt_inv 0). rewrite inject_Z_opp. change (inject_Z 0) with 0. lra. }
  apply round64_Z_pos in Hz. rewrite inject_Z_opp, round64_opp in Hz. lra.
Qed.

Lemma fval_nonneg x : 0 <= toQ x -> 0 <= fval x.
Proof. rewrite fval_toQ. apply round64_nonneg. Qed.

(** Converting to a float keeps a number apart from 0. *)
Lemma fval_zero x : fval x == 0 <-> toQ x == 0.
Proof.
  split.
  - intros E. destruct (Qlt_le_dec 0 (toQ x)) as [Hp|Hp].
    + apply fval_pos in Hp. lra.
    + destruct (Qlt_le_dec (toQ x) 0) as [Hn|Hn]; [|lra].
      apply fval_neg in Hn. lra.
  - intros E. rewrite fval_toQ, (round64_comp _ _ E). reflexivity.
Qed.

Lemma exact_flt q : exact (Flt q).
Proof. unfold exact. reflexivity. Qed.

Lemma exact_small z : (Z.abs z <= 2 ^ 53)%Z -> exact (Int z).
Proof. apply round64_small_Z. Qed.

(** Arithmetic on ints is exact. *)
Lemma whole_add x y : whole x -> whole y -> whole (x + y)%num.
Proof. by destruct x, y. Qed.

Lemma whole_sub x y : whole x -> whole y -> whole (x - y)%num.
Proof. by destruct x, y. Qed.

Lemma whole_mul x y : whole x -> whole y -> whole (x * y)%num.
Proof. by destruct x, y. Qed.

Lemma toQ_add x y : whole x -> whole y -> toQ (x + y)%num == toQ x + toQ y.
Proof.
  destruct x as [a|a], y as [b|b]; cbn [whole]; try tauto.
  intros _ _. cbn [add toQ]. rewrite inject_Z_plus. reflexivity.
Qed.

Lemma toQ_sub x y : whole x -> whole y -> toQ (x - y)%num == toQ x - toQ y.
Proof.
  destruct x as [a|a], y as [b|b]; cbn [whole]; try tauto.
  intros _ _. cbn [sub toQ]. unfold Z.sub.
  rewrite inject_Z_plus, inject_Z_opp. reflexivity.
Qed.

Lemma toQ_mul x y : whole x -> whole y -> toQ (x * y)%num == toQ x * toQ y.
Proof.
  destruct x as [a|a], y as [b|b]; cbn [whole]; try tauto.
  intros _ _. cbn [mul toQ]. rewrite inject_Z_mult. reflexivity.
Qed.

(** With a float operand the result is the float nearest to the exact
    result on the operands converted to floats. *)
Lemma toQ_add_flt x y :
  ~ (whole x /\ whole y) -> toQ (x + y)%num = round64 (fval x + fval y).
Proof. destruct x, y; cbn [add toQ whole]; try tauto; intros _; apply round64_idem. Qed.

Lemma toQ_sub_flt x y :
  ~ (whole x /\ whole y) -> toQ (x - y)%num = round64 (fval x - fval y).
Proof. destruct x, y; cbn [sub toQ whole]; try tauto; intros _; apply round64_idem. Qed.

Lemma toQ_mul_flt x y :
  ~ (whole x /\ whole y) -> toQ (x * y)%num = round64 (fval x * fval y).
Proof. destruct x, y; cbn [mul toQ whole]; try tauto; intros _; apply round64_idem. Qed.

Lemma leb_le x y : (x <=? y)%num = true <-> toQ x <= toQ y.
Proof. apply Qle_bool_iff. Qed.

Lemma leb_gt x y : (x <=? y)%num = false <-> toQ y < toQ x.
Proof.
  unfold leb. split; intros H.
  - apply Qnot_le_lt. intros Hle. apply Qle_bool_iff in Hle. congruence.
  - destruct (Qle_bool (toQ x) (toQ y)) eqn:E; [|done].
    apply Qle_bool_iff in E. lra.
Qed.

Lemma ltb_lt x y : (x <? y)%num = true <-> toQ x < toQ y.
Proof. unfold ltb. rewrite negb_true_iff. apply leb_gt. Qed.

Lemma ltb_ge x y : (x <? y)%num = false <-> toQ y <= toQ x.
Proof. unfold ltb. rewrite negb_false_iff. apply leb_le. Qed.

Lemma geb_ge x y : (x >=? y)%num = true <-> toQ y <= toQ x.
Proof. apply leb_le. Qed.

Lemma geb_lt x y : (x >=? y)%num = false <-> toQ x < toQ y.
Proof. apply leb_gt. Qed.

Lemma gtb_gt x y : (x >? y)%num = true <-> toQ y < toQ x.
Proof. apply ltb_lt. Qed.

Lemma gtb_le x y : (x >? y)%num = false <-> toQ x <= toQ y.
Proof. apply ltb_ge. Qed.

Lemma eqb_eq x y : (x =? y)%num = true <-> toQ x == toQ y.
Proof. apply Qeq_bool_iff. Qed.

Lemma eqb_neq x y : (x =? y)%num = false <-> ~ toQ x == toQ y.
Proof.
  unfold eqb. split; intros H.
  - intros E. apply Qeq_bool_iff in E. congruence.
  - destruct (Qeq_bool (toQ x) (toQ y)) eqn:E; [|done].
    apply Qeq_bool_iff in E. contradiction.
Qed.

(** The test [x - y >= 0] of the code fails exactly when [x] is below
    [y]. *)
Lemma sub_neg x y : (x - y >=? zero)%num = false <-> below x y.
Proof.
  rewrite geb_lt, toQ_zero.
  destruct x as [a|a], y as [b|b]; cbn [sub toQ below fval];
    try (rewrite round64_idem;
         split; intros H;
         [ apply Qnot_le_lt; intros Hle; apply round64_sub_nonneg in Hle; lra
         | apply Qnot_le_lt; intros Hle; apply round64_sub_nonneg in Hle; lra ]).
  change (inject_Z (a - b) < inject_Z 0 <-> (a < b)%Z).
  rewrite <- Zlt_Qlt. lia.
Qed.

Lemma sub_covers x y : (x - y >=? zero)%num = true <-> ~ below x y.
Proof.
  rewrite <- sub_neg. destruct (x - y >=? zero)%num; split; done.
Qed.

Lemma below_lt x y : below x y -> toQ x < toQ y.
Proof.
  destruct x as [a|a], y as [b|b]; cbn [below];
    try (intros H; apply fval_lt; exact H).
  intros H. cbn. by apply injZ_lt.
Qed.

Lemma lt_below x y : exact x -> exact y -> toQ x < toQ y -> below x y.
Proof.
  unfold exact. intros Hx Hy Hlt.
  destruct x as [a|a], y as [b|b]; cbn [below]; try lra.
  cbn in Hlt. by apply injZ_lt_inv.
Qed.

(** A quantity that is at most another passes the test. *)
Lemma sub_nonneg x y : toQ y <= toQ x -> (x - y >=? zero)%num = true.
Proof. intros Hle. apply sub_covers. intros H%below_lt. lra. Qed.

(** The test [x - y == 0] on two numbers of the same value. *)
Lemma sub_eq_zero x y : toQ x == toQ y -> (x - y =? zero)%num = true.
Proof.
  intros E. apply eqb_eq. rewrite toQ_zero.
  assert (F : fval x == fval y).
  { rewrite !fval_toQ, (round64_comp _ _ E). reflexivity. }
  destruct x as [a|a], y as [b|b].
  1:{ cbn [sub toQ] in *. unfold Z.sub. rewrite inject_Z_plus, inject_Z_opp, E. ring. }
  all: rewrite toQ_sub_flt by (cbn [whole]; tauto).
  all: rewrite (round64_comp _ 0) by lra; reflexivity.
Qed.

(** Division fails exactly on a divisor equal to zero. *)
Lemma div_None x y : div x y = None <-> toQ y == 0.
Proof.
  unfold div.
  destruct x as [a|a], y as [b|b];
    try (rewrite <- fval_zero;
         destruct (Qeq_bool _ 0) eqn:E;
         [ apply Qeq_bool_iff in E; by split
         | split; [done|]; intros H; apply Qeq_bool_iff in H; congruence ]).
  cbn [toQ]. destruct (Z.eqb_spec b 0) as [->|Hne]; split; try done.
  intros H. exfalso. apply Hne.
  unfold Qeq in H. simpl in H. lia.
Qed.

Lemma div_is_Some x y : ~ toQ y == 0 -> exists z, div x y = Some z.
Proof.
  intros Hnz. destruct (div x y) as [z|] eqn:E; [by exists z|].
  apply div_None in E. contradiction.
Qed.

(** With a float operand the quotient is the float nearest to the
    quotient of the operands converted to floats. *)
Lemma div_flt x y z :
  ~ (whole x /\ whole y) ->
  div x y = Some z -> z = Flt (round64 (fval x / fval y)).
Proof.
  intros Hf. unfold div.
  destruct x as [a|a], y as [b|b]; cbn [whole] in Hf; try tauto;
    (destruct (Qeq_bool _ 0); [done|]; by intros [= <-]).
Qed.

(** [points / 100.0] never fails. *)
Lemma div_hundred pts : div pts hundred = Some (percent pts).
Proof.
  unfold div, hundred, percent.
  assert (E : Qeq_bool (fval (Flt 100)) 0 = false) by (vm_compute; reflexivity).
  destruct pts; by rewrite E.
Qed.

(** [float()] keeps the value of a float and of an exact int. *)
Lemma toQ_float x : toQ (float x) = fval x.
Proof. destruct x; cbn [float toQ fval]; [apply round64_idem | reflexivity]. Qed.

(** Adding a positive number to a non-negative one gives a positive
    number, from which the number added can be subtracted again. *)
Lemma add_pos x y : 0 <= toQ x -> 0 < toQ y -> 0 < toQ (x + y)%num.
Proof.
  intros Hx Hy. pose proof (fval_nonneg x Hx) as Hfx.
  pose proof (fval_pos y Hy) as Hfy.
  destruct x as [a|a], y as [b|b]; cbn [add toQ] in *;
    try (rewrite round64_idem;
         eapply Qlt_le_trans; [exact Hfy|];
         rewrite <- (fval_idem (_ b)) at 1; apply round64_mono; lra).
  rewrite inject_Z_plus. lra.
Qed.

Lemma add_sub_covers x y : 0 <= toQ x -> ((x + y) - y >=? zero)%num = true.
Proof.
  intros Hx. pose proof (fval_nonneg x Hx) as Hfx.
  destruct x as [a|a], y as [b|b].
  1:{ apply sub_nonneg. cbn [add toQ] in *. rewrite inject_Z_plus. lra. }
  all: apply sub_covers; cbn [add below]; intros H.
  all: rewrite (fval_toQ (Flt _)) in H; cbn [toQ] in H; rewrite !round64_idem in H.
  all: match type of H with
       | round64 (?u + ?v) < _ =>
           assert (Hm : round64 v <= round64 (u + v)) by (apply round64_mono; lra)
       end.
  all: rewrite fval_idem in Hm; lra.
Qed.

(** ** Liquidation *)

Lemma sell_all_loop (l : list (string * holding)) (a : account) :
  NoDup l.*1 ->
  (forall k h, (k, h) ∈ l -> stocks_owned a !! k = Some h) ->
  exists a',
    for_each (fun kv => sell_all_one kv.1) l a = Ok a'
    /\ (forall k, stocks_owned a' !! k =
                  if decide (k ∈ l.*1) then None else stocks_owned a !! k)
    /\ transactions a' = (transactions a + Z.of_nat (length l))%Z
    /\ funds a' = credited (TRANSACTION_FEE a) (funds a) l
    /\ TRANSACTION_FEE a' = TRANSACTION_FEE a
    /\ initial_funds a' = initial_funds a
    /\ latest_prices a' = latest_prices a
    /\ original_prices a' = original_prices a.
Proof.
  revert a. induction l as [|[k h] l IH]; intros a Hnd Hin.
  - exists a. simpl. repeat split; try done. lia.
  - rewrite fmap_cons in Hnd. apply NoDup_cons in Hnd as [Hk Hnd].
    assert (Hh : stocks_owned a !! k = Some h) by (apply Hin; left).
    set (a1 := set_stocks (delete k (stocks_owned a))
                 (set_transactions (transactions a + 1)
                    (set_funds (funds a + (quantity h * current_p h
                                           - TRANSACTION_FEE a))%num a))).
    assert (Hone : sell_all_one k a = Ok a1).
    { unfold sell_all_one. by rewrite Hh. }
    destruct (IH a1 Hnd) as (a' & Hrun & Hst & Htr & Hf & Hfee & Hi & Hl & Ho).
    { intros k' h' Hin'. subst a1. cbn [stocks_owned set_stocks].
      rewrite lookup_delete_ne.
      - apply Hin. by right.
      - intros ->. apply Hk. apply list_elem_of_fmap. by exists (k', h'). }
    exists a'. split.
    { cbn [for_each]. change ((k, h).1) with k. rewrite Hone. exact Hrun. }
    rewrite fmap_cons. repeat split.
    + intros k'. rewrite Hst. subst a1. cbn [stocks_owned set_stocks fst].
      destruct (decide (k' = k)) as [->|Hne].
      * rewrite lookup_delete_eq. repeat case_decide; set_solver.
      * rewrite lookup_delete_ne by done. repeat case_decide; set_solver.
    + rewrite Htr. subst a1. cbn. lia.
    + rewrite Hf. by subst a1.
    + by rewrite Hfee.
    + by rewrite Hi.
    + by rewrite Hl.
    + by rewrite Ho.
Qed.

(** On ints the credits add up to their sum. *)
Lemma credited_whole (fee f : num) (l : list (string * holding)) :
  whole fee -> whole f ->
  (forall k h, (k, h) ∈ l -> whole (quantity h) /\ whole (current_p h)) ->
  whole (credited fee f l)
  /\ toQ (credited fee f l) == toQ f + proceeds fee l.
Proof.
  intros Hfee. revert f. induction l as [|[k h] l IH]; intros f Hf Hl.
  - split; [done|]. cbn. ring.
  - destruct (Hl k h) as [Hq Hc]; [left|].
    assert (Hm : whole (quantity h * current_p h - fee)%num).
    { apply whole_sub; [by apply whole_mul | done]. }
    destruct (IH (f + (quantity h * current_p h - fee))%num) as [Hw He].
    + by apply whole_add.
    + intros k' h' Hin. apply (Hl k'). by right.
    + split; [exact Hw|].
      change (credited fee f ((k, h) :: l))
        with (credited fee (f + (quantity h * current_p h - fee))%num l).
      rewrite He. cbn [proceeds].
      rewrite toQ_add, toQ_sub, toQ_mul by (try done; by apply whole_mul).
      ring.
Qed.


(** The example of the specification: holding 5 AAPL at 150 with the
    fee 6.99, [sell_all] raises the default funds to
    [100000 + (5 * 150 - 6.99)] as Python computes it, which is the
    float nearest to 100743.01 and not that number itself. *)
Example sell_all_aapl :
  let a := set_stocks {[ "AAPL"%string :=
                           {| quantity := Int 5; bought_p := Int 140;
                              current_p := Int 150; options := None |} ]}
             init_default in
  match sell_all a with
  | Ok a' => stocks_owned a' = ∅
             /\ funds a' = (Int 100000 + (Int 5 * Int 150 - Flt (699 # 100)))%num
             /\ toQ (funds a') == round64 (10074301 # 100)
             /\ ~ toQ (funds a') == 10074301 # 100
  | _ => False
  end.
Proof. vm_compute. split; [reflexivity|]. split; [reflexivity|]. split; discriminate || reflexivity. Qed.

(** ** Placing a trailing stop on a ticker that is not held *)

(** C10. With funds covering the fee, [trailing_stop] on a ticker that is
    not held lets the [KeyError] of [self.stocks_owned[ticker]] escape
    (none of the diagnostics that end in [quit()]), and the account is
    unchanged. *)
Theorem trailing_stop_not_held (a : account) (ticker : string)
    (q pts : num) (pct : bool) :
  toQ (TRANSACTION_FEE a) <= toQ (funds a) ->
  stocks_owned a !! ticker = None ->
  trailing_stop a ticker q pts pct = Raise KeyError a.
Proof.
  intros Hfee Hnone. unfold trailing_stop.
  by rewrite (sub_nonneg _ _ Hfee), Hnone.
Qed.

Lemma trailing_stop_not_held_witness :
  trailing_stop init_default "AAPL" (Int 10) (Int 2) false
  = Raise KeyError init_default.
Proof.
  apply trailing_stop_not_held.
  - vm_compute. discriminate.
  - reflexivity.
Defined.

(** ** Selling *)

Lemma le_not_below x y : toQ y <= toQ x -> ~ below x y.
Proof. intros Hle H%below_lt. lra. Qed.

Lemma sell_stock_ok (a : account) (ticker : string) (h : holding) (n : num) :
  stocks_owned a !! ticker = Some h ->
  ~ below (quantity h) n ->
  sell_stock a ticker (Qty n) = Ok (sold a ticker h n).
Proof.
  intros Hh Hle. unfold sell_stock. rewrite Hh.
  apply sub_covers in Hle. rewrite Hle. unfold sold. cbn.
  by destruct (quantity h - n =? zero)%num.
Qed.

Lemma sell_stock_oversell (a : account) (ticker : string) (h : holding) (n : num) :
  stocks_owned a !! ticker = Some h ->
  below (quantity h) n ->
  sell_stock a ticker (Qty n) = Quit OversellAttempt a.
Proof.
  intros Hh Hlt. unfold sell_stock. rewrite Hh.
  apply sub_neg in Hlt. by rewrite Hlt.
Qed.

(** ** Evaluating a trailing stop *)

Section Evaluation.

Variables (a : account) (ticker : string) (h : holding) (o : order).
Hypothesis Hheld : stocks_owned a !! ticker = Some h.
Hypothesis Horder : options h = Some o.

Lemma evaluation_triggers :
  toQ (current_p h) < toQ (highest o) ->
  toQ (current_p h) <= toQ (threshold o) ->
  update_trailing_stop a ticker =
    sell_stock a ticker (Qty (oquantity o)) >>= fun a1 =>
    Ok (drop_trailing_stop ticker a1).
Proof.
  intros Hlt Hthr. unfold update_trailing_stop. rewrite Hheld, Horder.
  apply gtb_gt in Hlt. rewrite Hlt.
  apply leb_le in Hthr. unfold threshold in Hthr.
  destruct (percentage o); by rewrite Hthr.
Qed.

Lemma evaluation_holds :
  toQ (current_p h) < toQ (highest o) ->
  toQ (threshold o) < toQ (current_p h) ->
  update_trailing_stop a ticker = Ok a.
Proof.
  intros Hlt Hthr. unfold update_trailing_stop. rewrite Hheld, Horder.
  apply gtb_gt in Hlt. rewrite Hlt.
  apply leb_gt in Hthr. unfold threshold in Hthr.
  destruct (percentage o); by rewrite Hthr.
Qed.

Lemma evaluation_rises :
  toQ (highest o) <= toQ (current_p h) ->
  update_trailing_stop a ticker = Ok (raised a ticker h o).
Proof.
  intros Hle. unfold update_trailing_stop. rewrite Hheld, Horder.
  apply gtb_le in Hle. by rewrite Hle.
Qed.

End Evaluation.

(** Inside [update], a held and quoted ticker with an order is given its
    new price and then evaluated. *)
Lemma update_one_evaluates (a : account) (t : string) (p : num)
    (h : holding) (o : order) :
  latest_prices a !! t = Some p ->
  stocks_owned a !! t = Some h ->
  options h = Some o ->
  update_one t a =
    update_trailing_stop
      (set_stocks (<[t := set_current_p p h]> (stocks_owned a)) a) t.
Proof.
  intros Hp Hh Ho. unfold update_one. rewrite Hp, Hh.
  cbn [options set_current_p]. by rewrite Ho.
Qed.

(** On ints a credit is the exact amount. *)
Lemma credit_whole (f n c fee : num) :
  whole f -> whole n -> whole c -> whole fee ->
  toQ (f + (n * c - fee))%num == toQ f + (toQ n * toQ c - toQ fee).
Proof.
  intros Hf Hn Hc Hfee. pose proof (whole_mul n c Hn Hc) as Hm.
  rewrite toQ_add, toQ_sub, toQ_mul; try done.
  by apply whole_sub.
Qed.

(** On ints the threshold is the exact difference. *)
Lemma threshold_whole (o : order) :
  whole (highest o) -> whole (points o) ->
  toQ (threshold o) ==
    (if percentage o then toQ (highest o) - toQ (highest o) * toQ (points o)
     else toQ (highest o) - toQ (points o)).
Proof.
  intros Hh Hp. unfold threshold. destruct (percentage o).
  - rewrite toQ_sub, toQ_mul; try done. by apply whole_mul.
  - by rewrite toQ_sub.
Qed.

(** What a triggered order leaves behind. *)
Lemma triggered_effects (a : account) (ticker : string) (h : holding) (o : order) :
  let a' := triggered a ticker h o in
  let left_over := (quantity h - oquantity o)%num in
  funds a' = (funds a + (oquantity o * current_p h - TRANSACTION_FEE a))%num
  /\ transactions a' = (transactions a + 1)%Z
  /\ stocks_owned a' !! ticker =
       (if (left_over =? zero)%num then None
        else Some {| quantity := left_over; bought_p := bought_p h;
                     current_p := current_p h; options := None |})
  /\ (forall t, t <> ticker -> stocks_owned a' !! t = stocks_owned a !! t)
  /\ TRANSACTION_FEE a' = TRANSACTION_FEE a
  /\ initial_funds a' = initial_funds a
  /\ latest_prices a' = latest_prices a
  /\ original_prices a' = original_prices a.
Proof.
  unfold triggered, drop_trailing_stop, sold. cbn -[add sub mul eqb].
  destruct (quantity h - oquantity o =? zero)%num eqn:E.
  - rewrite lookup_delete_eq. cbn -[add sub mul eqb].
    repeat split; try done.
    + apply lookup_delete_eq.
    + intros t Ht. by rewrite lookup_delete_ne.
  - rewrite lookup_insert_eq. cbn -[add sub mul eqb].
    repeat split; try done.
    + by rewrite lookup_insert_eq.
    + intros t Ht. by rewrite !lookup_insert_ne.
Qed.

(** C1 (as the code has it). For a held ticker with a trailing-stop
    order, the evaluation takes the threshold branch only when the
    current price is strictly below the watermark.  The threshold is
    [highest - highest * points] for a percentage order and
    [highest - points] otherwise, computed in the arithmetic of the
    code: exactly on ints, rounded to binary64 at each operation
    otherwise.  If the current price is at or below that computed
    threshold, the order's quantity is sold through [sell_stock]: a
    quantity that the holding is below ends in the oversell diagnostic;
    otherwise the funds are credited with [quantity * current_p - fee]
    (in the same arithmetic), one more transaction is counted, and the
    order is then removed from what is left of the holding.  Strictly
    between the threshold and the watermark nothing changes.  At or
    above the watermark no threshold is evaluated: the watermark is set
    to the current price and nothing is sold. *)
Theorem trailing_stop_evaluation (a : account) (ticker : string)
    (h : holding) (o : order) :
  stocks_owned a !! ticker = Some h ->
  options h = Some o ->
  let c := current_p h in
  let left_over := (quantity h - oquantity o)%num in
  threshold o =
    (if percentage o then highest o - highest o * points o
     else highest o - points o)%num
  /\ (whole (highest o) -> whole (points o) ->
      toQ (threshold o) ==
        (if percentage o then toQ (highest o) - toQ (highest o) * toQ (points o)
         else toQ (highest o) - toQ (points o)))
  /\ (toQ c < toQ (highest o) -> toQ c <= toQ (threshold o) ->
      update_trailing_stop a ticker =
        (sell_stock a ticker (Qty (oquantity o)) >>= fun a1 =>
         Ok (drop_trailing_stop ticker a1))
      /\ (below (quantity h) (oquantity o) ->
          update_trailing_stop a ticker = Quit OversellAttempt a)
      /\ (~ below (quantity h) (oquantity o) ->
          exists a',
            update_trailing_stop a ticker = Ok a'
            /\ funds a' =
                 (funds a + (oquantity o * c - TRANSACTION_FEE a))%num
            /\ (whole (funds a) -> whole (oquantity o) -> whole c ->
                whole (TRANSACTION_FEE a) ->
                toQ (funds a') ==
                  toQ (funds a)
                  + (toQ (oquantity o) * toQ c - toQ (TRANSACTION_FEE a)))
            /\ transactions a' = (transactions a + 1)%Z
            /\ stocks_owned a' !! ticker =
                 (if (left_over =? zero)%num then None
                  else Some {| quantity := left_over; bought_p := bought_p h;
                               current_p := c; options := None |})
            /\ (forall t, t <> ticker ->
                          stocks_owned a' !! t = stocks_owned a !! t)))
  /\ (toQ c < toQ (highest o) -> toQ (threshold o) < toQ c ->
      update_trailing_stop a ticker = Ok a)
  /\ (toQ (highest o) <= toQ c ->
      update_trailing_stop a ticker = Ok (raised a ticker h o)).
Proof.
  intros Hheld Horder c left_over. split; [done|].
  split; [apply threshold_whole|]. repeat split.
  - by apply (evaluation_triggers a ticker h o).
  - intros Hover.
    rewrite (evaluation_triggers a ticker h o) by done.
    by rewrite (sell_stock_oversell a ticker h).
  - intros Hfits. exists (triggered a ticker h o).
    destruct (triggered_effects a ticker h o) as (Hf & Ht & Hs & Hr & _).
    split.
    { rewrite (evaluation_triggers a ticker h o) by done.
      by rewrite (sell_stock_ok a ticker h). }
    split; [exact Hf|]. split; [|done].
    intros. rewrite Hf. by apply credit_whole.
  - by apply (evaluation_holds a ticker h o).
  - by apply (evaluation_rises a ticker h o).
Qed.

(** The third update of the absolute example sells 10 shares at 107 and
    removes the order. *)
Example absolute_example_sells :
  match absolute_example with
  | Ok a =>
      funds a = Int (100000 - (20 * 100 + 7) + (10 * 107 - 7))
      /\ stocks_owned a !! "A"%string =
           Some {| quantity := Int 10; bought_p := Int 100;
                   current_p := Int 107; options := None |}
  | _ => False
  end.
Proof. vm_compute. split; reflexivity. Qed.

(** In the percentage example the points are stored as the float
    [10 / 100.0] and the threshold [60 - 60 * 0.1] comes out as the
    float 54: the third update sells the order's quantity at 53. *)
Example percentage_example_sells :
  match percentage_example with
  | Ok a =>
      funds a = Int (100000 - (20 * 50 + 7) + (10 * 53 - 7))
      /\ stocks_owned a !! "A"%string =
           Some {| quantity := Int 10; bought_p := Int 50;
                   current_p := Int 53; options := None |}
  | _ => False
  end.
Proof. vm_compute. split; reflexivity. Qed.

(** Rounding decides a sale.  With a stop of 55 percent under the
    watermark 100 the code stores the float [55 / 100.0], which is above
    0.55, and its threshold [100 - 100 * points] is a float below 45: a
    quote of 45 sells nothing and keeps the order, although
    [100 - 100 * 0.55] is 45 in exact arithmetic. *)
Example percentage_rounds_threshold :
  let o := {| percentage := true; points := percent (Int 55);
              highest := Int 100; oquantity := Int 10 |} in
  match percentage_rounding with
  | Ok a =>
      stocks_owned a !! "A"%string =
        Some {| quantity := Int 20; bought_p := Int 100;
                current_p := Int 45; options := Some o |}
      /\ funds a = Int (100000 - (20 * 100 + 7))
      /\ transactions a = 1%Z
  | _ => False
  end
  /\ 55 # 100 < toQ (points o)
  /\ toQ (threshold o) < 45.
Proof. vm_compute. by repeat split. Qed.

(** C1 as stated fails when the price equals the watermark and the
    distance is 0: the price is at most the watermark and at most the
    threshold, the order's quantity could be sold, yet the evaluation
    sells nothing and keeps the order. *)
Lemma trailing_stop_at_watermark_keeps_order :
  stocks_owned at_watermark !! "A"%string = Some at_watermark_holding
  /\ (forall o, options at_watermark_holding = Some o ->
        toQ (current_p at_watermark_holding) <= toQ (highest o)
        /\ toQ (current_p at_watermark_holding) <= toQ (threshold o))
  /\ update_trailing_stop at_watermark "A" = Ok at_watermark
  /\ update at_watermark (quote (Int 100)) "A" = Ok at_watermark
  /\ (exists a1, sell_stock at_watermark "A" (Qty (Int 10)) = Ok a1
                 /\ Ok (drop_trailing_stop "A" a1)
                    <> update_trailing_stop at_watermark "A").
Proof.
  split; [by vm_compute|]. split.
  { intros o [= <-]. by vm_compute. }
  split; [by vm_compute|]. split; [by vm_compute|].
  eexists. split; [by vm_compute|].
  vm_compute. intros [= ?].
Qed.

Lemma trailing_stop_evaluation_witness :
  exists a', update_trailing_stop falling "A" = Ok a'
             /\ transactions a' = 1%Z
             /\ stocks_owned a' !! "A"%string =
                  Some {| quantity := Int 10; bought_p := Int 100;
                          current_p := Int 107; options := None |}.
Proof.
  pose proof (trailing_stop_evaluation falling "A" falling_holding falling_order
                eq_refl eq_refl) as (_ & _ & Htrig & _).
  destruct Htrig as (_ & _ & Hsell).
  - vm_compute. reflexivity.
  - vm_compute. discriminate.
  - destruct Hsell as (a' & Hrun & _ & _ & Htr & Hst & _).
    + vm_compute. discriminate.
    + exists a'. split; [exact Hrun|]. split; [exact Htr|exact Hst].
Defined.

(** ** Watermarks only rise *)

Lemma watermarks_le_refl m : watermarks_le m m.
Proof. intros t h o Hh Ho. exists h, o. repeat split; try done. lra. Qed.

Lemma watermarks_le_trans m1 m2 m3 :
  watermarks_le m1 m2 -> watermarks_le m2 m3 -> watermarks_le m1 m3.
Proof.
  intros H12 H23 t h3 o3 Hh Ho.
  destruct (H23 t h3 o3 Hh Ho) as (h2 & o2 & Hh2 & Ho2 & Hle2).
  destruct (H12 t h2 o2 Hh2 Ho2) as (h1 & o1 & Hh1 & Ho1 & Hle1).
  exists h1, o1. repeat split; try done. lra.
Qed.

Lemma watermarks_le_delete m t : watermarks_le m (delete t m).
Proof.
  intros t' h' o' Hh Ho. apply lookup_delete_Some in Hh as [_ Hh].
  exists h', o'. repeat split; try done. lra.
Qed.

(** Replacing a holding by one without an order, or with an order whose
    watermark is not lower. *)
Lemma watermarks_le_insert m t h h1 :
  m !! t = Some h ->
  (forall o1, options h1 = Some o1 ->
              exists o, options h = Some o /\ toQ (highest o) <= toQ (highest o1)) ->
  watermarks_le m (<[t := h1]> m).
Proof.
  intros Hh Hopt t' h' o' Hh' Ho'.
  destruct (decide (t = t')) as [<-|Hne].
  - rewrite lookup_insert_eq in Hh'. injection Hh' as <-.
    destruct (Hopt o' Ho') as (o & Ho & Hle). by exists h, o.
  - rewrite lookup_insert_ne in Hh' by done.
    exists h', o'. repeat split; try done. lra.
Qed.

Lemma watermarks_le_same_options m t h h1 :
  m !! t = Some h -> options h1 = options h -> watermarks_le m (<[t := h1]> m).
Proof.
  intros Hh Hopt. apply (watermarks_le_insert m t h h1 Hh).
  intros o1 Ho1. exists o1. split; [congruence | lra].
Qed.

(** A loop keeps what each of its iterations keeps. *)
Lemma for_each_preserves {A : Type} (R : account -> account -> Prop)
    (body : A -> account -> outcome) :
  (forall a, R a a) ->
  (forall a b c, R a b -> R b c -> R a c) ->
  (forall x a, R a (state_of (body x a))) ->
  forall l a, R a (state_of (for_each body l a)).
Proof.
  intros Hrefl Htrans Hbody l. induction l as [|x l IH]; intros a; simpl.
  - apply Hrefl.
  - pose proof (Hbody x a) as Hx.
    destruct (body x a) as [a1|e a1|e a1]; simpl in *; [|done|done].
    eapply Htrans; [exact Hx | apply IH].
Qed.

Lemma rising_refl a : rising a a.
Proof. apply watermarks_le_refl. Qed.

Lemma rising_trans a b c : rising a b -> rising b c -> rising a c.
Proof. apply watermarks_le_trans. Qed.

Lemma sell_stock_rising a t q : rising a (state_of (sell_stock a t q)).
Proof.
  unfold sell_stock, rising.
  destruct (stocks_owned a !! t) as [h|] eqn:Hh; [|apply watermarks_le_refl].
  destruct (_ >=? _)%num; [|apply watermarks_le_refl].
  cbn. destruct (_ =? _)%num; cbn.
  - apply watermarks_le_delete.
  - by apply (watermarks_le_same_options _ t h).
Qed.

Lemma drop_trailing_stop_rising t a : rising a (drop_trailing_stop t a).
Proof.
  unfold drop_trailing_stop, rising.
  destruct (stocks_owned a !! t) as [h|] eqn:Hh; [|apply watermarks_le_refl].
  cbn. apply (watermarks_le_insert _ t h); [done|]. intros o1 [=].
Qed.

Lemma update_trailing_stop_rising a t :
  rising a (state_of (update_trailing_stop a t)).
Proof.
  unfold update_trailing_stop.
  destruct (stocks_owned a !! t) as [h|] eqn:Hh; [|apply rising_refl].
  destruct (options h) as [o|] eqn:Ho; [|apply rising_refl].
  destruct (highest o >? current_p h)%num eqn:Hgt.
  - destruct (_ <=? _)%num; [|apply rising_refl].
    pose proof (sell_stock_rising a t (Qty (oquantity o))) as Hs.
    destruct (sell_stock a t (Qty (oquantity o))) as [a1|e a1|e a1];
      simpl in *; try done.
    eapply rising_trans; [exact Hs | apply drop_trailing_stop_rising].
  - unfold rising. cbn. apply (watermarks_le_insert _ t h); [done|].
    intros o1 [= <-]. exists o. split; [done|]. cbn. by apply gtb_le.
Qed.

Lemma update_one_rising t a : rising a (state_of (update_one t a)).
Proof.
  unfold update_one.
  destruct (latest_prices a !! t) as [p|]; [|apply rising_refl].
  destruct (stocks_owned a !! t) as [h|] eqn:Hh; [|apply rising_refl].
  set (a1 := set_stocks _ a).
  assert (H1 : rising a a1).
  { unfold rising. cbn. by apply (watermarks_le_same_options _ t h). }
  cbn [options set_current_p].
  destruct (options h); [|done].
  eapply rising_trans; [exact H1 | apply update_trailing_stop_rising].
Qed.

Lemma update_rising a prices t : rising a (state_of (update a prices t)).
Proof.
  unfold update.
  set (r := match original_prices a !! t with Some _ => _ | None => _ end).
  assert (Hr : match r with
               | Ok a1 => stocks_owned a1 = stocks_owned a
               | _ => state_of r = a
               end).
  { subst r. destruct (original_prices a !! t); [done|].
    by destruct (prices !! t). }
  destruct r as [a1|e a1|e a1]; simpl in *; try (subst; apply rising_refl).
  set (a2 := set_latest prices a1).
  assert (H2 : rising a a2).
  { unfold rising. cbn. rewrite Hr. apply watermarks_le_refl. }
  eapply rising_trans; [exact H2|].
  change (stocks_owned a1) with (stocks_owned a2).
  apply (for_each_preserves rising);
    [apply rising_refl | apply rising_trans | intros; apply update_one_rising].
Qed.

(** A failed sale leaves the account as it was. *)
Lemma sell_stock_failure a t q :
  match sell_stock a t q with
  | Ok _ => True
  | r => state_of r = a
  end.
Proof.
  unfold sell_stock. destruct (stocks_owned a !! t); [|done].
  by destruct (_ >=? _)%num.
Qed.

Lemma run_updates_rising l a : rising a (state_of (run_updates l a)).
Proof.
  revert a. induction l as [|[p tk] l IH]; intros a; [apply rising_refl|].
  unfold run_updates, run_all. cbn [map for_each run fst snd].
  pose proof (update_rising a p tk) as Hu.
  destruct (update a p tk) as [a1|e a1|e a1]; simpl in *; [|done|done].
  eapply rising_trans; [exact Hu | apply IH].
Qed.

(** C2. Across any sequence of [update] calls the watermark of a
    trailing-stop order never decreases; and one evaluation either sets
    it to the current price, which is then at least the old watermark, or
    leaves it as it was. *)
Theorem watermark_monotone (l : list (gmap string num * string))
    (a : account) (t : string) (h : holding) (o : order)
    (h' : holding) (o' : order) :
  stocks_owned a !! t = Some h -> options h = Some o ->
  stocks_owned (state_of (run_updates l a)) !! t = Some h' ->
  options h' = Some o' ->
  toQ (highest o) <= toQ (highest o')
  /\ (forall h1 o1,
        stocks_owned (state_of (update_trailing_stop a t)) !! t = Some h1 ->
        options h1 = Some o1 ->
        (highest o1 = current_p h /\ toQ (highest o) <= toQ (current_p h))
        \/ highest o1 = highest o).
Proof.
  intros Hh Ho Hh' Ho'. split.
  - destruct (run_updates_rising l a t h' o' Hh' Ho')
      as (h0 & o0 & Hh0 & Ho0 & Hle).
    congruence.
  - intros h1 o1. unfold update_trailing_stop. rewrite Hh, Ho.
    destruct (highest o >? current_p h)%num eqn:Hgt.
    + destruct (_ <=? _)%num.
      * pose proof (sell_stock_failure a t (Qty (oquantity o))) as Hs.
        destruct (sell_stock a t (Qty (oquantity o))) as [a1|e a1|e a1];
          simpl in *.
        -- unfold drop_trailing_stop.
           destruct (stocks_owned a1 !! t) as [h2|] eqn:Hh2.
           ++ cbn. rewrite lookup_insert_eq. by intros [= <-] [=].
           ++ by rewrite Hh2.
        -- subst a1. rewrite Hh. intros [= <-]. rewrite Ho. intros [= <-].
           by right.
        -- subst a1. rewrite Hh. intros [= <-]. rewrite Ho. intros [= <-].
           by right.
      * simpl. rewrite Hh. intros [= <-]. rewrite Ho. intros [= <-]. by right.
    + cbn. rewrite lookup_insert_eq. intros [= <-]. cbn. intros [= <-]. left.
      split; [done|]. by apply gtb_le.
Qed.

Lemma watermark_monotone_witness :
  toQ (Int 100) <= toQ (Int 110).
Proof.
  refine (proj1 (watermark_monotone
                   [(quote (Int 110), "A"%string); (quote (Int 107), "A"%string)]
                   tracked "A"
                   {| quantity := Int 20; bought_p := Int 100; current_p := Int 100;
                      options := Some {| percentage := false; points := Int 5;
                                         highest := Int 100; oquantity := Int 10 |} |}
                   {| percentage := false; points := Int 5;
                      highest := Int 100; oquantity := Int 10 |}
                   {| quantity := Int 20; bought_p := Int 100; current_p := Int 107;
                      options := Some {| percentage := false; points := Int 5;
                                         highest := Int 110; oquantity := Int 10 |} |}
                   {| percentage := false; points := Int 5;
                      highest := Int 110; oquantity := Int 10 |}
                   _ _ _ _)); vm_compute; reflexivity.
Defined.

(** ** Buying *)

Lemma buy_stock_unknown a t q :
  latest_prices a !! t = None -> buy_stock a t q = Quit UnknownTicker a.
Proof. intros H. unfold buy_stock. by rewrite H. Qed.

Lemma buy_stock_insufficient a t q p :
  latest_prices a !! t = Some p ->
  below (funds a) (cost a q p) ->
  buy_stock a t q = Quit InsufficientFunds a.
Proof.
  intros Hp Hlt. unfold buy_stock. rewrite Hp.
  apply sub_neg in Hlt. unfold cost in Hlt. by rewrite Hlt.
Qed.

Lemma funds_checked a q p :
  ~ below (funds a) (cost a q p) ->
  (funds a - (q * p + TRANSACTION_FEE a) >=? zero)%num = true.
Proof. intros Hle. by apply sub_covers. Qed.

Lemma buy_stock_new a t q p :
  latest_prices a !! t = Some p ->
  ~ below (funds a) (cost a q p) ->
  stocks_owned a !! t = None ->
  buy_stock a t q =
    Ok (set_stocks
          (<[t := {| quantity := q; bought_p := p; current_p := p;
                     options := None |}]> (stocks_owned a))
          (debited a q p)).
Proof.
  intros Hp Hle Hnone. unfold buy_stock. rewrite Hp, (funds_checked a q p Hle).
  cbn [stocks_owned set_transactions set_funds]. by rewrite Hnone.
Qed.

Lemma buy_stock_merge a t q p h :
  latest_prices a !! t = Some p ->
  ~ below (funds a) (cost a q p) ->
  stocks_owned a !! t = Some h ->
  buy_stock a t q =
    match div (quantity h * bought_p h + q * p)%num (quantity h + q)%num with
    | None => Quit UnknownTicker (debited a q p)
    | Some avg =>
        Ok (set_stocks
              (<[t := set_bought_p (float avg)
                        (set_quantity (quantity h + q)%num h)]> (stocks_owned a))
              (debited a q p))
    end.
Proof.
  intros Hp Hle Hh. unfold buy_stock. rewrite Hp, (funds_checked a q p Hle).
  cbn [stocks_owned set_transactions set_funds]. by rewrite Hh.
Qed.

(** On ints, the funds after a buy followed by a sale of the same
    quantity at the same price are two fees lower. *)
Lemma round_trip_funds (f q p fee : num) :
  whole f -> whole q -> whole p -> whole fee ->
  toQ (f - (q * p + fee) + (q * p - fee))%num == toQ f - 2 * toQ fee.
Proof.
  intros Hf Hq Hp Hfee.
  pose proof (whole_mul q p Hq Hp) as Hm.
  rewrite toQ_add, !toQ_sub, toQ_add, !toQ_mul; try done.
  - ring.
  - by apply whole_add.
  - apply whole_sub; [done | by apply whole_add].
  - by apply whole_sub.
Qed.

(** C3 (as the code has it). On an account whose holding of the ticker,
    if any, has a non-negative quantity and is priced at the latest
    price, buying a positive quantity whose cost the funds cover and then
    selling the same quantity both succeed; the funds are first debited
    [quantity * price + fee] and then credited [quantity * price - fee],
    each computed and applied in the arithmetic of the code.  On ints
    that leaves the funds exactly two fees below their value before the
    buy; with a float among funds, quantity, price and fee every
    operation rounds to binary64, and the result need not be that
    number. *)
Theorem buy_then_sell_costs_two_fees (a : account) (t : string) (q p : num) :
  0 < toQ q ->
  latest_prices a !! t = Some p ->
  toQ (cost a q p) <= toQ (funds a) ->
  (forall h, stocks_owned a !! t = Some h ->
             0 <= toQ (quantity h) /\ current_p h = p) ->
  exists a1 a2,
    buy_stock a t q = Ok a1
    /\ sell_stock a1 t (Qty q) = Ok a2
    /\ funds a2 =
         (funds a - (q * p + TRANSACTION_FEE a)
          + (q * p - TRANSACTION_FEE a))%num
    /\ (whole (funds a) -> whole q -> whole p -> whole (TRANSACTION_FEE a) ->
        toQ (funds a2) == toQ (funds a) - 2 * toQ (TRANSACTION_FEE a))
    /\ transactions a2 = (transactions a + 2)%Z.
Proof.
  intros Hq Hp Hle Hwf. apply le_not_below in Hle.
  destruct (stocks_owned a !! t) as [h|] eqn:Hh.
  - destruct (Hwf h eq_refl) as [Hpos Hcur].
    rewrite (buy_stock_merge a t q p h Hp Hle Hh).
    destruct (div_is_Some (quantity h * bought_p h + q * p)%num
                (quantity h + q)%num) as [avg ->].
    { pose proof (add_pos _ _ Hpos Hq). lra. }
    eexists. eexists. split; [reflexivity|].
    rewrite (sell_stock_ok _ t
               (set_bought_p (float avg) (set_quantity (quantity h + q)%num h)) q).
    + split; [reflexivity|]. cbn -[add sub mul]. rewrite Hcur. unfold cost.
      split; [reflexivity|]. split; [|lia].
      intros. by apply round_trip_funds.
    + cbn. apply lookup_insert_eq.
    + cbn -[add sub mul]. apply sub_covers. by apply add_sub_covers.
  - rewrite (buy_stock_new a t q p Hp Hle Hh).
    eexists. eexists. split; [reflexivity|].
    rewrite (sell_stock_ok _ t
               {| quantity := q; bought_p := p; current_p := p;
                  options := None |} q).
    + split; [reflexivity|]. cbn -[add sub mul]. unfold cost.
      split; [reflexivity|]. split; [|lia].
      intros. by apply round_trip_funds.
    + cbn. apply lookup_insert_eq.
    + cbn -[add sub mul]. apply le_not_below. lra.
Qed.

Lemma buy_then_sell_costs_two_fees_witness :
  exists a1 a2,
    buy_stock quoted "AAPL" (Int 100) = Ok a1
    /\ sell_stock a1 "AAPL" (Qty (Int 100)) = Ok a2
    /\ funds a2 =
         (Int 100000 - (Int 100 * Flt (11056 # 100) + Flt (699 # 100))
          + (Int 100 * Flt (11056 # 100) - Flt (699 # 100)))%num
    /\ transactions a2 = 2%Z.
Proof.
  destruct (buy_then_sell_costs_two_fees quoted "AAPL" (Int 100)
              (Flt (11056 # 100)))
    as (a1 & a2 & H1 & H2 & Hf & _ & Htr).
  - vm_compute. reflexivity.
  - vm_compute. reflexivity.
  - vm_compute. discriminate.
  - intros h Hh. vm_compute in Hh. discriminate.
  - exists a1, a2. split; [exact H1|]. split; [exact H2|].
    split; [exact Hf | exact Htr].
Defined.

(** C3 as stated fails.  On the default account (funds 100000, fee
    6.99), buying 100 shares quoted at 110.56 and selling them again
    leaves the funds at the float 99986.01999999999, which is neither
    two fees below 100000 nor the float nearest to that.  And not every
    account will do: on an account that holds minus 5 shares (nothing
    checks the sign of a bought quantity), a buy of 5 that the funds
    cover debits the funds and then ends in the unknown-ticker
    diagnostic, so that there is nothing to sell. *)
Lemma buy_then_sell_not_two_fees :
  (exists a1 a2,
     buy_stock quoted "AAPL" (Int 100) = Ok a1
     /\ sell_stock a1 "AAPL" (Qty (Int 100)) = Ok a2
     /\ funds a2 = Flt (3435493487657615 # 34359738368)
     /\ toQ (funds a2) < toQ (funds quoted) - 2 * toQ (TRANSACTION_FEE quoted)
     /\ toQ (funds a2) < round64 (9998602 # 100))
  /\ (reachable (Int 1000) (Int 1) short_five
      /\ (exists h, stocks_owned short_five !! "A"%string = Some h
                    /\ quantity h = Int (-5))
      /\ latest_prices short_five !! "A"%string = Some (Int 10)
      /\ toQ (cost short_five (Int 5) (Int 10)) <= toQ (funds short_five)
      /\ exists a', buy_stock short_five "A" (Int 5) = Quit UnknownTicker a'
                    /\ toQ (funds a') < toQ (funds short_five)).
Proof.
  split.
  - eexists. eexists. split; [by vm_compute|]. split; [by vm_compute|].
    split; [by vm_compute|]. split; by vm_compute.
  - split.
    { assert (E : short_five =
                  state_of (run (Buy "A" (Int (-5)))
                              (state_of (run (Update (quote (Int 10)) "A")
                                           (init (Int 1000) (Int 1))))))
        by (vm_compute; reflexivity).
      rewrite E. apply reach_step; [|done]. apply reach_step; [|done].
      apply reach_init. }
    split; [eexists; split; by vm_compute|].
    split; [by vm_compute|]. split; [by vm_compute|].
    eexists. split; [by vm_compute|]. by vm_compute.
Qed.

(** C5 (as the code has it). Provided the quantity held and the bought
    quantity do not add up to 0, [buy_stock] ends in the
    insufficient-funds diagnostic exactly when the ticker has a latest
    price and the funds are below the cost [quantity * price + fee] as
    the code computes it (exactly on ints, rounded to binary64 at each
    operation otherwise), and in the unknown-ticker diagnostic exactly
    when the ticker has no latest price; a failed buy leaves the account
    as it was, no exception escapes, and a successful buy debits the
    computed cost and leaves the funds non-negative. *)
Theorem buy_stock_failures (a : account) (t : string) (q : num) :
  (forall h, stocks_owned a !! t = Some h ->
             ~ toQ (quantity h + q)%num == 0) ->
  ((exists a', buy_stock a t q = Quit InsufficientFunds a') <->
   (exists p, latest_prices a !! t = Some p
              /\ below (funds a) (cost a q p)))
  /\ (forall p, latest_prices a !! t = Some p ->
                below (funds a) (cost a q p) ->
                toQ (funds a) < toQ (cost a q p))
  /\ ((exists a', buy_stock a t q = Quit UnknownTicker a') <->
      latest_prices a !! t = None)
  /\ (forall e a', buy_stock a t q = Quit e a' ->
                   a' = a /\ (e = InsufficientFunds \/ e = UnknownTicker))
  /\ (forall x a', buy_stock a t q <> Raise x a')
  /\ (forall a', buy_stock a t q = Ok a' ->
                 0 <= toQ (funds a')
                 /\ exists p, latest_prices a !! t = Some p
                              /\ funds a' = (funds a - cost a q p)%num).
Proof.
  intros Hnz.
  destruct (latest_prices a !! t) as [p|] eqn:Hp.
  2:{ rewrite (buy_stock_unknown a t q Hp).
      split; [|split; [|split; [|split; [|split]]]].
      - split; [intros [a' [=]] | intros (p & [=] & _)].
      - intros p [=].
      - split; [done | intros _; by exists a].
      - intros e a' [= <- <-]. split; [done | by right].
      - intros x a' [=].
      - intros a' [=]. }
  destruct (funds a - cost a q p >=? zero)%num eqn:Hge.
  2:{ apply sub_neg in Hge. rewrite (buy_stock_insufficient a t q p Hp Hge).
      split; [|split; [|split; [|split; [|split]]]].
      - split; [intros _; by exists p | intros _; by exists a].
      - intros p' _. apply below_lt.
      - split; [intros [a' [=]] | intros [=]].
      - intros e a' [= <- <-]. split; [done | by left].
      - intros x a' [=].
      - intros a' [=]. }
  assert (Hle : ~ below (funds a) (cost a q p)) by (by apply sub_covers).
  assert (Hok : exists a', buy_stock a t q = Ok a'
                           /\ funds a' = (funds a - cost a q p)%num).
  { destruct (stocks_owned a !! t) as [h|] eqn:Hh.
    - rewrite (buy_stock_merge a t q p h Hp Hle Hh).
      destruct (div_is_Some (quantity h * bought_p h + q * p)%num
                  (quantity h + q)%num) as [avg ->].
      + by apply Hnz.
      + by eexists.
    - rewrite (buy_stock_new a t q p Hp Hle Hh). by eexists. }
  destruct Hok as (a1 & -> & Hf).
  split; [|split; [|split; [|split; [|split]]]].
  - split; [intros [a' [=]] | intros (p' & [= <-] & Hlt); contradiction].
  - intros p' _. apply below_lt.
  - split; [intros [a' [=]] | intros [=]].
  - intros e a' [=].
  - intros x a' [=].
  - intros a' [= <-]. split.
    + rewrite Hf. apply geb_ge in Hge. by rewrite toQ_zero in Hge.
    + by exists p.
Qed.

Lemma buy_stock_failures_witness :
  (exists a', buy_stock quoted "MSFT" (Int 1) = Quit UnknownTicker a') <->
  latest_prices quoted !! "MSFT"%string = None.
Proof.
  refine (proj1 (proj2 (proj2 (buy_stock_failures quoted "MSFT" (Int 1) _)))).
  intros h Hh. vm_compute in Hh. discriminate.
Defined.

(** The cost that the funds are compared with is the rounded one.  With
    funds 0.3, a fee of 0.2 and a price of 0.1, the cost of one share
    comes out as the float 0.30000000000000004 and the buy is refused;
    with funds 0.7999999999999999 and a fee of 0.7 the cost comes out as
    the float 0.7999999999999999 and the buy leaves the funds at 0. *)
Example buy_stock_rounded_cost :
  buy_stock (penny_account (Flt (3 # 10)) (Flt (2 # 10))) "A" (Int 1)
  = Quit InsufficientFunds (penny_account (Flt (3 # 10)) (Flt (2 # 10)))
  /\ match buy_stock (penny_account (Flt (7999999999999999 # 10000000000000000))
                        (Flt (7 # 10))) "A" (Int 1) with
     | Ok a' => funds a' = Flt 0
     | _ => False
     end.
Proof. vm_compute. by split. Qed.

(** C5 as stated fails for a buy of minus the held quantity: the ticker
    has a latest price and the funds suffice, yet the buy ends in the
    unknown-ticker diagnostic (the bare [except:] catches the
    [ZeroDivisionError] of the average), after the funds were debited and
    the transaction counted. *)
Lemma buy_stock_cancelling_quantity :
  latest_prices holding_five !! "A"%string = Some (Int 10)
  /\ toQ (Int (-5)) * toQ (Int 10) + toQ (TRANSACTION_FEE holding_five)
     <= toQ (funds holding_five)
  /\ exists a', buy_stock holding_five "A" (Int (-5)) = Quit UnknownTicker a'
                /\ funds holding_five = Int 949 /\ funds a' = Int 998
                /\ transactions a' = (transactions holding_five + 1)%Z
                /\ a' <> holding_five.
Proof.
  split; [by vm_compute|]. split; [by vm_compute|].
  eexists. split; [by vm_compute|]. split; [by vm_compute|].
  split; [by vm_compute|]. split; [by vm_compute|].
  intros H. apply (f_equal funds) in H. vm_compute in H. discriminate.
Qed.

(** ** The average bought price *)

(** C4. With integer prices and quantities the merge divides two ints:
    [float((10 + 11) / (1 + 1))] is [10.0], not the volume-weighted mean
    [10.5]. *)
Theorem buy_stock_average_floors :
  exists a h,
    two_fills = Ok a
    /\ stocks_owned a !! "A"%string = Some h
    /\ quantity h = Int 2
    /\ bought_p h = Flt 10
    /\ ~ toQ (bought_p h) == (1 * 10 + 1 * 11) / (1 + 1).
Proof.
  eexists. eexists. split; [by vm_compute|]. split; [by vm_compute|].
  split; [done|]. split; [done|]. by vm_compute.
Qed.

(** ** Holdings have a positive quantity *)

Lemma all_positive_insert m t h :
  all_positive m -> 0 < toQ (quantity h) -> all_positive (<[t := h]> m).
Proof.
  intros Hm Hh t' h'. destruct (decide (t = t')) as [<-|Hne].
  - rewrite lookup_insert_eq. by intros [= <-].
  - rewrite lookup_insert_ne by done. apply Hm.
Qed.

Lemma all_positive_delete m t : all_positive m -> all_positive (delete t m).
Proof. intros Hm t' h' [_ H]%lookup_delete_Some. by apply (Hm t'). Qed.

Lemma keeps_positive_refl a : keeps_positive a a.
Proof. by intros H. Qed.

Lemma keeps_positive_trans a b c :
  keeps_positive a b -> keeps_positive b c -> keeps_positive a c.
Proof. intros Hab Hbc H. by apply Hbc, Hab. Qed.

Lemma sell_stock_positive a t q : keeps_positive a (state_of (sell_stock a t q)).
Proof.
  unfold sell_stock.
  destruct (stocks_owned a !! t) as [h|] eqn:Hh; [|apply keeps_positive_refl].
  destruct (_ >=? _)%num eqn:Hge; [|apply keeps_positive_refl].
  intros Hpos. cbn -[toQ].
  destruct (_ =? _)%num eqn:Hz; cbn -[toQ].
  - by apply all_positive_delete.
  - apply all_positive_insert; [done|]. cbn -[toQ] in *.
    apply geb_ge in Hge. apply eqb_neq in Hz.
    rewrite toQ_zero in Hge, Hz.
    destruct (Qlt_le_dec 0 (toQ (quantity h
                                 - match q with All => quantity h | Qty n => n end)))
      as [Hlt|Hle]; [done|].
    exfalso. apply Hz. by apply Qle_antisym.
Qed.

Lemma drop_trailing_stop_positive t a : keeps_positive a (drop_trailing_stop t a).
Proof.
  unfold drop_trailing_stop.
  destruct (stocks_owned a !! t) as [h|] eqn:Hh; [|apply keeps_positive_refl].
  intros Hpos. cbn -[toQ]. apply all_positive_insert; [done|]. exact (Hpos t h Hh).
Qed.

Lemma update_trailing_stop_positive a t :
  keeps_positive a (state_of (update_trailing_stop a t)).
Proof.
  unfold update_trailing_stop.
  destruct (stocks_owned a !! t) as [h|] eqn:Hh; [|apply keeps_positive_refl].
  destruct (options h) as [o|]; [|apply keeps_positive_refl].
  destruct (_ >? _)%num.
  - destruct (_ <=? _)%num; [|apply keeps_positive_refl].
    pose proof (sell_stock_positive a t (Qty (oquantity o))) as Hs.
    destruct (sell_stock a t (Qty (oquantity o))) as [a1|e a1|e a1];
      simpl in *; try done.
    eapply keeps_positive_trans; [exact Hs | apply drop_trailing_stop_positive].
  - intros Hpos. cbn -[toQ]. apply all_positive_insert; [done|]. exact (Hpos t h Hh).
Qed.

Lemma update_one_positive t a : keeps_positive a (state_of (update_one t a)).
Proof.
  unfold update_one.
  destruct (latest_prices a !! t) as [p|]; [|apply keeps_positive_refl].
  destruct (stocks_owned a !! t) as [h|] eqn:Hh; [|apply keeps_positive_refl].
  set (a1 := set_stocks _ a).
  assert (H1 : keeps_positive a a1).
  { intros Hpos. cbn -[toQ]. apply all_positive_insert; [done|]. exact (Hpos t h Hh). }
  cbn [options set_current_p].
  destruct (options h); [|done].
  eapply keeps_positive_trans; [exact H1 | apply update_trailing_stop_positive].
Qed.

Lemma update_positive a prices t :
  keeps_positive a (state_of (update a prices t)).
Proof.
  unfold update.
  set (r := match original_prices a !! t with Some _ => _ | None => _ end).
  assert (Hr : stocks_owned (state_of r) = stocks_owned a).
  { subst r. destruct (original_prices a !! t); [done|].
    by destruct (prices !! t). }
  destruct r as [a1|e a1|e a1]; simpl in *;
    try (unfold keeps_positive; by rewrite Hr).
  set (a2 := set_latest prices a1).
  assert (H2 : keeps_positive a a2).
  { unfold keeps_positive. cbn. by rewrite Hr. }
  eapply keeps_positive_trans; [exact H2|].
  change (stocks_owned a1) with (stocks_owned a2).
  apply (for_each_preserves keeps_positive);
    [apply keeps_positive_refl | apply keeps_positive_trans
     | intros; apply update_one_positive].
Qed.

Lemma buy_stock_positive a t q :
  0 < toQ q -> keeps_positive a (state_of (buy_stock a t q)).
Proof.
  intros Hq. unfold buy_stock.
  destruct (latest_prices a !! t) as [p|]; [|apply keeps_positive_refl].
  destruct (_ >=? _)%num; [|apply keeps_positive_refl].
  cbn [stocks_owned set_transactions set_funds].
  destruct (stocks_owned a !! t) as [h|] eqn:Hh.
  - destruct (div _ _); [|intros Hpos; exact Hpos].
    intros Hpos. cbn -[toQ add]. apply all_positive_insert; [done|]. cbn -[toQ add].
    apply add_pos; [|done]. pose proof (Hpos t h Hh). lra.
  - intros Hpos. cbn -[toQ]. by apply all_positive_insert.
Qed.

Lemma trailing_stop_positive a t q pts pct :
  keeps_positive a (state_of (trailing_stop a t q pts pct)).
Proof.
  unfold trailing_stop. rewrite div_hundred.
  destruct (_ >=? _)%num; [|apply keeps_positive_refl].
  destruct (stocks_owned a !! t) as [h|] eqn:Hh; [|apply keeps_positive_refl].
  intros Hpos.
  destruct (_ >? _)%num; [|destruct pct]; cbn -[toQ];
    (apply all_positive_insert; [done | exact (Hpos t h Hh)]).
Qed.

Lemma sell_all_positive a : keeps_positive a (state_of (sell_all a)).
Proof.
  unfold sell_all.
  apply (for_each_preserves keeps_positive);
    [apply keeps_positive_refl | apply keeps_positive_trans |].
  intros [k v] a0. unfold sell_all_one. cbn [fst].
  destruct (stocks_owned a0 !! k); [|apply keeps_positive_refl].
  intros Hpos. cbn. by apply all_positive_delete.
Qed.

Lemma run_positive o a :
  positive_buys o -> keeps_positive a (state_of (run o a)).
Proof.
  destruct o; intros Hp; cbn [run].
  - apply update_positive.
  - by apply buy_stock_positive.
  - apply sell_stock_positive.
  - apply trailing_stop_positive.
  - apply sell_all_positive.
Qed.

(** C6 (as the code has it). As long as the driver only buys strictly
    positive quantities, every holding of every observable account has a
    strictly positive quantity; and a sale of the whole quantity of a
    holding removes the entry, with the order attached to it. *)
Theorem holdings_positive (f fee : num) (a : account) :
  reachable_by positive_buys f fee a ->
  (forall t h, stocks_owned a !! t = Some h -> 0 < toQ (quantity h))
  /\ (forall t h q,
        stocks_owned a !! t = Some h ->
        toQ (asked q h) == toQ (quantity h) ->
        exists a', sell_stock a t q = Ok a' /\ stocks_owned a' !! t = None).
Proof.
  intros Hreach.
  assert (Hpos : all_positive (stocks_owned a)).
  { induction Hreach as [|a o Hreach IH Ho].
    - intros t h. cbn. by rewrite lookup_empty.
    - by apply run_positive. }
  split; [exact Hpos|].
  intros t h q Hh Hq. unfold sell_stock. rewrite Hh.
  fold (asked q h).
  assert (Hge : (quantity h - asked q h >=? zero)%num = true).
  { apply sub_nonneg. lra. }
  assert (Hz : (quantity h - asked q h =? zero)%num = true).
  { apply sub_eq_zero. lra. }
  rewrite Hge. cbn -[sub eqb]. rewrite Hz. eexists. split; [reflexivity|].
  cbn. apply lookup_delete_eq.
Qed.

Lemma holdings_positive_witness :
  0 < toQ (quantity {| quantity := Int 5; bought_p := Int 10;
                       current_p := Int 10; options := None |}).
Proof.
  refine (proj1 (holdings_positive (Int 1000) (Int 1) holding_five _) "A" _ _).
  - assert (E : holding_five =
                state_of (run (Buy "A" (Int 5))
                            (state_of (run (Update (quote (Int 10)) "A")
                                         (init (Int 1000) (Int 1))))))
      by (vm_compute; reflexivity).
    rewrite E. apply reach_step.
    + apply reach_step; [apply reach_init | exact I].
    + vm_compute. reflexivity.
  - vm_compute. reflexivity.
Defined.

(** C6 as stated fails: nothing checks the sign of a bought quantity, so
    a buy of 0 shares of a quoted ticker leaves a holding of quantity 0
    in an observable account. *)
Lemma buy_stock_zero_quantity :
  exists a h,
    reachable (Int 1000) (Int 1) a
    /\ stocks_owned a !! "A"%string = Some h
    /\ toQ (quantity h) <= 0.
Proof.
  exists (state_of
            (run (Buy "A" (Int 0))
               (state_of (run (Update (quote (Int 10)) "A")
                            (init (Int 1000) (Int 1)))))).
  eexists. split; [|split].
  - apply reach_step; [|done]. apply reach_step; [|done]. apply reach_init.
  - by vm_compute.
  - by vm_compute.
Qed.

(** ** The original prices *)

Lemma same_original_refl a : same_original a a.
Proof. done. Qed.

Lemma same_original_trans a b c :
  same_original a b -> same_original b c -> same_original a c.
Proof. unfold same_original. congruence. Qed.

Lemma sell_stock_original a t q : same_original a (state_of (sell_stock a t q)).
Proof.
  unfold sell_stock. destruct (stocks_owned a !! t); [|done].
  destruct (_ >=? _)%num; [|done]. cbn. by destruct (_ =? _)%num.
Qed.

Lemma drop_trailing_stop_original t a : same_original a (drop_trailing_stop t a).
Proof. unfold drop_trailing_stop. by destruct (stocks_owned a !! t). Qed.

Lemma update_trailing_stop_original a t :
  same_original a (state_of (update_trailing_stop a t)).
Proof.
  unfold update_trailing_stop.
  destruct (stocks_owned a !! t) as [h|]; [|done].
  destruct (options h) as [o|]; [|done].
  destruct (_ >? _)%num; [|done].
  destruct (_ <=? _)%num; [|done].
  pose proof (sell_stock_original a t (Qty (oquantity o))) as Hs.
  destruct (sell_stock a t (Qty (oquantity o))) as [a1|e a1|e a1];
    simpl in *; try done.
  eapply same_original_trans; [exact Hs | apply drop_trailing_stop_original].
Qed.

Lemma update_one_original t a : same_original a (state_of (update_one t a)).
Proof.
  unfold update_one.
  destruct (latest_prices a !! t) as [p|]; [|done].
  destruct (stocks_owned a !! t) as [h|]; [|done].
  cbn [options set_current_p]. destruct (options h); [|done].
  match goal with
  | |- same_original a (state_of (update_trailing_stop ?a1 t)) =>
      apply (same_original_trans a a1); [done|]
  end.
  apply update_trailing_stop_original.
Qed.

Lemma buy_stock_original a t q : same_original a (state_of (buy_stock a t q)).
Proof.
  unfold buy_stock. destruct (latest_prices a !! t); [|done].
  destruct (_ >=? _)%num; [|done].
  cbn [stocks_owned set_transactions set_funds].
  destruct (stocks_owned a !! t); [|done]. by destruct (div _ _).
Qed.

Lemma trailing_stop_original a t q pts pct :
  same_original a (state_of (trailing_stop a t q pts pct)).
Proof.
  unfold trailing_stop. rewrite div_hundred. destruct (_ >=? _)%num; [|done].
  destruct (stocks_owned a !! t); [|done].
  destruct (_ >? _)%num; [done|]. by destruct pct.
Qed.

Lemma sell_all_original a : same_original a (state_of (sell_all a)).
Proof.
  unfold sell_all.
  apply (for_each_preserves same_original);
    [apply same_original_refl | apply same_original_trans |].
  intros [k v] a0. unfold sell_all_one. cbn [fst].
  by destruct (stocks_owned a0 !! k).
Qed.

Lemma update_loop_original (l : list (string * holding)) a :
  original_prices (state_of (for_each (fun kv => update_one kv.1) l a))
  = original_prices a.
Proof.
  apply (for_each_preserves same_original);
    [apply same_original_refl | apply same_original_trans |].
  intros [k x] a0. apply update_one_original.
Qed.

(** What [update] does to [original_prices]. *)
Lemma update_original a prices t :
  original_prices (state_of (update a prices t)) =
    match original_prices a !! t, prices !! t with
    | None, Some p => <[t := p]> (original_prices a)
    | _, _ => original_prices a
    end.
Proof.
  unfold update.
  destruct (original_prices a !! t) as [v|] eqn:Ho.
  - cbn [bind]. by rewrite update_loop_original.
  - destruct (prices !! t) as [p|]; [|done]. cbn [bind].
    by rewrite update_loop_original.
Qed.

(** C7 (as the code has it). No call changes an entry of
    [original_prices] once it is there.  An absent entry for a ticker is
    written only by an [update] call whose ticker argument is that
    ticker, with the price the call's snapshot has for it (none, and no
    entry, when the snapshot lacks the ticker: the [KeyError] escapes
    with the account unchanged); any other call, also an [update] whose
    snapshot includes the ticker, leaves the entry absent. *)
Theorem original_prices_written_once (o : op) (a : account) (t : string) :
  (forall v, original_prices a !! t = Some v ->
             original_prices (state_of (run o a)) !! t = Some v)
  /\ (original_prices a !! t = None ->
      original_prices (state_of (run o a)) !! t =
        match names o t with
        | Some prices => prices !! t
        | None => None
        end)
  /\ (forall prices,
        original_prices a !! t = None -> prices !! t = None ->
        update a prices t = Raise KeyError a).
Proof.
  split; [|split].
  - intros v Hv. destruct o; cbn [run].
    + rewrite update_original.
      destruct (original_prices a !! ticker) eqn:E; [done|].
      destruct (prices !! ticker); [|done].
      rewrite lookup_insert_ne; [done|]. intros ->. congruence.
    + by rewrite buy_stock_original.
    + by rewrite sell_stock_original.
    + by rewrite trailing_stop_original.
    + by rewrite sell_all_original.
  - intros Hn. destruct o; cbn [run names].
    + rewrite update_original. case_decide as Ht.
      * subst ticker. rewrite Hn.
        destruct (prices !! t); [apply lookup_insert_eq | done].
      * destruct (original_prices a !! ticker); [done|].
        destruct (prices !! ticker); [|done].
        by rewrite lookup_insert_ne.
    + by rewrite buy_stock_original.
    + by rewrite sell_stock_original.
    + by rewrite trailing_stop_original.
    + by rewrite sell_all_original.
  - intros prices Hn Hp. unfold update. by rewrite Hn, Hp.
Qed.

Lemma original_prices_written_once_witness :
  original_prices
    (state_of (run (Update {[ "AAPL"%string := Flt (11056 # 100) ]} "AAPL")
                 init_default)) !! "AAPL"%string
  = Some (Flt (11056 # 100)).
Proof.
  refine (proj1 (proj2 (original_prices_written_once
                          (Update {[ "AAPL"%string := Flt (11056 # 100) ]} "AAPL")
                          init_default "AAPL")) _).
  reflexivity.
Defined.

(** C7 as stated fails: the first [update] whose snapshot includes B,
    called for A, records A and not B; the price recorded for B is that
    of the later call made for B. *)
Lemma update_records_named_ticker_only :
  two_quotes !! "B"%string = Some (Int 2)
  /\ (exists a1,
        update (init (Int 1000) (Int 1)) two_quotes "A" = Ok a1
        /\ original_prices a1 !! "A"%string = Some (Int 1)
        /\ original_prices a1 !! "B"%string = None
        /\ exists a2,
             update a1 {[ "A"%string := Int 3; "B"%string := Int 4 ]} "B" = Ok a2
             /\ original_prices a2 !! "B"%string = Some (Int 4)).
Proof.
  split; [by vm_compute|].
  eexists. split; [by vm_compute|].
  split; [by vm_compute|]. split; [by vm_compute|].
  eexists. split; by vm_compute.
Qed.

(** ** The report *)

(** Holdings whose quantity and current price are ints. *)
Lemma value_loop (l : list (string * holding)) (acc : num) :
  whole acc ->
  (forall k h, (k, h) ∈ l -> whole (quantity h) /\ whole (current_p h)) ->
  let total :=
    foldl (fun total_value kv =>
             (total_value + quantity kv.2 * current_p kv.2)%num) acc l in
  whole total /\ toQ total == toQ acc + holdings_value l.
Proof.
  revert acc. induction l as [|[k h] l IH]; intros acc Hacc Hl; simpl foldl.
  - split; [done|]. simpl. ring.
  - destruct (Hl k h) as [Hq Hc]; [left|].
    pose proof (whole_mul _ _ Hq Hc) as Hm.
    destruct (IH (acc + quantity h * current_p h)%num) as [Hw He].
    + by apply whole_add.
    + intros k' h' Hin. apply (Hl k'). by right.
    + split; [exact Hw|]. cbn zeta in He. rewrite He. cbn [holdings_value snd].
      rewrite toQ_add, toQ_mul by done. ring.
Qed.

(** On an account whose holdings have int quantities and prices,
    [value()] is the sum of [quantity * current_p] over the holdings. *)
Lemma value_is_sum a :
  (forall k h, stocks_owned a !! k = Some h ->
               whole (quantity h) /\ whole (current_p h)) ->
  whole (value a)
  /\ toQ (value a) == holdings_value (map_to_list (stocks_owned a)).
Proof.
  intros Hw. unfold value.
  destruct (value_loop (map_to_list (stocks_owned a)) zero) as [H1 H2]; [done| |].
  - intros k h Hin. apply (Hw k). by apply elem_of_map_to_list.
  - split; [exact H1|]. cbn zeta in H2. rewrite H2, toQ_zero. ring.
Qed.

(** [report] leaves the account as it found it. *)
Lemma report_reads_only a verbose : (report a verbose).2 = a.
Proof.
  unfold report. destruct (div _ _); [|done].
  destruct (market_totals _ _ _ _) as [[tp tr]|]; [|done].
  destruct (div _ _); [|done].
  by destruct (if verbose then _ else _).
Qed.

(** The net worth and the profit of a report. *)
Lemma report_worth_and_profit a verbose f :
  (report a verbose).1 = Report f ->
  account_worth f = (funds a + value a)%num
  /\ profit f = (account_worth f - initial_funds a)%num
  /\ number_of_transactions f = transactions a
  /\ exists pp, div (profit f) (initial_funds a) = Some pp
                /\ profit_percentage f = float pp.
Proof.
  unfold report. destruct (div _ _) as [pp|] eqn:Hpp; [|done].
  destruct (market_totals _ _ _ _) as [[tp tr]|]; [|done].
  destruct (div tr tp); [|done].
  destruct (if verbose then _ else _); [|done].
  intros [= <-]. cbn -[add sub]. repeat split. by exists pp.
Qed.

(** With a float among the profit and the initial funds, the reported
    percentage is the float nearest to their quotient. *)
Lemma report_percentage_float a verbose f :
  ~ (whole (profit f) /\ whole (initial_funds a)) ->
  (report a verbose).1 = Report f ->
  profit_percentage f
  = Flt (round64 (fval (profit f) / fval (initial_funds a))).
Proof.
  intros Hflt Hr.
  destruct (report_worth_and_profit a verbose f Hr) as (_ & _ & _ & pp & Hd & ->).
  by rewrite (div_flt _ _ _ Hflt Hd).
Qed.

(** C9. With integer funds, fee and prices the report divides two ints:
    the profit is 50 on initial funds of 1000, and the reported
    percentage [float(50 / 1000)] is [0.0], not [0.05]. *)
Theorem report_percentage_floors :
  exists a f,
    gained = Ok a
    /\ report a false = (Report f, a)
    /\ initial_funds a = Int 1000
    /\ account_worth f = Int 1050
    /\ profit f = Int 50
    /\ profit_percentage f = Flt 0
    /\ ~ toQ (profit_percentage f) == toQ (profit f) / toQ (initial_funds a).
Proof.
  eexists. eexists. split; [by vm_compute|]. split; [by vm_compute|].
  repeat split. by vm_compute.
Qed.

(** ** Further properties: selling *)

(** [sell_stock] ends in the not-owned diagnostic exactly when the ticker
    is not held, and in the oversell diagnostic exactly when it is held
    and the held quantity is below the asked one (two ints compared as
    ints, any other pair as floats, as the subtraction of the code
    converts them), in which case the held quantity is the smaller
    number; a failed sale leaves the account as it was, and no exception
    escapes. *)
Theorem sell_stock_outcomes (a : account) (t : string) (q : sell_qty) :
  ((exists a', sell_stock a t q = Quit NotOwned a') <->
   stocks_owned a !! t = None)
  /\ ((exists a', sell_stock a t q = Quit OversellAttempt a') <->
      (exists h, stocks_owned a !! t = Some h
                 /\ below (quantity h) (asked q h)))
  /\ (forall h, stocks_owned a !! t = Some h ->
                below (quantity h) (asked q h) ->
                toQ (quantity h) < toQ (asked q h))
  /\ (forall e a', sell_stock a t q = Quit e a' ->
                   a' = a /\ (e = NotOwned \/ e = OversellAttempt))
  /\ (forall x a', sell_stock a t q <> Raise x a').
Proof.
  split; [|split; [|split; [intros h _; apply below_lt|]]].
  all: unfold sell_stock.
  all: destruct (stocks_owned a !! t) as [h|] eqn:Hh.
  all: try fold (asked q h).
  all: try destruct (quantity h - asked q h >=? zero)%num eqn:Hge.
  - split; [intros [a' [=]] | intros [=]].
  - split; [intros [a' [=]] | intros [=]].
  - split; [done | intros _; by exists a].
  - apply sub_covers in Hge.
    split; [intros [a' [=]] | intros (h' & [= <-] & Hlt); contradiction].
  - apply sub_neg in Hge.
    split; [intros _; by exists h | intros _; by exists a].
  - split; [intros [a' [=]] | intros (h & [=] & _)].
  - split; [intros e a' [=] | intros x a' [=]].
  - split; [|intros x a' [=]].
    intros e a' [= <- <-]. split; [done | by right].
  - split; [|intros x a' [=]].
    intros e a' [= <- <-]. split; [done | by left].
Qed.

(** The comparison is that of the floats.  An int quantity of
    [2 ^ 53 + 3] converts to the float [2 ^ 53 + 4]: asked for that
    float, the sale goes through and removes the holding, although the
    holding has less. *)
Example sell_stock_rounds_quantity :
  (forall h, stocks_owned wide_holding !! "A"%string = Some h ->
             toQ (quantity h) < toQ (Flt 9007199254740996))
  /\ match sell_stock wide_holding "A" (Qty (Flt 9007199254740996)) with
     | Ok a' => stocks_owned a' !! "A"%string = None
     | _ => False
     end.
Proof. split; [intros h [= <-]|]; by vm_compute. Qed.

(** A sale of a quantity that the holding is not below succeeds: it
    credits [quantity * current_p - fee] (computed in the arithmetic of
    the code), counts one transaction, removes the holding when the
    computed rest is zero and otherwise only lowers its quantity (the
    average bought price, the current price and the order stay), and
    touches nothing else. *)
Theorem sell_stock_effects (a : account) (t : string) (q : sell_qty)
    (h : holding) :
  stocks_owned a !! t = Some h ->
  ~ below (quantity h) (asked q h) ->
  exists a',
    sell_stock a t q = Ok a'
    /\ funds a' =
         (funds a + (asked q h * current_p h - TRANSACTION_FEE a))%num
    /\ transactions a' = (transactions a + 1)%Z
    /\ (toQ (quantity h - asked q h)%num == 0 -> stocks_owned a' !! t = None)
    /\ (~ toQ (quantity h - asked q h)%num == 0 ->
        stocks_owned a' !! t = Some (remaining h (asked q h)))
    /\ (toQ (asked q h) == toQ (quantity h) -> stocks_owned a' !! t = None)
    /\ (forall t', t' <> t -> stocks_owned a' !! t' = stocks_owned a !! t')
    /\ latest_prices a' = latest_prices a
    /\ original_prices a' = original_prices a
    /\ initial_funds a' = initial_funds a
    /\ TRANSACTION_FEE a' = TRANSACTION_FEE a.
Proof.
  intros Hh Hle. unfold sell_stock. rewrite Hh. fold (asked q h).
  apply sub_covers in Hle. rewrite Hle. eexists. split; [reflexivity|].
  cbn -[toQ Qeq add sub mul eqb].
  destruct (quantity h - asked q h =? zero)%num eqn:Hz;
    cbn -[toQ Qeq add sub mul eqb];
    (split; [done|]); (split; [done|]).
  - apply eqb_eq in Hz. rewrite toQ_zero in Hz.
    split; [intros _; apply lookup_delete_eq|].
    split; [intros Hne; by destruct Hne|].
    split; [intros _; apply lookup_delete_eq|].
    split; [intros t' Hne; by rewrite lookup_delete_ne|done].
  - apply eqb_neq in Hz. rewrite toQ_zero in Hz.
    split; [intros Heq; by destruct Hz|].
    split; [intros _; by rewrite lookup_insert_eq|].
    split.
    { intros Heq. exfalso.
      assert (E : (quantity h - asked q h =? zero)%num = true)
        by (apply sub_eq_zero; lra).
      apply eqb_eq in E. rewrite toQ_zero in E. contradiction. }
    split; [intros t' Hne; by rewrite lookup_insert_ne|done].
Qed.

Lemma sell_stock_effects_witness :
  exists a', sell_stock falling "A" (Qty (Int 5)) = Ok a'
             /\ stocks_owned a' !! "A"%string
                = Some (remaining falling_holding (Int 5)).
Proof.
  destruct (sell_stock_effects falling "A" (Qty (Int 5)) falling_holding)
    as (a' & Hrun & _ & _ & _ & Hleft & _).
  - vm_compute. reflexivity.
  - vm_compute. discriminate.
  - exists a'. split; [exact Hrun|]. apply Hleft. vm_compute. discriminate.
Defined.

(** Selling ["all"] of a held ticker never fails, whatever the holding:
    the entry is removed with its order and the funds are credited with
    the whole quantity at the current price, less the fee, computed in
    the arithmetic of the code. *)
Theorem sell_stock_all (a : account) (t : string) (h : holding) :
  stocks_owned a !! t = Some h ->
  exists a',
    sell_stock a t All = Ok a'
    /\ stocks_owned a' = delete t (stocks_owned a)
    /\ funds a' =
         (funds a + (quantity h * current_p h - TRANSACTION_FEE a))%num
    /\ transactions a' = (transactions a + 1)%Z.
Proof.
  intros Hh. unfold sell_stock. rewrite Hh.
  assert (Hge : (quantity h - quantity h >=? zero)%num = true).
  { apply sub_nonneg. apply Qle_refl. }
  assert (Hz : (quantity h - quantity h =? zero)%num = true).
  { apply sub_eq_zero. reflexivity. }
  rewrite Hge. cbn -[toQ Qeq add sub mul eqb]. rewrite Hz.
  eexists. split; [reflexivity|]. by cbn -[toQ Qeq add sub mul eqb].
Qed.

Lemma sell_stock_all_witness :
  exists a', sell_stock falling "A" All = Ok a'
             /\ stocks_owned a' = delete "A"%string (stocks_owned falling).
Proof.
  destruct (sell_stock_all falling "A" falling_holding) as (a' & Hrun & Hst & _).
  - vm_compute. reflexivity.
  - exists a'. split; [exact Hrun | exact Hst].
Defined.

(** ** Further properties: placing a trailing stop *)

Lemma fee_checked a :
  (funds a - TRANSACTION_FEE a >=? zero)%num = true
  <-> ~ below (funds a) (TRANSACTION_FEE a).
Proof. apply sub_covers. Qed.

Lemma fee_unchecked a :
  (funds a - TRANSACTION_FEE a >=? zero)%num = false
  <-> below (funds a) (TRANSACTION_FEE a).
Proof. apply sub_neg. Qed.

(** [trailing_stop] step by step, for a held ticker and funds that
    cover the fee. *)
Lemma trailing_stop_held a t q pts pct h :
  ~ below (funds a) (TRANSACTION_FEE a) ->
  stocks_owned a !! t = Some h ->
  trailing_stop a t q pts pct =
    if (oquantity (requested h q pts pct) >? quantity h)%num
    then Quit OrderExceedsHoldings
           (set_stocks
              (<[t := set_options (Some (requested h q pts pct)) h]>
                 (stocks_owned a)) a)
    else Ok (set_stocks
               (<[t := set_options (Some (placed h q pts pct)) h]>
                  (stocks_owned a)) a).
Proof.
  intros Hfee Hh. unfold trailing_stop. rewrite div_hundred.
  apply fee_checked in Hfee. rewrite Hfee, Hh.
  unfold placed, requested.
  destruct (options h) as [o|]; cbn -[gtb toQ percent add];
    destruct (_ >? _)%num; try done; by destruct pct.
Qed.

Lemma trailing_stop_unfunded a t q pts pct :
  below (funds a) (TRANSACTION_FEE a) ->
  trailing_stop a t q pts pct = Quit InsufficientFunds a.
Proof.
  intros Hlt. unfold trailing_stop. apply fee_unchecked in Hlt. by rewrite Hlt.
Qed.

Lemma trailing_stop_unheld a t q pts pct :
  ~ below (funds a) (TRANSACTION_FEE a) ->
  stocks_owned a !! t = None ->
  trailing_stop a t q pts pct = Raise KeyError a.
Proof.
  intros Hle Hh. unfold trailing_stop. apply fee_checked in Hle.
  by rewrite Hle, Hh.
Qed.

(** Whether the funds are below the fee. *)
Lemma below_dec x y : {below x y} + {~ below x y}.
Proof.
  destruct (x - y >=? zero)%num eqn:E.
  - right. by apply sub_covers.
  - left. by apply sub_neg.
Qed.

(** Which way a [trailing_stop] call ends: the insufficient-funds
    diagnostic exactly when the funds are below the fee (held or not);
    otherwise the [KeyError] of the holdings lookup escapes, with the
    account unchanged, exactly when the ticker is not held, and no other
    exception ever escapes; otherwise the order-exceeds-holdings
    diagnostic exactly when the requested quantity, added to that of an
    existing order, is above the held quantity; otherwise a normal
    return. *)
Theorem trailing_stop_outcomes (a : account) (t : string) (q pts : num)
    (pct : bool) :
  ((exists a', trailing_stop a t q pts pct = Quit InsufficientFunds a')
   <-> below (funds a) (TRANSACTION_FEE a))
  /\ (trailing_stop a t q pts pct = Raise KeyError a
      <-> ~ below (funds a) (TRANSACTION_FEE a)
          /\ stocks_owned a !! t = None)
  /\ (forall x a', trailing_stop a t q pts pct = Raise x a' ->
                   x = KeyError /\ a' = a)
  /\ ((exists a', trailing_stop a t q pts pct = Quit OrderExceedsHoldings a')
      <-> ~ below (funds a) (TRANSACTION_FEE a)
          /\ exists h, stocks_owned a !! t = Some h
                       /\ toQ (quantity h)
                          < toQ (oquantity (requested h q pts pct)))
  /\ ((exists a', trailing_stop a t q pts pct = Ok a')
      <-> ~ below (funds a) (TRANSACTION_FEE a)
          /\ exists h, stocks_owned a !! t = Some h
                       /\ toQ (oquantity (requested h q pts pct))
                          <= toQ (quantity h)).
Proof.
  destruct (below_dec (funds a) (TRANSACTION_FEE a)) as [Hlt|Hle].
  { rewrite (trailing_stop_unfunded a t q pts pct Hlt).
    split; [|split; [|split; [|split]]].
    - split; [done | intros _; by exists a].
    - split; [done | intros [Hle _]; contradiction].
    - intros x a' [=].
    - split; [intros [a' [=]] | intros [Hle _]; contradiction].
    - split; [intros [a' [=]] | intros [Hle _]; contradiction]. }
  destruct (stocks_owned a !! t) as [h|] eqn:Hh.
  2:{ rewrite (trailing_stop_unheld a t q pts pct Hle Hh).
      split; [|split; [|split; [|split]]].
      - split; [intros [a' [=]] | intros Hlt; contradiction].
      - split; done.
      - by intros x a' [= <- <-].
      - split; [intros [a' [=]] | intros (_ & h & [=] & _)].
      - split; [intros [a' [=]] | intros (_ & h & [=] & _)]. }
  rewrite (trailing_stop_held a t q pts pct h Hle Hh).
  destruct (oquantity (requested h q pts pct) >? quantity h)%num eqn:Hgt.
  - apply gtb_gt in Hgt. split; [|split; [|split; [|split]]].
    + split; [intros [a' [=]] | intros Hlt; contradiction].
    + split; [done | intros [_ [=]]].
    + intros x a' [=].
    + split; [intros _; split; [done|]; by exists h | intros _; by eexists].
    + split; [intros [a' [=]] | intros (_ & h' & [= <-] & Hle'); lra].
  - apply gtb_le in Hgt. split; [|split; [|split; [|split]]].
    + split; [intros [a' [=]] | intros Hlt; contradiction].
    + split; [done | intros [_ [=]]].
    + intros x a' [=].
    + split; [intros [a' [=]] | intros (_ & h' & [= <-] & Hlt'); lra].
    + split; [intros _; split; [done|]; by exists h | intros _; by eexists].
Qed.

(** A successful [trailing_stop] leaves one order on the holding, for at
    most the held quantity.  A first order starts its watermark at the
    current price; a further call adds its quantity to the order, keeps
    the watermark and the percentage flag of the order, and replaces the
    points.  The points of a percentage call are stored as the float
    [points / 100.0] (the float nearest to a hundredth of the points,
    which is not always that hundredth), also when they are merged into
    an order that is not a percentage order.  Quantity, prices and every
    other holding stay. *)
Theorem trailing_stop_places (a : account) (t : string) (q pts : num)
    (pct : bool) (h : holding) :
  toQ (TRANSACTION_FEE a) <= toQ (funds a) ->
  stocks_owned a !! t = Some h ->
  toQ (oquantity (requested h q pts pct)) <= toQ (quantity h) ->
  exists a' o',
    trailing_stop a t q pts pct = Ok a'
    /\ stocks_owned a' = <[t := set_options (Some o') h]> (stocks_owned a)
    /\ toQ (oquantity o') <= toQ (quantity h)
    /\ points o' = (if pct then percent pts else pts)
    /\ toQ (percent pts) = round64 (fval pts / 100)
    /\ match options h with
       | None => percentage o' = pct /\ highest o' = current_p h
                 /\ oquantity o' = q
       | Some o => percentage o' = percentage o /\ highest o' = highest o
                   /\ oquantity o' = (oquantity o + q)%num
       end.
Proof.
  intros Hfee Hh Hfits. apply le_not_below in Hfee.
  rewrite (trailing_stop_held a t q pts pct h Hfee Hh).
  apply gtb_le in Hfits. rewrite Hfits. apply gtb_le in Hfits.
  exists (set_stocks
            (<[t := set_options (Some (placed h q pts pct)) h]> (stocks_owned a)) a),
         (placed h q pts pct).
  split; [done|]. split; [done|]. split; [exact Hfits|]. split; [done|].
  split.
  { unfold percent. cbn [toQ]. rewrite round64_idem.
    apply round64_comp. unfold hundred. cbn [fval].
    assert (E : round64 100 == 100) by (vm_compute; reflexivity).
    by rewrite E. }
  unfold placed, requested. by destruct (options h).
Qed.

Lemma trailing_stop_places_witness :
  exists a' o',
    trailing_stop holding_five "A" (Int 5) (Int 55) true = Ok a'
    /\ stocks_owned a' !! "A"%string
       = Some {| quantity := Int 5; bought_p := Int 10; current_p := Int 10;
                 options := Some o' |}
    /\ points o' = percent (Int 55)
    /\ highest o' = Int 10.
Proof.
  destruct (trailing_stop_places holding_five "A" (Int 5) (Int 55) true
              {| quantity := Int 5; bought_p := Int 10; current_p := Int 10;
                 options := None |})
    as (a' & o' & Hrun & Hst & _ & Hpts & _ & _ & Hhi & _).
  - vm_compute. discriminate.
  - vm_compute. reflexivity.
  - vm_compute. discriminate.
  - exists a', o'. split; [exact Hrun|]. split.
    + rewrite Hst. apply lookup_insert_eq.
    + split; [exact Hpts | exact Hhi].
Defined.

(** The stored points of 55 percent are the float 0.55000000000000004,
    above 0.55. *)
Example percent_rounds :
  percent (Int 55) = Flt (2476979795053773 # 4503599627370496)
  /\ 55 # 100 < toQ (percent (Int 55))
  /\ percent (Int 10) = Flt (3602879701896397 # 36028797018963968).
Proof. by vm_compute. Qed.

(** A [trailing_stop] call that fails because the order would exceed
    the holding is not rolled back: the account it quits with carries
    the requested order (for a further call, the enlarged quantity and
    the new points), with the points as passed, not yet divided by 100;
    when the holding had no order, that account differs from the one
    before the call. *)
Theorem trailing_stop_not_rolled_back (a : account) (t : string)
    (q pts : num) (pct : bool) (h : holding) :
  toQ (TRANSACTION_FEE a) <= toQ (funds a) ->
  stocks_owned a !! t = Some h ->
  toQ (quantity h) < toQ (oquantity (requested h q pts pct)) ->
  exists a',
    trailing_stop a t q pts pct = Quit OrderExceedsHoldings a'
    /\ stocks_owned a' !! t =
         Some (set_options (Some (requested h q pts pct)) h)
    /\ points (requested h q pts pct) = pts
    /\ (options h = None -> a' <> a).
Proof.
  intros Hfee Hh Hover. apply le_not_below in Hfee.
  rewrite (trailing_stop_held a t q pts pct h Hfee Hh).
  apply gtb_gt in Hover. rewrite Hover.
  eexists. split; [reflexivity|]. cbn -[toQ].
  split; [apply lookup_insert_eq|].
  split; [unfold requested; by destruct (options h)|].
  intros Hnone E. apply (f_equal (fun x => stocks_owned x !! t)) in E.
  cbn -[toQ] in E. rewrite lookup_insert_eq, Hh in E. injection E as E.
  apply (f_equal options) in E. cbn -[toQ] in E. congruence.
Qed.

Lemma trailing_stop_not_rolled_back_witness :
  exists a',
    trailing_stop holding_five "A" (Int 6) (Int 2) false
    = Quit OrderExceedsHoldings a'
    /\ a' <> holding_five.
Proof.
  destruct (trailing_stop_not_rolled_back holding_five "A" (Int 6) (Int 2) false
              {| quantity := Int 5; bought_p := Int 10; current_p := Int 10;
                 options := None |})
    as (a' & Hrun & _ & _ & Hne).
  - vm_compute. discriminate.
  - vm_compute. reflexivity.
  - vm_compute. reflexivity.
  - exists a'. split; [exact Hrun | by apply Hne].
Defined.

(** Placing a trailing stop costs nothing, however the call ends: funds,
    transaction count, prices and every other holding are as before, and
    the holding of the ticker keeps its quantity and prices. *)
Theorem trailing_stop_charges_nothing (a : account) (t : string)
    (q pts : num) (pct : bool) :
  let a' := state_of (trailing_stop a t q pts pct) in
  funds a' = funds a
  /\ transactions a' = transactions a
  /\ latest_prices a' = latest_prices a
  /\ original_prices a' = original_prices a
  /\ (forall t', t' <> t -> stocks_owned a' !! t' = stocks_owned a !! t')
  /\ (forall h, stocks_owned a !! t = Some h ->
                exists h', stocks_owned a' !! t = Some h'
                           /\ quantity h' = quantity h
                           /\ bought_p h' = bought_p h
                           /\ current_p h' = current_p h)
  /\ (stocks_owned a !! t = None -> stocks_owned a' !! t = None).
Proof.
  destruct (below_dec (funds a) (TRANSACTION_FEE a)) as [Hlt|Hle].
  { rewrite (trailing_stop_unfunded a t q pts pct Hlt).
    cbn. repeat split; try done. intros h Hh. by exists h. }
  destruct (stocks_owned a !! t) as [h|] eqn:Hh.
  2:{ rewrite (trailing_stop_unheld a t q pts pct Hle Hh).
      cbn. repeat split; try done. }
  rewrite (trailing_stop_held a t q pts pct h Hle Hh).
  destruct (_ >? _)%num; cbn; repeat split; try done;
    try (intros t' Hne; by rewrite lookup_insert_ne);
    intros h0 [= <-]; rewrite lookup_insert_eq; by eexists.
Qed.

(** ** Further properties: price updates *)

Lemma only_at_refl k a : only_at k a a.
Proof. repeat split; try done. intros h' Hh. by exists h'. Qed.

Lemma only_at_trans k a b c : only_at k a b -> only_at k b c -> only_at k a c.
Proof.
  intros (Hl1 & Ho1 & Hk1) (Hl2 & Ho2 & Hk2). split; [congruence|]. split.
  - intros t Hne. rewrite Ho2, Ho1; done.
  - intros h3 H3. destruct (Hk2 h3 H3) as (h2 & H2 & E2).
    destruct (Hk1 h2 H2) as (h1 & H1 & E1). exists h1. split; congruence.
Qed.

Lemma only_at_insert k a h h1 :
  stocks_owned a !! k = Some h -> current_p h1 = current_p h ->
  only_at k a (set_stocks (<[k := h1]> (stocks_owned a)) a).
Proof.
  intros Hh Hc. split; [done|]. split.
  - intros t Hne. cbn. by rewrite lookup_insert_ne.
  - intros h'. cbn. rewrite lookup_insert_eq. intros [= <-]. by exists h.
Qed.

Lemma only_at_delete k a :
  only_at k a (set_stocks (delete k (stocks_owned a)) a).
Proof.
  split; [done|]. split.
  - intros t Hne. cbn. by rewrite lookup_delete_ne.
  - intros h'. cbn. by rewrite lookup_delete_eq.
Qed.

Lemma sell_stock_only_at a k q : only_at k a (state_of (sell_stock a k q)).
Proof.
  unfold sell_stock.
  destruct (stocks_owned a !! k) as [h|] eqn:Hh; [|apply only_at_refl].
  destruct (_ >=? _)%num; [|apply only_at_refl].
  cbn -[eqb add sub mul]. destruct (_ =? _)%num.
  - split; [done|]. split.
    + intros t Hne. cbn. by rewrite lookup_delete_ne.
    + intros h'. cbn. by rewrite lookup_delete_eq.
  - split; [done|]. split.
    + intros t Hne. cbn. by rewrite lookup_insert_ne.
    + intros h'. cbn. rewrite lookup_insert_eq. intros [= <-]. by exists h.
Qed.

Lemma drop_trailing_stop_only_at k a : only_at k a (drop_trailing_stop k a).
Proof.
  unfold drop_trailing_stop.
  destruct (stocks_owned a !! k) as [h|] eqn:Hh; [|apply only_at_refl].
  by apply (only_at_insert k a h).
Qed.

Lemma update_trailing_stop_only_at a k :
  only_at k a (state_of (update_trailing_stop a k)).
Proof.
  unfold update_trailing_stop.
  destruct (stocks_owned a !! k) as [h|] eqn:Hh; [|apply only_at_refl].
  destruct (options h) as [o|]; [|apply only_at_refl].
  destruct (_ >? _)%num.
  - destruct (_ <=? _)%num; [|apply only_at_refl].
    pose proof (sell_stock_only_at a k (Qty (oquantity o))) as Hs.
    destruct (sell_stock a k (Qty (oquantity o))) as [a1|e a1|e a1];
      simpl in *; try done.
    eapply only_at_trans; [exact Hs | apply drop_trailing_stop_only_at].
  - by apply (only_at_insert k a h).
Qed.

(** One iteration of the loop of [update]: only the holding of its
    ticker changes, and what is left of it carries the latest price. *)
Lemma update_one_sync k a :
  let a' := state_of (update_one k a) in
  latest_prices a' = latest_prices a
  /\ (forall t, t <> k -> stocks_owned a' !! t = stocks_owned a !! t)
  /\ (forall h', stocks_owned a' !! k = Some h' ->
        is_Some (stocks_owned a !! k)
        /\ (forall p, latest_prices a !! k = Some p -> current_p h' = p)
        /\ (latest_prices a !! k = None -> stocks_owned a !! k = Some h')).
Proof.
  unfold update_one.
  destruct (latest_prices a !! k) as [p|] eqn:Hp.
  2:{ cbn. repeat split; try done; try (by eexists). }
  destruct (stocks_owned a !! k) as [h|] eqn:Hh.
  2:{ cbn. rewrite Hh. repeat split; try done. }
  set (a1 := set_stocks _ a).
  assert (Hfinal : forall a', only_at k a1 a' ->
            latest_prices a' = latest_prices a
            /\ (forall t, t <> k -> stocks_owned a' !! t = stocks_owned a !! t)
            /\ (forall h', stocks_owned a' !! k = Some h' ->
                  is_Some (Some h)
                  /\ (forall p0, Some p = Some p0 -> current_p h' = p0)
                  /\ (None = Some p -> Some h = Some h'))).
  { intros a' (Hl & Ho & Hk). split; [done|]. split.
    - intros t Hne. rewrite (Ho t Hne). subst a1. cbn.
      by rewrite lookup_insert_ne.
    - intros h' Hh'. destruct (Hk h' Hh') as (h1 & H1 & Hc).
      subst a1. cbn in H1. rewrite lookup_insert_eq in H1.
      injection H1 as <-. split; [by eexists|]. split; [|done].
      intros p0 [= <-]. by rewrite Hc. }
  cbn [options set_current_p]. destruct (options h).
  - specialize (Hfinal _ (update_trailing_stop_only_at a1 k)).
    destruct Hfinal as (H1 & H2 & H3). split; [done|]. split; [done|].
    intros h' Hh'. destruct (H3 h' Hh') as (_ & H4 & _).
    split; [by eexists|]. split; [|done]. intros p0 [= <-]. by apply H4.
  - specialize (Hfinal _ (only_at_refl k a1)).
    destruct Hfinal as (H1 & H2 & H3). split; [done|]. split; [done|].
    intros h' Hh'. destruct (H3 h' Hh') as (_ & H4 & _).
    split; [by eexists|]. split; [|done]. intros p0 [= <-]. by apply H4.
Qed.

Lemma update_loop_sync (l : list (string * holding)) a a' :
  NoDup l.*1 ->
  for_each (fun kv => update_one kv.1) l a = Ok a' ->
  latest_prices a' = latest_prices a
  /\ (forall t, t ∉ l.*1 -> stocks_owned a' !! t = stocks_owned a !! t)
  /\ (forall t h', t ∈ l.*1 -> stocks_owned a' !! t = Some h' ->
        is_Some (stocks_owned a !! t)
        /\ (forall p, latest_prices a !! t = Some p -> current_p h' = p)
        /\ (latest_prices a !! t = None -> stocks_owned a !! t = Some h')).
Proof.
  revert a. induction l as [|[k x] l IH]; intros a Hnd Hrun.
  - injection Hrun as <-. split; [done|]. split; [done|].
    intros t h' Hin. by apply elem_of_nil in Hin.
  - rewrite fmap_cons in Hnd. apply NoDup_cons in Hnd as [Hk Hnd].
    cbn [for_each fst] in Hrun.
    pose proof (update_one_sync k a) as (Hl1 & Ho1 & Hk1).
    destruct (update_one k a) as [a1|e a1|e a1]; [|done|done].
    cbn [bind state_of] in *.
    destruct (IH a1 Hnd Hrun) as (Hl & Ho & Hin).
    rewrite fmap_cons. split; [congruence|]. split.
    + intros t Hnot. apply not_elem_of_cons in Hnot as [Hne Hnot].
      rewrite (Ho t Hnot). by apply Ho1.
    + intros t h' Ht Hh'. cbn [fst] in Ht.
      destruct (decide (t = k)) as [->|Hne].
      * rewrite (Ho k Hk) in Hh'. by apply Hk1.
      * apply elem_of_cons in Ht as [?|Ht]; [done|].
        destruct (Hin t h' Ht Hh') as (H1 & H2 & H3).
        rewrite Hl1, (Ho1 t Hne) in *. done.
Qed.

(** The first step of [update]: the original price of the named ticker
    is recorded, and nothing else is touched. *)
Lemma update_records a (prices : gmap string num) t a1 :
  match original_prices a !! t with
  | Some _ => Ok a
  | None =>
      match prices !! t with
      | None => Raise KeyError a
      | Some p => Ok (set_original (<[t := p]> (original_prices a)) a)
      end
  end = Ok a1 ->
  stocks_owned a1 = stocks_owned a /\ funds a1 = funds a
  /\ transactions a1 = transactions a
  /\ (is_Some (original_prices a !! t) \/ is_Some (prices !! t)).
Proof.
  destruct (original_prices a !! t) as [v|].
  - intros [= <-]. repeat split; try done. left. by eexists.
  - destruct (prices !! t) as [p|]; [|done].
    intros [= <-]. repeat split; try done. right. by eexists.
Qed.

(** What a normal return of [update] tells about each holding left. *)
Lemma update_ok_facts (a : account) (prices : gmap string num)
    (tk : string) (a' : account) :
  update a prices tk = Ok a' ->
  latest_prices a' = prices
  /\ (forall t h', stocks_owned a' !! t = Some h' ->
        exists h, stocks_owned a !! t = Some h
                  /\ match prices !! t with
                     | Some p => current_p h' = p
                     | None => h' = h
                     end).
Proof.
  unfold update.
  destruct (match original_prices a !! tk with Some _ => _ | None => _ end)
    as [a1|e a1|e a1] eqn:Hrec; [|done|done].
  apply update_records in Hrec as (Hst & _).
  cbn [bind]. set (a2 := set_latest prices a1). intros Hrun.
  destruct (update_loop_sync _ a2 a' (NoDup_fst_map_to_list _) Hrun)
    as (Hl & Ho & Hin).
  split; [by rewrite Hl|].
  intros t h' Hh'.
  destruct (decide (t ∈ (map_to_list (stocks_owned a2)).*1)) as [Ht|Ht].
  - destruct (Hin t h' Ht Hh') as ([h Hh] & Hp & Hn).
    subst a2. cbn in Hh, Hp, Hn. rewrite Hst in Hh, Hn.
    exists h. split; [done|].
    destruct (prices !! t) as [p|]; [by apply Hp|].
    specialize (Hn eq_refl). congruence.
  - exfalso. apply Ht. rewrite (Ho t Ht) in Hh'.
    apply list_elem_of_fmap. exists (t, h'). split; [done|].
    by apply elem_of_map_to_list.
Qed.

(** An [update] that returns normally has replaced the latest prices by
    the snapshot; every holding left whose ticker the snapshot quotes is
    priced at the quote, a holding the snapshot does not quote is exactly
    as before, and no holding has appeared. *)
Theorem update_refreshes (a : account) (prices : gmap string num)
    (tk : string) (a' : account) :
  update a prices tk = Ok a' ->
  latest_prices a' = prices
  /\ (forall t h' p, stocks_owned a' !! t = Some h' ->
                     prices !! t = Some p -> current_p h' = p)
  /\ (forall t h', stocks_owned a' !! t = Some h' ->
                   prices !! t = None -> stocks_owned a !! t = Some h')
  /\ (forall t, stocks_owned a !! t = None -> stocks_owned a' !! t = None).
Proof.
  intros Hrun. destruct (update_ok_facts a prices tk a' Hrun) as [Hl Hfacts].
  split; [exact Hl|]. split; [|split].
  - intros t h' p Hh' Hp. destruct (Hfacts t h' Hh') as (h & _ & Hcur).
    by rewrite Hp in Hcur.
  - intros t h' Hh' Hp. destruct (Hfacts t h' Hh') as (h & Hh & Hsame).
    rewrite Hp in Hsame. by subst h'.
  - intros t Hnone. destruct (stocks_owned a' !! t) as [h'|] eqn:Hh'; [|done].
    destruct (Hfacts t h' Hh') as (h & Hh & _). congruence.
Qed.

Lemma update_refreshes_witness :
  latest_prices (state_of (update holding_five (quote (Int 12)) "A"))
  = quote (Int 12).
Proof.
  refine (proj1 (update_refreshes holding_five (quote (Int 12)) "A" _ _)).
  vm_compute. reflexivity.
Defined.

Lemma set_stocks_same a : set_stocks (stocks_owned a) a = a.
Proof. by destruct a. Qed.

(** One iteration of the loop of [update] on a holding without an
    order. *)
Lemma update_one_plain k a h :
  stocks_owned a !! k = Some h -> options h = None ->
  update_one k a =
    Ok (set_stocks (<[k := refreshed (latest_prices a) k h]> (stocks_owned a)) a).
Proof.
  intros Hh Ho. unfold update_one, refreshed.
  destruct (latest_prices a !! k) as [p|].
  - rewrite Hh. cbn [options set_current_p]. by rewrite Ho.
  - by rewrite insert_id, set_stocks_same.
Qed.

Lemma update_loop_plain (l : list (string * holding)) a :
  NoDup l.*1 ->
  (forall k h, (k, h) ∈ l -> stocks_owned a !! k = Some h /\ options h = None) ->
  exists a',
    for_each (fun kv => update_one kv.1) l a = Ok a'
    /\ funds a' = funds a /\ transactions a' = transactions a
    /\ latest_prices a' = latest_prices a
    /\ original_prices a' = original_prices a
    /\ (forall t, stocks_owned a' !! t =
                  if decide (t ∈ l.*1)
                  then refreshed (latest_prices a) t <$> stocks_owned a !! t
                  else stocks_owned a !! t).
Proof.
  revert a. induction l as [|[k h] l IH]; intros a Hnd Hin.
  - exists a. by repeat split.
  - rewrite fmap_cons in Hnd. apply NoDup_cons in Hnd as [Hk Hnd].
    destruct (Hin k h) as [Hh Ho]; [left|].
    cbn [for_each fst]. rewrite (update_one_plain k a h Hh Ho). cbn [bind].
    set (a1 := set_stocks _ a).
    destruct (IH a1 Hnd) as (a' & Hrun & Hf & Htr & Hl & Hor & Hst).
    { intros k' h' Hin'. subst a1. cbn.
      rewrite lookup_insert_ne.
      - apply Hin. by right.
      - intros ->. apply Hk. apply list_elem_of_fmap. by exists (k', h'). }
    exists a'. split; [done|]. rewrite fmap_cons. repeat split; try done.
    intros t. rewrite Hst. subst a1. cbn [stocks_owned set_stocks latest_prices fst].
    destruct (decide (t = k)) as [->|Hne].
    + rewrite lookup_insert_eq, Hh.
      rewrite (decide_False (P := k ∈ l.*1)) by done.
      rewrite decide_True by left. done.
    + rewrite lookup_insert_ne by done.
      destruct (decide (t ∈ l.*1)) as [Ht|Ht].
      * rewrite decide_True by (by right). done.
      * rewrite decide_False; [done|].
        intros [?|?]%elem_of_cons; contradiction.
Qed.

(** On an account without trailing-stop orders, an [update] whose ticker
    has an original price or is quoted by the snapshot returns normally
    and only refreshes prices: funds, transaction count and the quantity,
    average bought price and (absent) order of every holding stay. *)
Theorem update_without_orders (a : account) (prices : gmap string num)
    (tk : string) :
  (forall t h, stocks_owned a !! t = Some h -> options h = None) ->
  is_Some (original_prices a !! tk) \/ is_Some (prices !! tk) ->
  exists a',
    update a prices tk = Ok a'
    /\ funds a' = funds a
    /\ transactions a' = transactions a
    /\ latest_prices a' = prices
    /\ (forall t, stocks_owned a' !! t = refreshed prices t <$> stocks_owned a !! t).
Proof.
  intros Hplain Hknown. unfold update.
  set (r := match original_prices a !! tk with Some _ => _ | None => _ end).
  assert (Hr : exists a1, r = Ok a1 /\ stocks_owned a1 = stocks_owned a
                          /\ funds a1 = funds a
                          /\ transactions a1 = transactions a).
  { subst r. destruct (original_prices a !! tk) as [v|]; [by exists a|].
    destruct Hknown as [[? [=]]|[p Hp]]. rewrite Hp. by eexists. }
  destruct Hr as (a1 & -> & Hst & Hf & Htr). cbn [bind].
  set (a2 := set_latest prices a1).
  destruct (update_loop_plain (map_to_list (stocks_owned a2)) a2)
    as (a' & Hrun & Hf' & Htr' & Hl & _ & Hst').
  - apply NoDup_fst_map_to_list.
  - intros k h Hin. apply elem_of_map_to_list in Hin. split; [done|].
    apply (Hplain k). subst a2. cbn in Hin. by rewrite Hst in Hin.
  - exists a'. split; [exact Hrun|]. split; [by rewrite Hf'|].
    split; [by rewrite Htr'|]. split; [by rewrite Hl|].
    intros t. rewrite Hst'. subst a2. cbn. rewrite Hst.
    case_decide as Hin; [done|].
    destruct (stocks_owned a !! t) as [h|] eqn:Hh; [|done].
    exfalso. apply Hin. apply list_elem_of_fmap. exists (t, h).
    split; [done|]. by apply elem_of_map_to_list.
Qed.

Lemma update_without_orders_witness :
  exists a', update holding_five (quote (Int 12)) "A" = Ok a'
             /\ funds a' = funds holding_five.
Proof.
  destruct (update_without_orders holding_five (quote (Int 12)) "A")
    as (a' & Hrun & Hf & _).
  - intros t h Hh. vm_compute in Hh.
    destruct (decide (t = "A"%string)) as [->|Hne].
    + vm_compute in Hh. by injection Hh as <-.
    + exfalso. revert Hh.
      change (({[ "A"%string := {| quantity := Int 5; bought_p := Int 10;
                                    current_p := Int 10; options := None |} ]}
                 : gmap string holding) !! t = Some h -> False).
      rewrite lookup_singleton_ne; done.
  - left. vm_compute. by eexists.
  - exists a'. split; [exact Hrun | exact Hf].
Defined.

(** ** Further properties: accounts reached by calls *)

Lemma only_at_in_sync k a a' : only_at k a a' -> in_sync a -> in_sync a'.
Proof.
  intros (Hl & Ho & Hk) Hsync t h' p Hh' Hp. rewrite Hl in Hp.
  destruct (decide (t = k)) as [->|Hne].
  - destruct (Hk h' Hh') as (h & Hh & ->). by apply (Hsync k).
  - rewrite (Ho t Hne) in Hh'. by apply (Hsync t).
Qed.

Lemma trailing_stop_only_at a k q pts pct :
  only_at k a (state_of (trailing_stop a k q pts pct)).
Proof.
  unfold trailing_stop. rewrite div_hundred.
  destruct (_ >=? _)%num; [|apply only_at_refl].
  destruct (stocks_owned a !! k) as [h|] eqn:Hh; [|apply only_at_refl].
  destruct (_ >? _)%num; [|destruct pct]; by apply (only_at_insert k a h).
Qed.

Lemma buy_stock_in_sync a t q a' :
  in_sync a -> buy_stock a t q = Ok a' -> in_sync a'.
Proof.
  intros Hsync. unfold buy_stock.
  destruct (latest_prices a !! t) as [price|] eqn:Hp; [|done].
  destruct (_ >=? _)%num; [|done].
  cbn [stocks_owned set_transactions set_funds].
  destruct (stocks_owned a !! t) as [h|] eqn:Hh.
  - destruct (div _ _); [|done]. intros [= <-] t' h' p. cbn.
    destruct (decide (t = t')) as [<-|Hne].
    + rewrite lookup_insert_eq. intros [= <-]. cbn. by apply (Hsync t).
    + rewrite lookup_insert_ne by done. by apply (Hsync t').
  - intros [= <-] t' h' p. cbn.
    destruct (decide (t = t')) as [<-|Hne].
    + rewrite lookup_insert_eq. intros [= <-]. cbn. congruence.
    + rewrite lookup_insert_ne by done. by apply (Hsync t').
Qed.

Lemma run_in_sync o a a' : in_sync a -> run o a = Ok a' -> in_sync a'.
Proof.
  intros Hsync. destruct o; cbn [run].
  - intros Hrun. destruct (update_ok_facts a prices ticker a' Hrun) as [Hl Hfacts].
    intros t h' p Hh' Hp. rewrite Hl in Hp.
    destruct (Hfacts t h' Hh') as (h & _ & Hcur). by rewrite Hp in Hcur.
  - by apply buy_stock_in_sync.
  - intros Hrun. pose proof (sell_stock_only_at a ticker q) as Ho.
    rewrite Hrun in Ho. by apply (only_at_in_sync ticker a).
  - intros Hrun. pose proof (trailing_stop_only_at a ticker q pts pct) as Ho.
    rewrite Hrun in Ho. by apply (only_at_in_sync ticker a).
  - intros Hrun.
    destruct (sell_all_loop (map_to_list (stocks_owned a)) a)
      as (a1 & Hrun1 & Hst & _ & _ & _ & _ & Hl & _).
    + apply NoDup_fst_map_to_list.
    + intros k h Hin. by apply elem_of_map_to_list.
    + unfold sell_all in Hrun. rewrite Hrun1 in Hrun. injection Hrun as <-.
      intros t h p Hh Hp. rewrite Hst in Hh. case_decide; [done|].
      rewrite Hl in Hp. by apply (Hsync t).
Qed.

(** After any sequence of calls that all return normally on a fresh
    account, every holding whose ticker has a latest price carries
    exactly that price as its current price: a sale is credited at the
    price a buy would be debited at. *)
Theorem current_price_is_latest (l : list op) (f fee : num) (a : account) :
  run_all l (init f fee) = Ok a ->
  forall t h p,
    stocks_owned a !! t = Some h -> latest_prices a !! t = Some p ->
    current_p h = p.
Proof.
  assert (Hgen : forall a0, in_sync a0 -> run_all l a0 = Ok a -> in_sync a).
  { induction l as [|o l IH]; intros a0 Hsync Hrun.
    - by injection Hrun as <-.
    - unfold run_all in *. cbn [for_each] in Hrun.
      destruct (run o a0) as [a1|e a1|e a1] eqn:Ho; [|done|done].
      apply (IH a1); [|done]. by apply (run_in_sync o a0). }
  intros Hrun. apply (Hgen (init f fee)); [|done].
  intros t h p. cbn. by rewrite lookup_empty.
Qed.

Lemma current_price_is_latest_witness :
  current_p {| quantity := Int 5; bought_p := Int 10; current_p := Int 10;
               options := None |} = Int 10.
Proof.
  refine (current_price_is_latest
            [Update (quote (Int 10)) "A"; Buy "A" (Int 5)]
            (Int 1000) (Int 1) holding_five _ "A" _ _ _ _);
    vm_compute; reflexivity.
Defined.

Lemma same_terms_refl a : same_terms a a.
Proof. done. Qed.

Lemma same_terms_trans a b c :
  same_terms a b -> same_terms b c -> same_terms a c.
Proof. intros [? ?] [? ?]. split; congruence. Qed.

Lemma sell_stock_terms a t q : same_terms a (state_of (sell_stock a t q)).
Proof.
  unfold sell_stock. destruct (stocks_owned a !! t); [|done].
  destruct (_ >=? _)%num; [|done]. cbn -[eqb]. by destruct (_ =? _)%num.
Qed.

Lemma update_trailing_stop_terms a t :
  same_terms a (state_of (update_trailing_stop a t)).
Proof.
  unfold update_trailing_stop.
  destruct (stocks_owned a !! t) as [h|]; [|done].
  destruct (options h) as [o|]; [|done].
  destruct (_ >? _)%num; [|done].
  destruct (_ <=? _)%num; [|done].
  pose proof (sell_stock_terms a t (Qty (oquantity o))) as Hs.
  destruct (sell_stock a t (Qty (oquantity o))) as [a1|e a1|e a1];
    simpl in *; try done.
  eapply same_terms_trans; [exact Hs|].
  unfold drop_trailing_stop. by destruct (stocks_owned a1 !! t).
Qed.

Lemma update_one_terms t a : same_terms a (state_of (update_one t a)).
Proof.
  unfold update_one.
  destruct (latest_prices a !! t) as [p|]; [|done].
  destruct (stocks_owned a !! t) as [h|]; [|done].
  cbn [options set_current_p]. destruct (options h); [|done].
  match goal with
  | |- same_terms a (state_of (update_trailing_stop ?a1 t)) =>
      apply (same_terms_trans a a1); [done|]
  end.
  apply update_trailing_stop_terms.
Qed.

Lemma run_terms o a : same_terms a (state_of (run o a)).
Proof.
  destruct o; cbn [run].
  - unfold update.
    set (r := match original_prices a !! ticker with Some _ => _ | None => _ end).
    assert (Hr : same_terms a (state_of r)).
    { subst r. destruct (original_prices a !! ticker); [done|].
      by destruct (prices !! ticker). }
    destruct r as [a1|e a1|e a1]; simpl in *; try done.
    eapply same_terms_trans; [exact Hr|].
    match goal with
    | |- same_terms a1 (state_of (for_each ?f ?l ?a2)) =>
        apply (same_terms_trans a1 a2); [done|];
        apply (for_each_preserves same_terms f
                 same_terms_refl same_terms_trans)
    end.
    intros [k x] a0. apply update_one_terms.
  - unfold buy_stock. destruct (latest_prices a !! ticker); [|done].
    destruct (_ >=? _)%num; [|done].
    cbn [stocks_owned set_transactions set_funds].
    destruct (stocks_owned a !! ticker); [|done]. by destruct (div _ _).
  - apply sell_stock_terms.
  - unfold trailing_stop. rewrite div_hundred. destruct (_ >=? _)%num; [|done].
    destruct (stocks_owned a !! ticker); [|done].
    destruct (_ >? _)%num; [done|]. by destruct pct.
  - unfold sell_all.
    apply (for_each_preserves same_terms);
      [apply same_terms_refl | apply same_terms_trans |].
    intros [k v] a0. unfold sell_all_one. cbn [fst].
    by destruct (stocks_owned a0 !! k).
Qed.

(** No call ever changes the initial funds or the transaction fee: on
    every observable account they are the constructor's arguments, so
    the profit of a report is always measured against the opening
    funds. *)
Theorem terms_are_fixed (f fee : num) (a : account) :
  reachable f fee a ->
  initial_funds a = f /\ TRANSACTION_FEE a = fee.
Proof.
  induction 1 as [|a o Hreach [IHf IHfee] _]; [done|].
  destruct (run_terms o a) as [Hf Hfee]. split; congruence.
Qed.

Lemma terms_are_fixed_witness :
  initial_funds holding_five = Int 1000 /\ TRANSACTION_FEE holding_five = Int 1.
Proof.
  apply terms_are_fixed.
  assert (E : holding_five =
              state_of (run (Buy "A" (Int 5))
                          (state_of (run (Update (quote (Int 10)) "A")
                                       (init (Int 1000) (Int 1))))))
    by (vm_compute; reflexivity).
  rewrite E. apply reach_step; [|exact I].
  apply reach_step; [apply reach_init | exact I].
Defined.

(** ** Further properties: what calls cost *)

Lemma holdings_value_perm (l1 l2 : list (string * holding)) :
  l1 ≡ₚ l2 -> holdings_value l1 == holdings_value l2.
Proof.
  induction 1 as [|[k h] l1 l2 _ IH|[k1 h1] [k2 h2] l|l1 l2 l3 _ IH1 _ IH2];
    cbn [holdings_value].
  - reflexivity.
  - by rewrite IH.
  - ring.
  - by rewrite IH1.
Qed.

Lemma holdings_value_delete (m : gmap string holding) t h :
  m !! t = Some h ->
  holdings_value (map_to_list m)
  == toQ (quantity h) * toQ (current_p h)
     + holdings_value (map_to_list (delete t m)).
Proof.
  intros Hh. by rewrite <- (holdings_value_perm _ _ (map_to_list_delete m t h Hh)).
Qed.

Lemma holdings_value_insert (m : gmap string holding) t h :
  holdings_value (map_to_list (<[t := h]> m))
  == toQ (quantity h) * toQ (current_p h)
     + holdings_value (map_to_list (delete t m)).
Proof.
  rewrite <- (insert_delete_eq m).
  rewrite (holdings_value_perm _ _
             (map_to_list_insert (delete t m) t h (lookup_delete_eq m t))).
  reflexivity.
Qed.

Create HintDb whole.
#[local] Hint Resolve whole_add whole_sub whole_mul : whole.

(** An account stays in whole numbers when its funds stay an int and its
    holdings keep int quantities and prices. *)
Lemma whole_account_intro a a' :
  whole_account a ->
  whole (funds a') ->
  TRANSACTION_FEE a' = TRANSACTION_FEE a ->
  latest_prices a' = latest_prices a ->
  (forall t h, stocks_owned a' !! t = Some h ->
               whole (quantity h) /\ whole (current_p h)) ->
  whole_account a'.
Proof.
  intros (Hf & Hfee & Hl & Hs) Hf' Efee El Hs'.
  split; [done|]. split; [by rewrite Efee|]. split; [by rewrite El|done].
Qed.

Lemma net_worth_sum a :
  whole_account a ->
  toQ (net_worth a)
  == toQ (funds a) + holdings_value (map_to_list (stocks_owned a)).
Proof.
  intros (Hf & _ & _ & Hs). unfold net_worth.
  destruct (value_is_sum a Hs) as [Hw He].
  by rewrite toQ_add, He.
Qed.

Lemma sell_stock_whole a t q a' :
  whole_account a -> whole_op (Sell t q) ->
  sell_stock a t q = Ok a' -> whole_account a'.
Proof.
  intros Hw Hq. pose proof Hw as (Hf & Hfee & Hl & Hs). unfold sell_stock.
  destruct (stocks_owned a !! t) as [h|] eqn:Hh; [|done].
  fold (asked q h). destruct (_ >=? _)%num; [|done].
  destruct (Hs t h Hh) as [Hwq Hwc].
  assert (Hwa : whole (asked q h)) by (by destruct q).
  intros [= <-]. apply (whole_account_intro a); [done| | | |].
  - cbn -[add sub mul eqb]. destruct (_ =? _)%num; cbn -[add sub mul];
      auto with whole.
  - cbn -[add sub mul eqb]. by destruct (_ =? _)%num.
  - cbn -[add sub mul eqb]. by destruct (_ =? _)%num.
  - intros t' h'. cbn -[add sub mul eqb].
    destruct (_ =? _)%num; cbn -[add sub mul eqb].
    + intros [_ H]%lookup_delete_Some. by apply (Hs t').
    + destruct (decide (t = t')) as [<-|Hne].
      * rewrite lookup_insert_eq. intros [= <-]. cbn -[sub].
        split; [auto with whole | done].
      * rewrite lookup_insert_ne by done. apply Hs.
Qed.

Lemma buy_stock_whole a t q a' :
  whole_account a -> whole q ->
  buy_stock a t q = Ok a' -> whole_account a'.
Proof.
  intros Hw Hq. pose proof Hw as (Hf & Hfee & Hl & Hs). unfold buy_stock.
  destruct (latest_prices a !! t) as [p|] eqn:Hp; [|done].
  pose proof (Hl t p Hp) as Hwp.
  destruct (_ >=? _)%num; [|done].
  cbn [stocks_owned set_transactions set_funds].
  destruct (stocks_owned a !! t) as [h|] eqn:Hh.
  - destruct (div _ _); [|done]. destruct (Hs t h Hh) as [Hwq Hwc].
    intros [= <-]. apply (whole_account_intro a); try done.
    + cbn -[add sub mul]. auto with whole.
    + intros t' h'. cbn -[add sub mul].
      destruct (decide (t = t')) as [<-|Hne].
      * rewrite lookup_insert_eq. intros [= <-]. cbn -[add].
        split; [auto with whole | done].
      * rewrite lookup_insert_ne by done. apply Hs.
  - intros [= <-]. apply (whole_account_intro a); try done.
    + cbn -[add sub mul]. auto with whole.
    + intros t' h'. cbn -[add sub mul].
      destruct (decide (t = t')) as [<-|Hne].
      * rewrite lookup_insert_eq. by intros [= <-].
      * rewrite lookup_insert_ne by done. apply Hs.
Qed.

Lemma trailing_stop_whole a t q pts pct a' :
  whole_account a ->
  trailing_stop a t q pts pct = Ok a' -> whole_account a'.
Proof.
  intros Hw. pose proof Hw as (Hf & Hfee & Hl & Hs).
  unfold trailing_stop. rewrite div_hundred.
  destruct (_ >=? _)%num; [|done].
  destruct (stocks_owned a !! t) as [h|] eqn:Hh; [|done].
  destruct (Hs t h Hh) as [Hwq Hwc].
  destruct (_ >? _)%num; [done|].
  destruct pct; intros [= <-]; (apply (whole_account_intro a); try done);
    intros t' h'; cbn -[add percent];
    (destruct (decide (t = t')) as [<-|Hne];
     [ rewrite lookup_insert_eq; by intros [= <-]
     | rewrite lookup_insert_ne by done; apply Hs ]).
Qed.

Lemma sell_all_facts a a' :
  sell_all a = Ok a' ->
  stocks_owned a' = ∅
  /\ funds a' =
       credited (TRANSACTION_FEE a) (funds a) (map_to_list (stocks_owned a))
  /\ transactions a' = (transactions a + Z.of_nat (size (stocks_owned a)))%Z
  /\ TRANSACTION_FEE a' = TRANSACTION_FEE a
  /\ latest_prices a' = latest_prices a.
Proof.
  intros Hrun.
  destruct (sell_all_loop (map_to_list (stocks_owned a)) a)
    as (a1 & Hrun1 & Hst & Htr & Hf & Hfee & _ & Hl & _).
  - apply NoDup_fst_map_to_list.
  - intros k h Hin. by apply elem_of_map_to_list.
  - unfold sell_all in Hrun. rewrite Hrun1 in Hrun. injection Hrun as <-.
    split; [|split; [done|split; [|done]]].
    + apply map_eq. intros k. rewrite Hst, lookup_empty.
      case_decide as Hn; [done|].
      destruct (stocks_owned a !! k) as [h|] eqn:E; [|done].
      exfalso. apply Hn. apply list_elem_of_fmap. exists (k, h). split; [done|].
      by apply elem_of_map_to_list.
    + by rewrite Htr, length_map_to_list.
Qed.

Lemma sell_all_whole a a' :
  whole_account a -> sell_all a = Ok a' ->
  whole_account a'
  /\ toQ (funds a')
     == toQ (funds a)
        + proceeds (TRANSACTION_FEE a) (map_to_list (stocks_owned a)).
Proof.
  intros Hw Hrun. pose proof Hw as (Hf & Hfee & Hl & Hs).
  destruct (sell_all_facts a a' Hrun) as (Hempty & Hfunds & _ & Efee & El).
  destruct (credited_whole (TRANSACTION_FEE a) (funds a)
              (map_to_list (stocks_owned a))) as [Hcw Hce]; [done|done| |].
  - intros k h Hin. apply (Hs k). by apply elem_of_map_to_list.
  - split; [|by rewrite Hfunds].
    apply (whole_account_intro a); try done.
    + by rewrite Hfunds.
    + intros t h. by rewrite Hempty, lookup_empty.
Qed.

(** One call that is not an update keeps an account in whole
    numbers. *)
Lemma run_whole o a a' :
  trades o -> whole_op o -> whole_account a -> run o a = Ok a' ->
  whole_account a'.
Proof.
  intros Ho Hq Hw. destruct o; cbn [run]; [done|..].
  - by apply buy_stock_whole.
  - by apply sell_stock_whole.
  - by apply trailing_stop_whole.
  - intros Hrun. by apply (sell_all_whole a).
Qed.

(** A successful sale lowers the worth of the account by the fee. *)
Lemma sell_stock_worth a t q a' :
  whole_account a -> whole_op (Sell t q) ->
  sell_stock a t q = Ok a' ->
  toQ (net_worth a') == toQ (net_worth a) - toQ (TRANSACTION_FEE a)
  /\ transactions a' = (transactions a + 1)%Z.
Proof.
  intros Hw Hq Hrun.
  pose proof (sell_stock_whole a t q a' Hw Hq Hrun) as Hw'.
  rewrite (net_worth_sum a' Hw'), (net_worth_sum a Hw).
  destruct Hw as (Hf & Hfee & Hl & Hs). revert Hrun. unfold sell_stock.
  destruct (stocks_owned a !! t) as [h|] eqn:Hh; [|done].
  fold (asked q h). destruct (_ >=? _)%num; [|done].
  destruct (Hs t h Hh) as [Hwq Hwc].
  assert (Hwa : whole (asked q h)) by (by destruct q).
  cbn -[toQ Qplus Qminus Qmult Qeq add sub mul eqb].
  intros [= <-]. split; [|by destruct (_ =? _)%num].
  rewrite (holdings_value_delete _ t h Hh).
  destruct (quantity h - asked q h =? zero)%num eqn:Hz;
    cbn -[toQ Qplus Qminus Qmult Qeq add sub mul eqb].
  - apply eqb_eq in Hz. rewrite toQ_sub, toQ_zero in Hz by done.
    rewrite toQ_add, toQ_sub, toQ_mul by auto with whole.
    assert (E : toQ (quantity h) == toQ (asked q h)) by lra.
    rewrite E. ring.
  - rewrite holdings_value_insert.
    cbn -[toQ Qplus Qminus Qmult Qeq add sub mul eqb].
    rewrite toQ_add, !toQ_sub, toQ_mul by auto with whole. ring.
Qed.

(** A successful buy on an account in sync lowers its worth by the
    fee. *)
Lemma buy_stock_worth a t q a' :
  whole_account a -> whole q ->
  in_sync a ->
  buy_stock a t q = Ok a' ->
  toQ (net_worth a') == toQ (net_worth a) - toQ (TRANSACTION_FEE a)
  /\ transactions a' = (transactions a + 1)%Z.
Proof.
  intros Hw Hq Hsync Hrun.
  pose proof (buy_stock_whole a t q a' Hw Hq Hrun) as Hw'.
  rewrite (net_worth_sum a' Hw'), (net_worth_sum a Hw).
  destruct Hw as (Hf & Hfee & Hl & Hs). revert Hrun. unfold buy_stock.
  destruct (latest_prices a !! t) as [price|] eqn:Hp; [|done].
  pose proof (Hl t price Hp) as Hwp.
  destruct (_ >=? _)%num; [|done].
  cbn [stocks_owned set_transactions set_funds].
  destruct (stocks_owned a !! t) as [h|] eqn:Hh.
  - destruct (div _ _); [|done]. destruct (Hs t h Hh) as [Hwq Hwc].
    intros [= <-]. split; [|done].
    rewrite (holdings_value_delete _ t h Hh).
    cbn -[toQ Qplus Qminus Qmult Qeq add sub mul eqb].
    rewrite holdings_value_insert.
    cbn -[toQ Qplus Qminus Qmult Qeq add sub mul eqb].
    rewrite (Hsync t h price Hh Hp).
    rewrite toQ_sub, !toQ_add, toQ_mul by auto with whole. ring.
  - intros [= <-]. split; [|done].
    cbn -[toQ Qplus Qminus Qmult Qeq add sub mul eqb].
    rewrite holdings_value_insert, (delete_id _ _ Hh).
    cbn -[toQ Qplus Qminus Qmult Qeq add sub mul eqb].
    rewrite toQ_sub, !toQ_add, toQ_mul by auto with whole. ring.
Qed.

(** Placing a trailing stop leaves the worth of the account as it is. *)
Lemma trailing_stop_worth a t q pts pct a' :
  whole_account a ->
  trailing_stop a t q pts pct = Ok a' ->
  toQ (net_worth a') == toQ (net_worth a)
  /\ transactions a' = transactions a.
Proof.
  intros Hw Hrun.
  pose proof (trailing_stop_whole a t q pts pct a' Hw Hrun) as Hw'.
  rewrite (net_worth_sum a' Hw'), (net_worth_sum a Hw).
  revert Hrun. unfold trailing_stop. rewrite div_hundred.
  destruct (_ >=? _)%num; [|done].
  destruct (stocks_owned a !! t) as [h|] eqn:Hh; [|done].
  destruct (_ >? _)%num; [done|].
  destruct pct; intros [= <-]; (split; [|done]);
    rewrite (holdings_value_delete _ t h Hh);
    cbn -[toQ Qplus Qminus Qmult Qeq percent add];
    rewrite holdings_value_insert; reflexivity.
Qed.

Lemma proceeds_value fee (l : list (string * holding)) :
  proceeds fee l == holdings_value l - inject_Z (Z.of_nat (length l)) * toQ fee.
Proof.
  induction l as [|[k h] l IH]; [reflexivity|].
  cbn [proceeds holdings_value length]. rewrite IH, Nat2Z.inj_succ.
  unfold Z.succ. rewrite inject_Z_plus. ring.
Qed.

Lemma sell_all_ok_worth a a' :
  whole_account a ->
  sell_all a = Ok a' ->
  toQ (net_worth a')
  == toQ (net_worth a)
     - inject_Z (transactions a' - transactions a) * toQ (TRANSACTION_FEE a).
Proof.
  intros Hw Hrun.
  destruct (sell_all_whole a a' Hw Hrun) as [Hw' Hf].
  destruct (sell_all_facts a a' Hrun) as (Hempty & _ & Htr & _).
  rewrite (net_worth_sum a' Hw'), (net_worth_sum a Hw).
  rewrite Hempty, map_to_list_empty, Hf, proceeds_value, Htr.
  cbn [holdings_value]. rewrite length_map_to_list.
  replace (transactions a + Z.of_nat (size (stocks_owned a)) - transactions a)%Z
    with (Z.of_nat (size (stocks_owned a))) by lia.
  ring.
Qed.

(** [sell_all] turns every holding into funds and pays one fee per
    holding: it returns normally, leaves no holding, so that [value()]
    is the int 0, and counts one transaction per holding; on an account
    in whole numbers it lowers the worth of the account (funds plus the
    value of the holdings) by exactly the fee times the number of
    holdings. *)
Theorem sell_all_worth (a : account) :
  exists a',
    sell_all a = Ok a'
    /\ stocks_owned a' = ∅
    /\ value a' = zero
    /\ transactions a' = (transactions a + Z.of_nat (size (stocks_owned a)))%Z
    /\ (whole_account a ->
        toQ (net_worth a')
        == toQ (net_worth a)
           - inject_Z (Z.of_nat (size (stocks_owned a)))
             * toQ (TRANSACTION_FEE a)).
Proof.
  destruct (sell_all_loop (map_to_list (stocks_owned a)) a)
    as (a' & Hrun & _).
  - apply NoDup_fst_map_to_list.
  - intros k h Hin. by apply elem_of_map_to_list.
  - fold (sell_all a) in Hrun.
    destruct (sell_all_facts a a' Hrun) as (Hempty & _ & Htr & _).
    exists a'. split; [exact Hrun|]. split; [exact Hempty|].
    split; [unfold value; by rewrite Hempty, map_to_list_empty|].
    split; [exact Htr|].
    intros Hw. rewrite (sell_all_ok_worth a a' Hw Hrun), Htr.
    replace (transactions a + Z.of_nat (size (stocks_owned a)) - transactions a)%Z
      with (Z.of_nat (size (stocks_owned a))) by lia.
    reflexivity.
Qed.

(** One call that is not an update, on an account in whole numbers and
    in sync. *)
Lemma run_worth o a a' :
  trades o -> whole_op o -> whole_account a -> in_sync a -> run o a = Ok a' ->
  toQ (net_worth a')
  == toQ (net_worth a)
     - inject_Z (transactions a' - transactions a) * toQ (TRANSACTION_FEE a).
Proof.
  intros Ho Hq Hw Hsync. destruct o; cbn [run]; [done|..].
  - intros Hrun. destruct (buy_stock_worth a ticker q a' Hw Hq Hsync Hrun) as [-> ->].
    replace (transactions a + 1 - transactions a)%Z with 1%Z by lia. ring.
  - intros Hrun. destruct (sell_stock_worth a ticker q a' Hw Hq Hrun) as [-> ->].
    replace (transactions a + 1 - transactions a)%Z with 1%Z by lia. ring.
  - intros Hrun.
    destruct (trailing_stop_worth a ticker q pts pct a' Hw Hrun) as [-> ->].
    rewrite Z.sub_diag. ring.
  - by apply sell_all_ok_worth.
Qed.

(** In whole numbers the fee is the only cost between two price
    updates: on an account whose funds, fee, prices and quantities are
    ints and whose holdings are priced at the latest prices, after any
    sequence of buys and sells of int quantities, trailing-stop
    placements and liquidations that all return normally, the worth of
    the account (funds plus the value of the holdings) has dropped by
    exactly the fee times the number of transactions counted. *)
Theorem fees_are_the_only_cost (l : list op) (a a' : account) :
  Forall trades l ->
  Forall whole_op l ->
  whole_account a ->
  in_sync a ->
  run_all l a = Ok a' ->
  toQ (net_worth a')
  == toQ (net_worth a)
     - inject_Z (transactions a' - transactions a) * toQ (TRANSACTION_FEE a).
Proof.
  revert a. induction l as [|o l IH]; intros a Hl Hq Hw Hsync Hrun.
  - injection Hrun as <-. rewrite Z.sub_diag. ring.
  - apply Forall_cons in Hl as [Ho Hl]. apply Forall_cons in Hq as [Hqo Hq].
    unfold run_all in *. cbn [for_each] in Hrun.
    destruct (run o a) as [a1|e a1|e a1] eqn:Hone; [|done|done].
    cbn [bind] in Hrun.
    pose proof (run_in_sync o a a1 Hsync Hone) as Hsync1.
    pose proof (run_whole o a a1 Ho Hqo Hw Hone) as Hw1.
    pose proof (run_worth o a a1 Ho Hqo Hw Hsync Hone) as H1.
    pose proof (run_terms o a) as [_ Hfee]. rewrite Hone in Hfee. cbn in Hfee.
    rewrite (IH a1 Hl Hq Hw1 Hsync1 Hrun), H1, Hfee.
    replace (transactions a' - transactions a)%Z
      with ((transactions a' - transactions a1)
            + (transactions a1 - transactions a))%Z by lia.
    rewrite inject_Z_plus. ring.
Qed.

Lemma holding_five_lookup (t : string) :
  latest_prices holding_five !! t
  = (if decide (t = "A"%string) then Some (Int 10) else None)
  /\ stocks_owned holding_five !! t
     = (if decide (t = "A"%string)
        then Some {| quantity := Int 5; bought_p := Int 10;
                     current_p := Int 10; options := None |}
        else None).
Proof.
  assert (El : latest_prices holding_five = quote (Int 10)) by (by vm_compute).
  assert (Es : stocks_owned holding_five
               = {[ "A"%string := {| quantity := Int 5; bought_p := Int 10;
                                     current_p := Int 10; options := None |} ]})
    by (by vm_compute).
  rewrite El, Es. unfold quote. case_decide as Ht.
  - subst t. by rewrite !lookup_singleton_eq.
  - by rewrite !lookup_singleton_ne.
Qed.

Lemma fees_are_the_only_cost_witness :
  toQ (net_worth
         (state_of (run_all [Buy "A" (Int 3); Sell "A" (Qty (Int 8))]
                      holding_five)))
  == toQ (net_worth holding_five)
     - inject_Z
         (transactions
            (state_of (run_all [Buy "A" (Int 3); Sell "A" (Qty (Int 8))]
                         holding_five))
          - transactions holding_five)
       * toQ (TRANSACTION_FEE holding_five).
Proof.
  apply (fees_are_the_only_cost [Buy "A" (Int 3); Sell "A" (Qty (Int 8))]).
  - repeat constructor.
  - repeat constructor.
  - split; [by vm_compute|]. split; [by vm_compute|]. split.
    + intros t p. rewrite (proj1 (holding_five_lookup t)).
      case_decide; [by intros [= <-] | done].
    + intros t h. rewrite (proj2 (holding_five_lookup t)).
      case_decide; [by intros [= <-] | done].
  - intros t h p.
    rewrite (proj1 (holding_five_lookup t)), (proj2 (holding_five_lookup t)).
    case_decide; [by intros [= <-] [= <-] | done].
  - vm_compute. reflexivity.
Defined.

(** With floats the fee is not the only cost: on the default account,
    the buy of 100 shares quoted at 110.56 lowers the worth of the
    account by a little more than the fee of 6.99. *)
Example fees_round_with_floats :
  toQ (net_worth first_fill)
  < toQ (net_worth quoted) - toQ (TRANSACTION_FEE quoted).
Proof. by vm_compute. Qed.

(** ** Further properties: the report *)

(** The market loop fails exactly when a recorded ticker has no latest
    price. *)
Lemma market_totals_None latest (l : list (string * num)) tp tr :
  market_totals latest l tp tr = None
  <-> exists k v, (k, v) ∈ l /\ latest !! k = None.
Proof.
  revert tp tr. induction l as [|[k v] l IH]; intros tp tr; cbn [market_totals].
  - split; [done | intros (k & v & Hin & _); by apply elem_of_nil in Hin].
  - destruct (latest !! k) as [p|] eqn:Hp.
    + rewrite IH. split.
      * intros (k' & v' & Hin & Hn). exists k', v'. split; [by right | done].
      * intros (k' & v' & Hin & Hn).
        apply elem_of_cons in Hin as [[= -> ->]|Hin]; [congruence|].
        by exists k', v'.
    + split; [|done]. intros _. exists k, v. split; [left | done].
Qed.


(** As long as no ticker has an original price (a fresh account, or one
    that was never updated), [report] raises [ZeroDivisionError]: either
    the initial funds are 0, or the market return divides 0 by 0. *)
Theorem report_without_prices (a : account) (verbose : bool) :
  original_prices a = ∅ ->
  report a verbose = (ReportRaise ZeroDivisionError, a).
Proof.
  intros Hempty. unfold report. rewrite Hempty, map_to_list_empty.
  destruct (div _ (initial_funds a)); [|done].
  cbn [market_totals]. by cbn.
Qed.

Lemma report_without_prices_witness :
  report init_default true = (ReportRaise ZeroDivisionError, init_default).
Proof. apply report_without_prices. reflexivity. Defined.

(** [report] raises [KeyError] when the initial funds are not 0 and a
    ticker with an original price has no latest price, as happens once
    a later snapshot leaves out a ticker recorded earlier. *)
Theorem report_after_desync (a : account) (verbose : bool) (t : string)
    (v : num) :
  ~ toQ (initial_funds a) == 0 ->
  original_prices a !! t = Some v ->
  latest_prices a !! t = None ->
  report a verbose = (ReportRaise KeyError, a).
Proof.
  intros Hinit Hv Hn. unfold report.
  destruct (div_is_Some (funds a + value a - initial_funds a)%num
              (initial_funds a) Hinit) as [pp ->].
  assert (Hm : market_totals (latest_prices a) (map_to_list (original_prices a))
                 zero zero = None).
  { apply market_totals_None. exists t, v. split; [|done].
    by apply elem_of_map_to_list. }
  by rewrite Hm.
Qed.

Lemma report_after_desync_witness :
  report desynced false = (ReportRaise KeyError, desynced).
Proof.
  apply (report_after_desync desynced false "A" (Int 10)).
  - vm_compute. discriminate.
  - vm_compute. reflexivity.
  - vm_compute. reflexivity.
Defined.



(** The loop of a verbose report fails exactly when a holding has an
    average bought price of 0, and otherwise lists every holding. *)
Lemma held_lines_None (l : list (string * holding)) :
  held_lines l = None
  <-> exists k h, (k, h) ∈ l /\ toQ (bought_p h) == 0.
Proof.
  induction l as [|[k h] l IH]; cbn [held_lines].
  - split; [done | intros (k & h & Hin & _); by apply elem_of_nil in Hin].
  - destruct (div _ (bought_p h)) as [r|] eqn:Hd.
    + assert (Hnz : ~ toQ (bought_p h) == 0).
      { intros Hz. apply (div_None (current_p h - bought_p h)%num) in Hz.
        rewrite Hz in Hd. done. }
      destruct (held_lines l) as [ls|].
      * split; [done|]. intros (k' & h' & Hin & Hz).
        apply elem_of_cons in Hin as [[= -> ->]|Hin]; [done|].
        assert (Hbad : Some ls = None) by (apply IH; by exists k', h').
        done.
      * split; [|done]. intros _.
        destruct (proj1 IH eq_refl) as (k' & h' & Hin & Hz).
        exists k', h'. split; [by right | done].
    + split; [|done]. intros _. exists k, h. split; [left|].
      by apply (div_None (current_p h - bought_p h)%num).
Qed.

Lemma held_lines_length (l : list (string * holding)) ls :
  held_lines l = Some ls -> length ls = length l.
Proof.
  revert ls. induction l as [|[k h] l IH]; intros ls; cbn [held_lines].
  - by intros [= <-].
  - destruct (div _ _); [|done]. destruct (held_lines l) as [ls'|]; [|done].
    intros [= <-]. cbn. by rewrite (IH ls').
Qed.

(** A verbose report of an account whose plain report returns: it
    raises [ZeroDivisionError] exactly when some holding has an average
    bought price of 0 (bought at a price of 0), and otherwise returns
    the same figures with one line per holding. *)
Theorem report_verbose (a : account) (f : figures) :
  report a false = (Report f, a) ->
  ((exists t h, stocks_owned a !! t = Some h /\ toQ (bought_p h) == 0) ->
   report a true = (ReportRaise ZeroDivisionError, a))
  /\ ((forall t h, stocks_owned a !! t = Some h -> ~ toQ (bought_p h) == 0) ->
      exists ls,
        report a true =
          (Report {| account_worth := account_worth f; profit := profit f;
                     profit_percentage := profit_percentage f;
                     market_return := market_return f;
                     stocks_held := ls;
                     number_of_transactions := number_of_transactions f |}, a)
        /\ length ls = size (stocks_owned a)).
Proof.
  unfold report.
  destruct (div _ (initial_funds a)) as [pp|]; [|done].
  destruct (market_totals _ _ _ _) as [[tp tr]|]; [|done].
  destruct (div tr tp) as [mr|]; [|done].
  intros [= <-]. split.
  - intros (t & h & Hh & Hz).
    assert (Hl : held_lines (map_to_list (stocks_owned a)) = None).
    { apply held_lines_None. exists t, h. split; [|done].
      by apply elem_of_map_to_list. }
    by rewrite Hl.
  - intros Hnz.
    destruct (held_lines (map_to_list (stocks_owned a))) as [ls|] eqn:Hl.
    + exists ls. split; [done|].
      by rewrite (held_lines_length _ _ Hl), length_map_to_list.
    + apply held_lines_None in Hl as (t & h & Hin & Hz).
      apply elem_of_map_to_list in Hin. by destruct (Hnz t h Hin).
Qed.

Lemma report_verbose_witness :
  exists ls,
    report (state_of gained) true =
      (Report {| account_worth := Int 1050; profit := Int 50;
                 profit_percentage := Flt 0; market_return := Flt 0;
                 stocks_held := ls; number_of_transactions := 1 |},
       state_of gained)
    /\ length ls = size (stocks_owned (state_of gained)).
Proof.
  refine (proj2 (report_verbose (state_of gained)
                   {| account_worth := Int 1050; profit := Int 50;
                      profit_percentage := Flt 0; market_return := Flt 0;
                      stocks_held := []; number_of_transactions := 1 |} _) _).
  - vm_compute. reflexivity.
  - intros t h Hh.
    destruct (decide (t = "A"%string)) as [->|Hne].
    + vm_compute in Hh. injection Hh as <-. vm_compute. discriminate.
    + exfalso. revert Hh.
      change (({[ "A"%string := {| quantity := Int 10; bought_p := Int 10;
                                    current_p := Int 15; options := None |} ]}
                 : gmap string holding) !! t = Some h -> False).
      by rewrite lookup_singleton_ne.
Defined.

(** ** Further properties: buying *)

(** When the merge divides with a float operand, the new average is the
    float nearest to the quotient of the two amounts that the code
    computes: the old amount plus the new one, and the old quantity plus
    the new one (each rounded to binary64 where a float is involved), so
    that it approximates the volume-weighted mean of the old average and
    the fill price without being that number. *)
Theorem buy_stock_merge_average (a : account) (t : string) (q p : num)
    (h : holding) (a' : account) :
  latest_prices a !! t = Some p ->
  stocks_owned a !! t = Some h ->
  ~ (whole (quantity h * bought_p h + q * p)%num /\ whole (quantity h + q)%num) ->
  buy_stock a t q = Ok a' ->
  exists h', stocks_owned a' !! t = Some h'
             /\ quantity h' = (quantity h + q)%num
             /\ bought_p h' =
                  Flt (round64 (fval (quantity h * bought_p h + q * p)%num
                                / fval (quantity h + q)%num)).
Proof.
  intros Hp Hh Hflt. unfold buy_stock. rewrite Hp.
  destruct (_ >=? _)%num; [|done].
  cbn [stocks_owned set_transactions set_funds]. rewrite Hh.
  destruct (div _ _) as [avg|] eqn:Hdiv; [|done].
  intros [= <-]. eexists. split; [cbn; apply lookup_insert_eq|].
  cbn -[add mul]. split; [done|].
  by rewrite (div_flt _ _ _ Hflt Hdiv).
Qed.

Lemma buy_stock_merge_average_witness :
  exists h', stocks_owned (state_of (buy_stock requoted "AAPL" (Int 50)))
               !! "AAPL"%string = Some h'
             /\ quantity h' = Int 150
             /\ bought_p h' = Flt (8282870314672237 # 70368744177664).
Proof.
  destruct (buy_stock_merge_average requoted "AAPL" (Int 50) (Flt 132)
              {| quantity := Int 100; bought_p := Flt (11056 # 100);
                 current_p := Flt 132; options := None |}
              (state_of (buy_stock requoted "AAPL" (Int 50))))
    as (h' & Hh & Hq & Hb).
  - vm_compute. reflexivity.
  - vm_compute. reflexivity.
  - intros [Hx _]. vm_compute in Hx. exact Hx.
  - vm_compute. reflexivity.
  - exists h'. split; [exact Hh|]. split; [exact Hq|].
    rewrite Hb. vm_compute. reflexivity.
Defined.

(** The average of 100 shares at 110.56 and 50 at 132 comes out as the
    float 117.70666666666666, below the mean [17656 / 150]. *)
Example buy_stock_average_rounds :
  toQ (Flt (8282870314672237 # 70368744177664)) < 17656 # 150
  /\ round64 (17656 # 150) == 8282870314672237 # 70368744177664.
Proof. by vm_compute. Qed.

(** What a successful buy does: the ticker has a latest price, the funds
    are debited [quantity * price + fee] (computed and subtracted in the
    arithmetic of the code) and one transaction is counted; a ticker not
    held gets a holding bought and priced at that price, without order;
    a holding already there gets the quantity added and a new average,
    and keeps its current price and its order; no other holding and no
    price table changes. *)
Theorem buy_stock_effects (a : account) (t : string) (q : num) (a' : account) :
  buy_stock a t q = Ok a' ->
  exists p,
    latest_prices a !! t = Some p
    /\ funds a' = (funds a - (q * p + TRANSACTION_FEE a))%num
    /\ 0 <= toQ (funds a')
    /\ transactions a' = (transactions a + 1)%Z
    /\ (stocks_owned a !! t = None ->
        stocks_owned a' !! t =
          Some {| quantity := q; bought_p := p; current_p := p;
                  options := None |})
    /\ (forall h, stocks_owned a !! t = Some h ->
          exists h' avg,
            stocks_owned a' !! t = Some h'
            /\ quantity h' = (quantity h + q)%num
            /\ div (quantity h * bought_p h + q * p)%num (quantity h + q)%num
               = Some avg
            /\ bought_p h' = float avg
            /\ current_p h' = current_p h
            /\ options h' = options h)
    /\ (forall t', t' <> t -> stocks_owned a' !! t' = stocks_owned a !! t')
    /\ latest_prices a' = latest_prices a
    /\ original_prices a' = original_prices a.
Proof.
  unfold buy_stock.
  destruct (latest_prices a !! t) as [p|] eqn:Hp; [|done].
  destruct (_ >=? _)%num eqn:Hge; [|done].
  apply geb_ge in Hge. rewrite toQ_zero in Hge.
  cbn [stocks_owned set_transactions set_funds].
  destruct (stocks_owned a !! t) as [h|] eqn:Hh.
  - destruct (div _ _) as [avg|] eqn:Hd; [|done].
    intros [= <-]. exists p. cbn -[toQ Qle add sub mul].
    split; [done|]. split; [done|]. split; [done|].
    split; [done|]. split; [done|]. split.
    + intros h0 [= <-]. eexists. exists avg.
      split; [apply lookup_insert_eq|]. by repeat split.
    + split; [|done]. intros t' Hne. by rewrite lookup_insert_ne.
  - intros [= <-]. exists p. cbn -[toQ Qle add sub mul].
    split; [done|]. split; [done|]. split; [done|].
    split; [done|]. split; [intros _; apply lookup_insert_eq|].
    split; [done|]. split; [|done]. intros t' Hne. by rewrite lookup_insert_ne.
Qed.

Lemma buy_stock_effects_witness :
  exists p, latest_prices quoted !! "AAPL"%string = Some p
            /\ funds first_fill
               = (Int 100000 - (Int 100 * p + Flt (699 # 100)))%num
            /\ transactions first_fill = (transactions quoted + 1)%Z.
Proof.
  destruct (buy_stock_effects quoted "AAPL" (Int 100) first_fill)
    as (p & Hp & Hf & _ & Htr & _).
  - vm_compute. reflexivity.
  - exists p. split; [exact Hp|]. split; [exact Hf | exact Htr].
Defined.

(** Buying a ticker that is not held and selling ["all"] of it right
    away is a round trip on the holdings: both calls succeed, the
    holdings and the price tables are exactly as before, and the funds
    are first debited [quantity * price + fee] and then credited
    [quantity * price - fee] in the arithmetic of the code, which on
    ints leaves them exactly two fees lower. *)
Theorem buy_then_sell_all_restores (a : account) (t : string) (q p : num) :
  latest_prices a !! t = Some p ->
  toQ (cost a q p) <= toQ (funds a) ->
  stocks_owned a !! t = None ->
  exists a1 a2,
    buy_stock a t q = Ok a1
    /\ sell_stock a1 t All = Ok a2
    /\ stocks_owned a2 = stocks_owned a
    /\ latest_prices a2 = latest_prices a
    /\ original_prices a2 = original_prices a
    /\ funds a2 =
         (funds a - (q * p + TRANSACTION_FEE a)
          + (q * p - TRANSACTION_FEE a))%num
    /\ (whole (funds a) -> whole q -> whole p -> whole (TRANSACTION_FEE a) ->
        toQ (funds a2) == toQ (funds a) - 2 * toQ (TRANSACTION_FEE a))
    /\ transactions a2 = (transactions a + 2)%Z.
Proof.
  intros Hp Hle Hnone. apply le_not_below in Hle.
  rewrite (buy_stock_new a t q p Hp Hle Hnone).
  eexists. eexists. split; [reflexivity|].
  unfold sell_stock. cbn -[toQ Qeq add sub mul eqb geb].
  rewrite lookup_insert_eq.
  cbn -[toQ Qeq add sub mul eqb geb].
  assert (Hge : (q - q >=? zero)%num = true).
  { apply sub_nonneg. apply Qle_refl. }
  assert (Hz : (q - q =? zero)%num = true).
  { apply sub_eq_zero. reflexivity. }
  rewrite Hge. cbn -[toQ Qeq add sub mul eqb geb].
  rewrite Hz. split; [reflexivity|].
  cbn -[toQ Qeq add sub mul eqb geb].
  split; [by rewrite delete_insert_eq, delete_id|].
  split; [done|]. split; [done|]. unfold cost.
  split; [done|]. split; [|lia].
  intros. by apply round_trip_funds.
Qed.

Lemma buy_then_sell_all_restores_witness :
  exists a1 a2,
    buy_stock quoted "AAPL" (Int 100) = Ok a1
    /\ sell_stock a1 "AAPL" All = Ok a2
    /\ stocks_owned a2 = stocks_owned quoted.
Proof.
  destruct (buy_then_sell_all_restores quoted "AAPL" (Int 100) (Flt (11056 # 100)))
    as (a1 & a2 & H1 & H2 & H3 & _).
  - vm_compute. reflexivity.
  - vm_compute. discriminate.
  - vm_compute. reflexivity.
  - exists a1, a2. split; [exact H1|]. split; [exact H2 | exact H3].
Defined.

(** ** Further properties: repeating an update *)

Lemma set_latest_same a : set_latest (latest_prices a) a = a.
Proof. by destruct a. Qed.

Lemma set_current_p_same h : set_current_p (current_p h) h = h.
Proof. by destruct h. Qed.

Lemma set_highest_same o : set_highest (highest o) o = o.
Proof. by destruct o. Qed.

Lemma set_options_same h : set_options (options h) h = h.
Proof. by destruct h. Qed.

(** A loop whose iterations all leave the account as it is. *)
Lemma for_each_fixed {A : Type} (body : A -> account -> outcome)
    (l : list A) (a : account) :
  (forall x, x ∈ l -> body x a = Ok a) -> for_each body l a = Ok a.
Proof.
  induction l as [|x l IH]; intros Hall; [done|].
  cbn [for_each]. rewrite (Hall x) by left. cbn [bind].
  apply IH. intros y Hy. apply Hall. by right.
Qed.

(** What each iteration of the loop of [update] establishes for its
    ticker holds for every ticker once the loop is through. *)
Lemma update_loop_each (P : gmap string num -> string -> holding -> Prop) :
  (forall k a a1 h',
     update_one k a = Ok a1 -> stocks_owned a1 !! k = Some h' ->
     P (latest_prices a) k h') ->
  forall (l : list (string * holding)) a a',
    NoDup l.*1 ->
    for_each (fun kv => update_one kv.1) l a = Ok a' ->
    forall t h', t ∈ l.*1 -> stocks_owned a' !! t = Some h' ->
                 P (latest_prices a) t h'.
Proof.
  intros Hone l. induction l as [|[k x] l IH]; intros a a' Hnd Hrun t h' Ht Hh'.
  - by apply elem_of_nil in Ht.
  - rewrite fmap_cons in Hnd, Ht. apply NoDup_cons in Hnd as [Hk Hnd].
    cbn [for_each fst] in Hrun, Ht.
    pose proof (update_one_sync k a) as (Hl1 & Ho1 & _).
    destruct (update_one k a) as [a1|e a1|e a1] eqn:Hk1; [|done|done].
    cbn [bind state_of] in *.
    destruct (update_loop_sync l a1 a' Hnd Hrun) as (_ & Ho & _).
    destruct (decide (t = k)) as [->|Hne].
    + rewrite (Ho k Hk) in Hh'. by apply (Hone k a a1).
    + apply elem_of_cons in Ht as [?|Ht]; [done|].
      rewrite <- Hl1. by apply (IH a1 a').
Qed.

Lemma update_one_settles k a a1 h' :
  update_one k a = Ok a1 -> stocks_owned a1 !! k = Some h' ->
  settled (latest_prices a) k h'.
Proof.
  unfold update_one, settled.
  destruct (latest_prices a !! k) as [p|]; [|done].
  destruct (stocks_owned a !! k) as [h|] eqn:Hh; [|done].
  set (a0 := set_stocks _ a). cbn [options set_current_p].
  destruct (options h) as [o|] eqn:Ho.
  2:{ intros [= <-]. subst a0. cbn. rewrite lookup_insert_eq.
      intros [= <-]. cbn. by rewrite Ho. }
  unfold update_trailing_stop. subst a0. cbn [stocks_owned set_stocks].
  rewrite lookup_insert_eq. cbn [options set_current_p current_p]. rewrite Ho.
  set (a0 := set_stocks _ a).
  destruct (highest o >? p)%num eqn:Hgt.
  - fold (threshold o). destruct (p <=? threshold o)%num eqn:Hthr.
    + pose proof (sell_stock_only_at a0 k (Qty (oquantity o))) as Hs.
      destruct (sell_stock a0 k (Qty (oquantity o))) as [a2|e a2|e a2];
        [|done|done].
      cbn [bind state_of] in *. intros [= <-]. unfold drop_trailing_stop.
      destruct (stocks_owned a2 !! k) as [h2|] eqn:H2.
      * cbn. rewrite lookup_insert_eq. intros [= <-]. cbn.
        destruct Hs as (_ & _ & Hcur). destruct (Hcur h2 H2) as (h0 & H0 & ->).
        subst a0. cbn in H0. rewrite lookup_insert_eq in H0.
        by injection H0 as <-.
      * by rewrite H2.
    + intros [= <-]. subst a0. cbn. rewrite lookup_insert_eq.
      intros [= <-]. cbn. rewrite Ho. split; [done|]. by right.
  - intros [= <-]. subst a0. cbn. rewrite insert_insert_eq, lookup_insert_eq.
    intros [= <-]. cbn. split; [done|]. by left.
Qed.

(** An iteration on a settled holding leaves the account as it is. *)
Lemma update_one_settled k a h :
  stocks_owned a !! k = Some h -> settled (latest_prices a) k h ->
  update_one k a = Ok a.
Proof.
  intros Hh. unfold update_one, settled.
  destruct (latest_prices a !! k) as [p|]; [|done].
  intros [Hcur Hord]. rewrite Hh. subst p.
  rewrite set_current_p_same, (insert_id _ _ _ Hh), set_stocks_same.
  destruct (options h) as [o|] eqn:Ho; [|done].
  unfold update_trailing_stop. rewrite Hh, Ho.
  destruct Hord as [Hhi|[Hgt Hthr]].
  - assert (Hgt : (highest o >? current_p h)%num = false).
    { rewrite Hhi. apply gtb_le. lra. }
    rewrite Hgt, <- Hhi, set_highest_same, <- Ho, set_options_same.
    by rewrite (insert_id _ _ _ Hh), set_stocks_same.
  - rewrite Hgt. fold (threshold o). by rewrite Hthr.
Qed.

(** Repeating an [update] that returned normally, with the same snapshot
    and ticker, returns normally again and changes nothing: no order
    triggers or moves its watermark a second time. *)
Theorem update_twice (a : account) (prices : gmap string num) (tk : string)
    (a1 : account) :
  update a prices tk = Ok a1 -> update a1 prices tk = Ok a1.
Proof.
  intros Hrun.
  assert (Horig : is_Some (original_prices a1 !! tk)).
  { pose proof (update_original a prices tk) as Ho. rewrite Hrun in Ho.
    cbn [state_of] in Ho. rewrite Ho.
    destruct (original_prices a !! tk) as [v|] eqn:Hv; [by rewrite Hv|].
    destruct (prices !! tk) as [p|] eqn:Hp.
    - rewrite lookup_insert_eq. by eexists.
    - unfold update in Hrun. by rewrite Hv, Hp in Hrun. }
  assert (Hsettled : forall t h, stocks_owned a1 !! t = Some h ->
                                 settled prices t h).
  { revert Hrun. unfold update.
    destruct (match original_prices a !! tk with Some _ => _ | None => _ end)
      as [a0|e a0|e a0]; [|done|done].
    cbn [bind]. set (a2 := set_latest prices a0). intros Hloop t h Hh.
    assert (Ht : t ∈ (map_to_list (stocks_owned a2)).*1).
    { destruct (decide (t ∈ (map_to_list (stocks_owned a2)).*1)) as [|Hn]; [done|].
      destruct (update_loop_sync _ a2 a1 (NoDup_fst_map_to_list _) Hloop)
        as (_ & Ho & _).
      rewrite (Ho t Hn) in Hh. exfalso. apply Hn.
      apply list_elem_of_fmap. exists (t, h). split; [done|].
      by apply elem_of_map_to_list. }
    apply (update_loop_each settled update_one_settles _ a2 a1
             (NoDup_fst_map_to_list _) Hloop t h Ht Hh). }
  destruct (update_ok_facts a prices tk a1 Hrun) as [Hl _].
  unfold update. destruct Horig as [v ->]. cbn [bind].
  rewrite <- Hl, set_latest_same.
  apply for_each_fixed. intros [k h] Hin. cbn [fst].
  apply elem_of_map_to_list in Hin.
  apply (update_one_settled k a1 h Hin). rewrite Hl. by apply Hsettled.
Qed.

Lemma update_twice_witness :
  update (state_of (update tracked (quote (Int 110)) "A"))
    (quote (Int 110)) "A"
  = Ok (state_of (update tracked (quote (Int 110)) "A")).
Proof.
  apply (update_twice tracked). vm_compute. reflexivity.
Defined.

(** ** Further properties: how an update ends *)

(** One iteration of the loop of [update] on a held ticker: it returns
    normally unless the quote triggers an order that asks for more than
    the holding has, and then it quits with the oversell diagnostic. *)
Lemma update_one_cases k a h :
  stocks_owned a !! k = Some h ->
  match update_one k a with
  | Ok _ => ~ overdrawn (latest_prices a) k h
  | Quit e _ => e = OversellAttempt /\ overdrawn (latest_prices a) k h
  | Raise _ _ => False
  end.
Proof.
  intros Hh. unfold update_one, overdrawn.
  destruct (latest_prices a !! k) as [p|]; [|tauto].
  rewrite Hh. cbn [options set_current_p]. unfold oversized.
  destruct (options h) as [o|] eqn:Ho; [|tauto].
  unfold update_trailing_stop. cbn [stocks_owned set_stocks].
  rewrite lookup_insert_eq. cbn [options set_current_p current_p]. rewrite Ho.
  set (a0 := set_stocks _ a).
  destruct (highest o >? p)%num eqn:Hgt.
  2:{ apply gtb_le in Hgt. intros (Hlt & _). lra. }
  apply gtb_gt in Hgt. fold (threshold o).
  destruct (p <=? threshold o)%num eqn:Hthr.
  2:{ apply leb_gt in Hthr. intros (_ & Hle & _). lra. }
  apply leb_le in Hthr.
  destruct (below_dec (quantity h) (oquantity o)) as [Hover|Hfits].
  - rewrite (sell_stock_oversell a0 k (set_current_p p h)); [done| |done].
    subst a0. cbn. apply lookup_insert_eq.
  - rewrite (sell_stock_ok a0 k (set_current_p p h));
      [|subst a0; cbn; apply lookup_insert_eq|done].
    cbn [bind]. by intros (_ & _ & Hlt).
Qed.

Lemma update_loop_cases (l : list (string * holding)) a :
  NoDup l.*1 ->
  (forall k h, (k, h) ∈ l -> stocks_owned a !! k = Some h) ->
  match for_each (fun kv => update_one kv.1) l a with
  | Ok _ => forall k h, (k, h) ∈ l -> ~ overdrawn (latest_prices a) k h
  | Quit e _ =>
      e = OversellAttempt
      /\ exists k h, (k, h) ∈ l /\ overdrawn (latest_prices a) k h
  | Raise _ _ => False
  end.
Proof.
  revert a. induction l as [|[k h] l IH]; intros a Hnd Hin.
  - cbn. intros k h Hk. by apply elem_of_nil in Hk.
  - rewrite fmap_cons in Hnd. apply NoDup_cons in Hnd as [Hk Hnd].
    cbn [for_each fst].
    pose proof (update_one_cases k a h (Hin k h ltac:(left))) as Hone.
    pose proof (update_one_sync k a) as (Hl1 & Ho1 & _).
    destruct (update_one k a) as [a1|e a1|e a1]; cbn [bind state_of] in *.
    + assert (Hin1 : forall k' h', (k', h') ∈ l -> stocks_owned a1 !! k' = Some h').
      { intros k' h' Hin'. rewrite Ho1; [apply Hin; by right|].
        intros ->. apply Hk. apply list_elem_of_fmap. by exists (k, h'). }
      specialize (IH a1 Hnd Hin1). rewrite Hl1 in IH.
      destruct (for_each _ l a1) as [a2|e a2|e a2].
      * intros k' h' [[= -> ->]|Hin']%elem_of_cons; [done | by apply IH].
      * destruct IH as (-> & k' & h' & Hin' & Hbad). split; [done|].
        exists k', h'. split; [by right | done].
      * done.
    + destruct Hone as [-> Hbad]. split; [done|]. exists k, h. split; [left | done].
    + done.
Qed.

(** How an [update] ends.  The [KeyError] of the first line escapes,
    with the account unchanged, exactly when the ticker has neither an
    original price nor a quote in the snapshot.  Otherwise the update
    quits with the oversell diagnostic exactly when some held, quoted
    ticker has an order that the quote triggers (the quote is below the
    watermark and at or below the threshold that the code computes,
    rounding included) and whose quantity the holding is below (as after
    a manual sale); otherwise it returns normally. *)
Theorem update_outcomes (a : account) (prices : gmap string num) (tk : string) :
  (original_prices a !! tk = None /\ prices !! tk = None ->
   update a prices tk = Raise KeyError a)
  /\ (is_Some (original_prices a !! tk) \/ is_Some (prices !! tk) ->
      ((exists t h, stocks_owned a !! t = Some h /\ overdrawn prices t h) ->
       exists a', update a prices tk = Quit OversellAttempt a')
      /\ ((forall t h, stocks_owned a !! t = Some h -> ~ overdrawn prices t h) ->
          exists a', update a prices tk = Ok a')).
Proof.
  split.
  { intros [Ho Hp]. unfold update. by rewrite Ho, Hp. }
  intros Hknown. unfold update.
  set (r := match original_prices a !! tk with Some _ => _ | None => _ end).
  assert (Hr : exists a1, r = Ok a1 /\ stocks_owned a1 = stocks_owned a).
  { subst r. destruct (original_prices a !! tk) as [v|]; [by exists a|].
    destruct Hknown as [[? [=]]|[p Hp]]. rewrite Hp. by eexists. }
  destruct Hr as (a1 & -> & Hst). cbn [bind].
  set (a2 := set_latest prices a1).
  pose proof (update_loop_cases (map_to_list (stocks_owned a2)) a2
                (NoDup_fst_map_to_list _)) as Hloop.
  cbn [latest_prices set_latest a2] in Hloop.
  assert (Hheld : forall k h, (k, h) ∈ map_to_list (stocks_owned a2)
                              <-> stocks_owned a !! k = Some h).
  { intros k h. rewrite elem_of_map_to_list. subst a2. cbn. by rewrite Hst. }
  specialize (Hloop (fun k h Hin => proj1 (elem_of_map_to_list _ k h) Hin)).
  destruct (for_each _ _ a2) as [a'|e a'|e a']; [| |done].
  - split; [|intros _; by exists a'].
    intros (t & h & Hh & Hbad). exfalso.
    apply (Hloop t h); [by apply Hheld | done].
  - destruct Hloop as (-> & k & h & Hin & Hbad). split; [intros _; by exists a'|].
    intros Hnone. exfalso. apply (Hnone k h); [by apply Hheld | done].
Qed.

(** Rounding decides how an update ends.  An order of 55 percent for
    10 shares under the watermark 100 that outlived a sale of 5 of the
    10 shares is not triggered by a quote of 45, because the threshold
    comes out below 45: the update returns normally, where a threshold
    of exactly 45 would end it in the oversell diagnostic. *)
Example update_rounding_spares_order :
  (exists h o, stocks_owned oversold_percentage !! "A"%string = Some h
               /\ options h = Some o /\ below (quantity h) (oquantity o))
  /\ exists a', update oversold_percentage (quote (Int 45)) "A" = Ok a'.
Proof.
  split.
  - eexists. eexists. split; [by vm_compute|]. split; [done|]. by vm_compute.
  - eexists. by vm_compute.
Qed.

Lemma update_outcomes_witness :
  exists a', update oversold_order (quote (Int 90)) "A" = Quit OversellAttempt a'.
Proof.
  refine (proj1 (proj2 (update_outcomes oversold_order (quote (Int 90)) "A") _) _).
  - left. vm_compute. by eexists.
  - exists "A"%string. eexists. split; [vm_compute; reflexivity|].
    vm_compute. repeat split; discriminate.
Defined.

(** ** Further properties: the average bought price *)

Lemma same_basis_refl m : same_basis m m.
Proof. intros t h Hh. by exists h. Qed.

Lemma same_basis_trans m1 m2 m3 :
  same_basis m1 m2 -> same_basis m2 m3 -> same_basis m1 m3.
Proof.
  intros H12 H23 t h3 H3. destruct (H23 t h3 H3) as (h2 & H2 & E2).
  destruct (H12 t h2 H2) as (h1 & H1 & E1). exists h1. split; congruence.
Qed.

Lemma same_basis_delete m t : same_basis m (delete t m).
Proof. intros t' h' [_ H]%lookup_delete_Some. by exists h'. Qed.

Lemma same_basis_insert m t h h1 :
  m !! t = Some h -> bought_p h1 = bought_p h -> same_basis m (<[t := h1]> m).
Proof.
  intros Hh Hb t' h'. destruct (decide (t = t')) as [<-|Hne].
  - rewrite lookup_insert_eq. intros [= <-]. by exists h.
  - rewrite lookup_insert_ne by done. intros Hh'. by exists h'.
Qed.

Lemma keeps_basis_refl a : keeps_basis a a.
Proof. apply same_basis_refl. Qed.

Lemma keeps_basis_trans a b c :
  keeps_basis a b -> keeps_basis b c -> keeps_basis a c.
Proof. apply same_basis_trans. Qed.

Lemma sell_stock_basis a t q : keeps_basis a (state_of (sell_stock a t q)).
Proof.
  unfold sell_stock, keeps_basis.
  destruct (stocks_owned a !! t) as [h|] eqn:Hh; [|apply same_basis_refl].
  destruct (_ >=? _)%num; [|apply same_basis_refl].
  cbn -[eqb]. destruct (_ =? _)%num; cbn.
  - apply same_basis_delete.
  - by apply (same_basis_insert _ t h).
Qed.

Lemma update_trailing_stop_basis a t :
  keeps_basis a (state_of (update_trailing_stop a t)).
Proof.
  unfold update_trailing_stop.
  destruct (stocks_owned a !! t) as [h|] eqn:Hh; [|apply keeps_basis_refl].
  destruct (options h) as [o|]; [|apply keeps_basis_refl].
  destruct (_ >? _)%num.
  - destruct (_ <=? _)%num; [|apply keeps_basis_refl].
    pose proof (sell_stock_basis a t (Qty (oquantity o))) as Hs.
    destruct (sell_stock a t (Qty (oquantity o))) as [a1|e a1|e a1];
      simpl in *; try done.
    eapply keeps_basis_trans; [exact Hs|].
    unfold drop_trailing_stop, keeps_basis.
    destruct (stocks_owned a1 !! t) as [h1|] eqn:H1; [|apply same_basis_refl].
    by apply (same_basis_insert _ t h1).
  - unfold keeps_basis. cbn. by apply (same_basis_insert _ t h).
Qed.

Lemma update_one_basis t a : keeps_basis a (state_of (update_one t a)).
Proof.
  unfold update_one.
  destruct (latest_prices a !! t) as [p|]; [|apply keeps_basis_refl].
  destruct (stocks_owned a !! t) as [h|] eqn:Hh; [|apply keeps_basis_refl].
  set (a1 := set_stocks _ a).
  assert (H1 : keeps_basis a a1).
  { unfold keeps_basis. cbn. by apply (same_basis_insert _ t h). }
  cbn [options set_current_p].
  destruct (options h); [|done].
  eapply keeps_basis_trans; [exact H1 | apply update_trailing_stop_basis].
Qed.

Lemma run_basis o a : not_a_buy o -> keeps_basis a (state_of (run o a)).
Proof.
  destruct o; intros Hnb; cbn [run]; [|done|..].
  - unfold update.
    set (r := match original_prices a !! ticker with Some _ => _ | None => _ end).
    assert (Hr : stocks_owned (state_of r) = stocks_owned a).
    { subst r. destruct (original_prices a !! ticker); [done|].
      by destruct (prices !! ticker). }
    destruct r as [a1|e a1|e a1]; simpl in *;
      try (unfold keeps_basis; rewrite Hr; apply same_basis_refl).
    set (a2 := set_latest prices a1).
    assert (H2 : keeps_basis a a2).
    { unfold keeps_basis. cbn. rewrite Hr. apply same_basis_refl. }
    eapply keeps_basis_trans; [exact H2|].
    change (stocks_owned a1) with (stocks_owned a2).
    apply (for_each_preserves keeps_basis);
      [apply keeps_basis_refl | apply keeps_basis_trans
       | intros; apply update_one_basis].
  - apply sell_stock_basis.
  - unfold trailing_stop, keeps_basis. rewrite div_hundred.
    destruct (_ >=? _)%num; [|apply same_basis_refl].
    destruct (stocks_owned a !! ticker) as [h|] eqn:Hh; [|apply same_basis_refl].
    destruct (_ >? _)%num; [|destruct pct]; cbn;
      by apply (same_basis_insert _ ticker h).
  - unfold sell_all.
    apply (for_each_preserves keeps_basis);
      [apply keeps_basis_refl | apply keeps_basis_trans |].
    intros [k v] a0. unfold sell_all_one, keeps_basis. cbn [fst].
    destruct (stocks_owned a0 !! k); [|apply same_basis_refl].
    cbn. apply same_basis_delete.
Qed.

(** Only buying changes an average bought price: after any sequence of
    updates, sales (manual or by a triggered order), trailing-stop
    placements and liquidations, however it ends, every holding left was
    held before and has the same average bought price. *)
Theorem bought_price_changes_only_by_buying (l : list op) (a : account)
    (t : string) (h' : holding) :
  Forall not_a_buy l ->
  stocks_owned (state_of (run_all l a)) !! t = Some h' ->
  exists h, stocks_owned a !! t = Some h /\ bought_p h' = bought_p h.
Proof.
  intros Hl. revert t h'. change (keeps_basis a (state_of (run_all l a))).
  revert a. induction l as [|o l IH]; intros a; [apply keeps_basis_refl|].
  apply Forall_cons in Hl as [Ho Hl]. unfold run_all in *. cbn [for_each].
  pose proof (run_basis o a Ho) as H1.
  destruct (run o a) as [a1|e a1|e a1]; simpl in *; [|done|done].
  eapply keeps_basis_trans; [exact H1 | by apply IH].
Qed.

Lemma bought_price_changes_only_by_buying_witness :
  exists h, stocks_owned holding_five !! "A"%string = Some h
            /\ bought_p {| quantity := Int 2; bought_p := Int 10;
                           current_p := Int 12; options := None |}
               = bought_p h.
Proof.
  apply (bought_price_changes_only_by_buying
           [Update (quote (Int 12)) "A"; Sell "A" (Qty (Int 3))]).
  - repeat constructor.
  - vm_compute. reflexivity.
Defined.
